(** * CHIP-8 emulator core: a shallow embedding and its verification

    The development follows [src/emulator/chip8.h], [src/emulator/chip8.c]
    and the keypad setters of [src/emulator/main.c].  The older single-file
    variant [src/chip8.c] is embedded in [Module Flat] further down.

    Conventions.
    - Every C integer is a [Z]; the truncating conversions that C performs
      on stores to [uint8_t] and [uint16_t] lvalues are written [u8], [u16].
    - The arrays of [struct chip8] are lists, read with [get] and written
      with [set].  [V], [display] and [stack] are indexed by values that the
      code masks (register numbers, display cells) or guards (SP): on a
      [well_formed] emulator, which [emulator_cycle] keeps well formed,
      these indices are inside the arrays.  [memory] is indexed through the
      address register [I], which the code neither masks nor guards, so
      accesses to [memory] are checked and an access outside the array is
      an [Undef] outcome (C gives it no meaning).
    - [rand()] is an input of the cycle: the value it would return.
    - The definitions come first, the properties after them. *)

From Stdlib Require Import ZArith Lia Bool List.
From stdpp Require Import base list.
Import ListNotations.
Local Open Scope Z_scope.

(** ** Hardware parameters ([chip8.h]) *)

Definition MEM_SIZE : Z := 4096.
Definition RESERVED_MEM : Z := 512.
Definition DISP_W : Z := 64.
Definition DISP_H : Z := 32.
Definition DISP_SIZE : Z := DISP_W * DISP_H.
Definition STACK_SIZE : Z := 16.

(** [enum chip8_key]: [C8K_0] .. [C8K_F] are the integers 0 .. 15. *)
Definition C8K_NONE : Z := -1.

(** [enum eml_stat] *)
Inductive eml_stat : Type :=
  | EML_OK
  | EML_REDRAW
  | EML_BRK_REACHED
  | EML_UNK_OPC
  | EML_STACK_OVERFL
  | EML_STACK_UNDERFL
  | EML_PC_OVERFL.

(** [struct chip8] *)
Record chip8 : Type := mk_chip8 {
  memory : list Z;      (* uint8_t memory[MEM_SIZE] *)
  display : list Z;     (* uint8_t display[DISP_SIZE] *)
  V : list Z;           (* uint8_t V[16] *)
  SP : Z;               (* uint8_t *)
  DT : Z;               (* uint8_t *)
  ST : Z;               (* uint8_t *)
  PC : Z;               (* uint16_t *)
  I : Z;                (* uint16_t *)
  stack : list Z        (* uint16_t stack[STACK_SIZE] *)
}.

(** [struct emulator]; [rom_file] is only printed by the front end and is
    left out. *)
Record emulator : Type := mk_emulator {
  cpu : chip8;
  opcode : Z;           (* uint16_t *)
  prev_PC : Z;          (* uint16_t *)
  keypad : Z;           (* uint16_t *)
  last_key : Z;         (* enum chip8_key *)
  brk_point : Z;        (* int32_t *)
  clock_speed : Z;      (* int32_t *)
  key_waiting : bool;
  dbg_output : bool;
  brk_point_set : bool;
  paused : bool
}.

(** Field assignments. *)
Definition set_memory (m : list Z) (c : chip8) : chip8 :=
  mk_chip8 m (display c) (V c) (SP c) (DT c) (ST c) (PC c) (I c) (stack c).
Definition set_display (d : list Z) (c : chip8) : chip8 :=
  mk_chip8 (memory c) d (V c) (SP c) (DT c) (ST c) (PC c) (I c) (stack c).
Definition set_V (v : list Z) (c : chip8) : chip8 :=
  mk_chip8 (memory c) (display c) v (SP c) (DT c) (ST c) (PC c) (I c) (stack c).
Definition set_SP (s : Z) (c : chip8) : chip8 :=
  mk_chip8 (memory c) (display c) (V c) s (DT c) (ST c) (PC c) (I c) (stack c).
Definition set_DT (t : Z) (c : chip8) : chip8 :=
  mk_chip8 (memory c) (display c) (V c) (SP c) t (ST c) (PC c) (I c) (stack c).
Definition set_ST (t : Z) (c : chip8) : chip8 :=
  mk_chip8 (memory c) (display c) (V c) (SP c) (DT c) t (PC c) (I c) (stack c).
Definition set_PC (p : Z) (c : chip8) : chip8 :=
  mk_chip8 (memory c) (display c) (V c) (SP c) (DT c) (ST c) p (I c) (stack c).
Definition set_I (i : Z) (c : chip8) : chip8 :=
  mk_chip8 (memory c) (display c) (V c) (SP c) (DT c) (ST c) (PC c) i (stack c).
Definition set_stack (s : list Z) (c : chip8) : chip8 :=
  mk_chip8 (memory c) (display c) (V c) (SP c) (DT c) (ST c) (PC c) (I c) s.

Definition set_cpu (c : chip8) (e : emulator) : emulator :=
  mk_emulator c (opcode e) (prev_PC e) (keypad e) (last_key e) (brk_point e)
    (clock_speed e) (key_waiting e) (dbg_output e) (brk_point_set e) (paused e).
Definition set_opcode (o : Z) (e : emulator) : emulator :=
  mk_emulator (cpu e) o (prev_PC e) (keypad e) (last_key e) (brk_point e)
    (clock_speed e) (key_waiting e) (dbg_output e) (brk_point_set e) (paused e).
Definition set_prev_PC (p : Z) (e : emulator) : emulator :=
  mk_emulator (cpu e) (opcode e) p (keypad e) (last_key e) (brk_point e)
    (clock_speed e) (key_waiting e) (dbg_output e) (brk_point_set e) (paused e).
Definition set_keypad (k : Z) (e : emulator) : emulator :=
  mk_emulator (cpu e) (opcode e) (prev_PC e) k (last_key e) (brk_point e)
    (clock_speed e) (key_waiting e) (dbg_output e) (brk_point_set e) (paused e).
Definition set_last_key (k : Z) (e : emulator) : emulator :=
  mk_emulator (cpu e) (opcode e) (prev_PC e) (keypad e) k (brk_point e)
    (clock_speed e) (key_waiting e) (dbg_output e) (brk_point_set e) (paused e).
Definition set_key_waiting (b : bool) (e : emulator) : emulator :=
  mk_emulator (cpu e) (opcode e) (prev_PC e) (keypad e) (last_key e) (brk_point e)
    (clock_speed e) b (dbg_output e) (brk_point_set e) (paused e).
Definition set_breakpoint (on : bool) (a : Z) (e : emulator) : emulator :=
  mk_emulator (cpu e) (opcode e) (prev_PC e) (keypad e) (last_key e) a
    (clock_speed e) (key_waiting e) (dbg_output e) on (paused e).

(** [eml->cpu.f = v] *)
Definition upd (f : chip8 -> chip8) (e : emulator) : emulator :=
  set_cpu (f (cpu e)) e.

(** ** Integer conversions and array access *)

Definition u8 (z : Z) : Z := z mod 256.
Definition u16 (z : Z) : Z := z mod 65536.

Definition get (l : list Z) (i : Z) : Z := default 0 (l !! Z.to_nat i).
Definition set (l : list Z) (i : Z) (v : Z) : list Z := <[Z.to_nat i := v]> l.

(** What C leaves undefined and the handlers can reach. *)
Inductive undefined : Type :=
  | OutOfBoundsRead (a : Z)     (* memory[a] read with a outside the array *)
  | OutOfBoundsWrite (a : Z)    (* memory[a] written with a outside the array *)
  | ShiftCount (k : Z).         (* 1 << k on a 32-bit int with k > 30 *)

Inductive res (A : Type) : Type :=
  | Ret (a : A)
  | Undef (u : undefined).
Arguments Ret {A} a.
Arguments Undef {A} u.

#[global] Instance res_ret : MRet res := fun A a => Ret a.
#[global] Instance res_bind : MBind res := fun A B f m =>
  match m with
  | Ret a => f a
  | Undef u => Undef u
  end.

Definition mem_read (a : Z) (e : emulator) : res Z :=
  if (0 <=? a) && (a <? MEM_SIZE) then Ret (get (memory (cpu e)) a)
  else Undef (OutOfBoundsRead a).

Definition mem_write (a v : Z) (e : emulator) : res emulator :=
  if (0 <=? a) && (a <? MEM_SIZE)
  then Ret (upd (set_memory (set (memory (cpu e)) a v)) e)
  else Undef (OutOfBoundsWrite a).

(** [for (int i = lo; i < lo + cnt; i++) body], the body in [res]. *)
Fixpoint for_loop {T : Type} (cnt : nat) (i : Z) (body : Z -> T -> res T)
    (s : T) : res T :=
  match cnt with
  | O => Ret s
  | S c => s' ← body i s; for_loop c (i + 1) body s'
  end.

(** Register access: [eml->cpu.V[i]]. *)
Definition Vr (e : emulator) (i : Z) : Z := get (V (cpu e)) i.
Definition set_Vr (i v : Z) (e : emulator) : emulator :=
  upd (set_V (set (V (cpu e)) i v)) e.

(** ** Chip8 font and opcode fields *)

Definition chip8_fontset : list Z := [
    0xF0; 0x90; 0x90; 0x90; 0xF0; 0x20; 0x60; 0x20; 0x20; 0x70;
    0xF0; 0x10; 0xF0; 0x80; 0xF0; 0xF0; 0x10; 0xF0; 0x10; 0xF0;
    0x90; 0x90; 0xF0; 0x10; 0x10; 0xF0; 0x80; 0xF0; 0x10; 0xF0;
    0xF0; 0x80; 0xF0; 0x90; 0xF0; 0xF0; 0x10; 0x20; 0x40; 0x40;
    0xF0; 0x90; 0xF0; 0x90; 0xF0; 0xF0; 0x90; 0xF0; 0x10; 0xF0;
    0xF0; 0x90; 0xF0; 0x90; 0x90; 0xE0; 0x90; 0xE0; 0x90; 0xE0;
    0xF0; 0x80; 0x80; 0x80; 0xF0; 0xE0; 0x90; 0x90; 0x90; 0xE0;
    0xF0; 0x80; 0xF0; 0x80; 0xF0; 0xF0; 0x80; 0xF0; 0x80; 0x80
  ].

(** [keypad & (1 << key)] as a truth value; [key] is a register value. *)
Definition keypad_is_pressed (e : emulator) (key : Z) : res bool :=
  if key <? 31 then Ret (negb (Z.land (keypad e) (Z.shiftl 1 key) =? 0))
  else Undef (ShiftCount key).

Definition op_x (op : Z) : Z := Z.land (Z.shiftr op 8) 0xF.
Definition op_y (op : Z) : Z := Z.land (Z.shiftr op 4) 0xF.
Definition op_kk (op : Z) : Z := Z.land op 0xFF.
Definition op_nnn (op : Z) : Z := Z.land op 0xFFF.

(** ** Instruction handlers ([src/emulator/chip8.c])

    Each handler takes the opcode and the emulator and yields the status
    together with the emulator after the handler's assignments, in the
    order the C statements perform them. *)

Definition handler : Type := Z -> emulator -> res (eml_stat * emulator).

(** The [if (cond) PC += 2] of the skip instructions. *)
Definition skip_if (cond : bool) (e : emulator) : emulator :=
  if cond then upd (set_PC (u16 (PC (cpu e) + 2))) e else e.

(** 00E0 - CLS *)
Definition instr_CLS : handler := fun op e =>
  Ret (EML_REDRAW, upd (set_display (replicate (Z.to_nat DISP_SIZE) 0)) e).

(** 00EE - RET *)
Definition instr_RET : handler := fun op e =>
  if SP (cpu e) =? 0 then Ret (EML_STACK_UNDERFL, e)
  else
    let e1 := upd (set_SP (u8 (SP (cpu e) - 1))) e in
    Ret (EML_OK, upd (set_PC (get (stack (cpu e1)) (SP (cpu e1)))) e1).

(** 1nnn - JP addr *)
Definition instr_JP_nnn : handler := fun op e =>
  Ret (EML_OK, upd (set_PC (op_nnn op)) e).

(** 2nnn - CALL addr *)
Definition instr_CALL_nnn : handler := fun op e =>
  if SP (cpu e) =? STACK_SIZE then Ret (EML_STACK_OVERFL, e)
  else
    let e1 := upd (set_stack (set (stack (cpu e)) (SP (cpu e)) (PC (cpu e)))) e in
    let e2 := upd (set_SP (u8 (SP (cpu e1) + 1))) e1 in
    Ret (EML_OK, upd (set_PC (op_nnn op)) e2).

(** 3xkk - SE Vx, byte *)
Definition instr_SE_Vx_kk : handler := fun op e =>
  Ret (EML_OK, skip_if (Vr e (op_x op) =? op_kk op) e).

(** 4xkk - SNE Vx, byte *)
Definition instr_SNE_Vx_kk : handler := fun op e =>
  Ret (EML_OK, skip_if (negb (Vr e (op_x op) =? op_kk op)) e).

(** 5xy0 - SE Vx, Vy *)
Definition instr_SE_Vx_Vy : handler := fun op e =>
  Ret (EML_OK, skip_if (Vr e (op_x op) =? Vr e (op_y op)) e).

(** 6xkk - LD Vx, byte *)
Definition instr_LD_Vx_kk : handler := fun op e =>
  Ret (EML_OK, set_Vr (op_x op) (op_kk op) e).

(** 7xkk - ADD Vx, byte *)
Definition instr_ADD_Vx_kk : handler := fun op e =>
  Ret (EML_OK, set_Vr (op_x op) (u8 (Vr e (op_x op) + op_kk op)) e).

(** 8xy0 - LD Vx, Vy *)
Definition instr_LD_Vx_Vy : handler := fun op e =>
  Ret (EML_OK, set_Vr (op_x op) (Vr e (op_y op)) e).

(** 8xy1 - OR Vx, Vy *)
Definition instr_OR_Vx_Vy : handler := fun op e =>
  Ret (EML_OK, set_Vr (op_x op) (Z.lor (Vr e (op_x op)) (Vr e (op_y op))) e).

(** 8xy2 - AND Vx, Vy *)
Definition instr_AND_Vx_Vy : handler := fun op e =>
  Ret (EML_OK, set_Vr (op_x op) (Z.land (Vr e (op_x op)) (Vr e (op_y op))) e).

(** 8xy3 - XOR Vx, Vy *)
Definition instr_XOR_Vx_Vy : handler := fun op e =>
  Ret (EML_OK, set_Vr (op_x op) (Z.lxor (Vr e (op_x op)) (Vr e (op_y op))) e).

(** 8xy4 - ADD Vx, Vy: the sum goes to the local [s] first, then the flag
    is stored, then the low byte of [s]. *)
Definition instr_ADD_Vx_Vy : handler := fun op e =>
  let s := u16 (Vr e (op_x op) + Vr e (op_y op)) in
  let e1 := set_Vr 0xF (if s >? 0xFF then 1 else 0) e in
  Ret (EML_OK, set_Vr (op_x op) (Z.land s 0xFF) e1).

(** 8xy5 - SUB Vx, Vy: the flag is stored first; the subtraction then reads
    [V[x]] and [V[y]] again. *)
Definition instr_SUB_Vx_Vy : handler := fun op e =>
  let e1 := set_Vr 0xF (if Vr e (op_x op) >? Vr e (op_y op) then 1 else 0) e in
  Ret (EML_OK, set_Vr (op_x op) (u8 (Vr e1 (op_x op) - Vr e1 (op_y op))) e1).

(** 8xy6 - SHR Vx {, Vy} *)
Definition instr_SHR_Vx__Vy : handler := fun op e =>
  let e1 := set_Vr 0xF (Z.land (Vr e (op_x op)) 0x01) e in
  Ret (EML_OK, set_Vr (op_x op) (Z.shiftr (Vr e1 (op_x op)) 1) e1).

(** 8xy7 - SUBN Vx, Vy *)
Definition instr_SUBN_Vx_Vy : handler := fun op e =>
  let e1 := set_Vr 0xF (if Vr e (op_x op) <? Vr e (op_y op) then 1 else 0) e in
  Ret (EML_OK, set_Vr (op_x op) (u8 (Vr e1 (op_y op) - Vr e1 (op_x op))) e1).

(** 8xyE - SHL Vx {, Vy} *)
Definition instr_SHL_Vx_Vy : handler := fun op e =>
  let e1 := set_Vr 0xF (Z.shiftr (Z.land (Vr e (op_x op)) 0x80) 7) e in
  Ret (EML_OK, set_Vr (op_x op) (u8 (Z.shiftl (Vr e1 (op_x op)) 1)) e1).

(** 9xy0 - SNE Vx, Vy *)
Definition instr_SNE_Vx_Vy : handler := fun op e =>
  Ret (EML_OK, skip_if (negb (Vr e (op_x op) =? Vr e (op_y op))) e).

(** Annn - LD I, addr *)
Definition instr_LD_I_nnn : handler := fun op e =>
  Ret (EML_OK, upd (set_I (op_nnn op)) e).

(** Bnnn - JP V0, addr *)
Definition instr_JP_V0_nnn : handler := fun op e =>
  Ret (EML_OK, upd (set_PC (u16 (op_nnn op + Vr e 0))) e).

(** Cxkk - RND Vx, byte; [rnd] is what [rand()] returns. *)
Definition instr_RND_Vx_kk (rnd : Z) : handler := fun op e =>
  Ret (EML_OK, set_Vr (op_x op) (Z.land rnd (op_kk op)) e).

(** Dxyn - DRW Vx, Vy, nibble.  [draw_pixel] is the body of the inner loop;
    the loop state is the emulator and the local [collide]. *)
Definition draw_pixel (x y i j : Z) (s : emulator * Z) : res (emulator * Z) :=
  let d_idx := ((i + y) mod DISP_H) * DISP_W + (x + j) mod DISP_W in
  b ← mem_read (I (cpu s.1) + i) s.1;
  let sprt_bit := Z.land (Z.shiftr b (7 - j)) 0x1 in
  let old := get (display (cpu s.1)) d_idx in
  let collide := if (old =? 1) && (sprt_bit =? 1) then 1 else s.2 in
  Ret (upd (set_display (set (display (cpu s.1)) d_idx (Z.lxor old sprt_bit))) s.1,
       collide).

Definition instr_DRW_Vx_Vy_n : handler := fun op e =>
  let n := Z.land op 0xF in
  let x := Vr e (op_x op) in
  let y := Vr e (op_y op) in
  s ← for_loop (Z.to_nat n) 0
        (fun i => for_loop 8 0 (fun j => draw_pixel x y i j)) (e, 0);
  Ret (EML_REDRAW, set_Vr 0xF s.2 s.1).

(** Ex9E - SKP Vx *)
Definition instr_SKP_Vx : handler := fun op e =>
  p ← keypad_is_pressed e (Vr e (op_x op));
  Ret (EML_OK, skip_if p e).

(** ExA1 - SKNP Vx *)
Definition instr_SKNP_Vx : handler := fun op e =>
  p ← keypad_is_pressed e (Vr e (op_x op));
  Ret (EML_OK, skip_if (negb p) e).

(** Fx07 - LD Vx, DT *)
Definition instr_LD_Vx_DT : handler := fun op e =>
  Ret (EML_OK, set_Vr (op_x op) (DT (cpu e)) e).

(** Fx0A - LD Vx, K *)
Definition instr_LD_Vx_K : handler := fun op e =>
  if last_key e =? C8K_NONE
  then (* start waiting-for-key process *)
    Ret (EML_OK, set_key_waiting true e)
  else (* stop waiting *)
    let e1 := set_Vr (op_x op) (u8 (last_key e)) e in
    Ret (EML_OK, set_last_key C8K_NONE e1).

(** Fx15 - LD DT, Vx *)
Definition instr_LD_DT_Vx : handler := fun op e =>
  Ret (EML_OK, upd (set_DT (Vr e (op_x op))) e).

(** Fx18 - LD ST, Vx *)
Definition instr_LD_ST_Vx : handler := fun op e =>
  Ret (EML_OK, upd (set_ST (Vr e (op_x op))) e).

(** Fx1E - ADD I, Vx *)
Definition instr_ADD_I_Vx : handler := fun op e =>
  let e1 := upd (set_I (u16 (I (cpu e) + Vr e (op_x op)))) e in
  Ret (EML_OK, set_Vr 0xF (if I (cpu e1) >? 0xFFF then 1 else 0) e1).

(** Fx29 - LD F, Vx *)
Definition instr_LD_F_Vx : handler := fun op e =>
  Ret (EML_OK, upd (set_I (u16 (Vr e (op_x op) * 5))) e).

(** Fx33 - LD B, Vx *)
Definition instr_LD_B_Vx : handler := fun op e =>
  let vx := Vr e (op_x op) in
  e1 ← mem_write (I (cpu e)) (vx / 100) e;
  e2 ← mem_write (I (cpu e1) + 1) ((vx / 10) mod 10) e1;
  e3 ← mem_write (I (cpu e2) + 2) (vx mod 10) e2;
  Ret (EML_OK, e3).

(** Fx55 - LD [I], Vx *)
Definition instr_LD_I_Vx_multi : handler := fun op e =>
  e' ← for_loop (Z.to_nat (op_x op + 1)) 0
         (fun i e => mem_write (I (cpu e) + i) (Vr e i) e) e;
  Ret (EML_OK, e').

(** Fx65 - LD Vx, [I] *)
Definition instr_LD_Vx_I_multi : handler := fun op e =>
  e' ← for_loop (Z.to_nat (op_x op + 1)) 0
         (fun i e => b ← mem_read (I (cpu e) + i) e; Ret (set_Vr i b e)) e;
  Ret (EML_OK, e').

(** ** Initialisation, timers, program image *)

Definition emulator_init : emulator :=
  mk_emulator
    (mk_chip8
       (chip8_fontset ++ replicate (Z.to_nat MEM_SIZE - length chip8_fontset) 0)
       (replicate (Z.to_nat DISP_SIZE) 0)
       (replicate 16 0) 0 0 0 0x200 0
       (replicate (Z.to_nat STACK_SIZE) 0))
    0 0 0 C8K_NONE 0 1080 false false false false.

Definition emulator_timer_dec (e : emulator) : emulator :=
  let e1 := if ST (cpu e) >? 0 then upd (set_ST (u8 (ST (cpu e) - 1))) e else e in
  if DT (cpu e1) >? 0 then upd (set_DT (u8 (DT (cpu e1) - 1))) e1 else e1.

(** [emulator_load_program]: [file] is the content of the file at [path],
    [None] when it cannot be opened. *)
Definition emulator_load_program (file : option (list Z)) (e : emulator)
    : bool * emulator :=
  match file with
  | None => (false, e)
  | Some bytes =>
      let fsize := Z.of_nat (length bytes) in
      let max_prg_size := MEM_SIZE - RESERVED_MEM in
      if fsize >? max_prg_size then (false, e)
      else
        let m := memory (cpu e) in
        (true,
         upd (set_memory (take (Z.to_nat RESERVED_MEM) m ++ bytes ++
                          drop (Z.to_nat RESERVED_MEM + length bytes) m)) e)
  end.

(** ** The cycle engine *)

(** The nested [switch] of [emulator_cycle].  An inner [switch] has no
    [default] and is not followed by a [break], so an opcode that matches
    none of its labels runs into the next [case] of the outer [switch]. *)

Definition case_0xF : handler := fun op e =>
  let lo := Z.land op 0xFF in
  if lo =? 0x07 then instr_LD_Vx_DT op e
  else if lo =? 0x0A then instr_LD_Vx_K op e
  else if lo =? 0x15 then instr_LD_DT_Vx op e
  else if lo =? 0x18 then instr_LD_ST_Vx op e
  else if lo =? 0x1E then instr_ADD_I_Vx op e
  else if lo =? 0x29 then instr_LD_F_Vx op e
  else if lo =? 0x33 then instr_LD_B_Vx op e
  else if lo =? 0x55 then instr_LD_I_Vx_multi op e
  else if lo =? 0x65 then instr_LD_Vx_I_multi op e
  else Ret (EML_UNK_OPC, e).

Definition case_0xE : handler := fun op e =>
  let lo := Z.land op 0xFF in
  if lo =? 0x9E then instr_SKP_Vx op e
  else if lo =? 0xA1 then instr_SKNP_Vx op e
  else case_0xF op e.

Definition case_0x9 : handler := instr_SNE_Vx_Vy.

Definition case_0x8 : handler := fun op e =>
  let lo := Z.land op 0xF in
  if lo =? 0x0 then instr_LD_Vx_Vy op e
  else if lo =? 0x1 then instr_OR_Vx_Vy op e
  else if lo =? 0x2 then instr_AND_Vx_Vy op e
  else if lo =? 0x3 then instr_XOR_Vx_Vy op e
  else if lo =? 0x4 then instr_ADD_Vx_Vy op e
  else if lo =? 0x5 then instr_SUB_Vx_Vy op e
  else if lo =? 0x6 then instr_SHR_Vx__Vy op e
  else if lo =? 0x7 then instr_SUBN_Vx_Vy op e
  else if lo =? 0xE then instr_SHL_Vx_Vy op e
  else case_0x9 op e.

Definition case_0x1 : handler := instr_JP_nnn.

Definition case_0x0 : handler := fun op e =>
  let lo := Z.land op 0xFF in
  if lo =? 0xE0 then instr_CLS op e
  else if lo =? 0xEE then instr_RET op e
  else case_0x1 op e.

(** [switch ((eml->opcode & 0xF000) >> 12)]; [status] starts as
    [EML_UNK_OPC]. *)
Definition dispatch (rnd : Z) : handler := fun op e =>
  let hi := Z.shiftr (Z.land op 0xF000) 12 in
  if hi =? 0x0 then case_0x0 op e
  else if hi =? 0x1 then case_0x1 op e
  else if hi =? 0x2 then instr_CALL_nnn op e
  else if hi =? 0x3 then instr_SE_Vx_kk op e
  else if hi =? 0x4 then instr_SNE_Vx_kk op e
  else if hi =? 0x5 then instr_SE_Vx_Vy op e
  else if hi =? 0x6 then instr_LD_Vx_kk op e
  else if hi =? 0x7 then instr_ADD_Vx_kk op e
  else if hi =? 0x8 then case_0x8 op e
  else if hi =? 0x9 then case_0x9 op e
  else if hi =? 0xA then instr_LD_I_nnn op e
  else if hi =? 0xB then instr_JP_V0_nnn op e
  else if hi =? 0xC then instr_RND_Vx_kk rnd op e
  else if hi =? 0xD then instr_DRW_Vx_Vy_n op e
  else if hi =? 0xE then case_0xE op e
  else if hi =? 0xF then case_0xF op e
  else Ret (EML_UNK_OPC, e).

(** Fetch: [memory[PC] << 8 | memory[PC + 1]], stored into [eml->opcode]. *)
Definition fetch (e : emulator) : res Z :=
  b0 ← mem_read (PC (cpu e)) e;
  b1 ← mem_read (PC (cpu e) + 1) e;
  Ret (u16 (Z.lor (Z.shiftl b0 8) b1)).

(** The breakpoint test at the end of the cycle. *)
Definition brk_check (status : eml_stat) (e : emulator) : eml_stat :=
  if brk_point_set e && (prev_PC e =? brk_point e) then EML_BRK_REACHED
  else status.

(** [emulator_cycle]; the [fprintf] under [dbg_output] changes no state and
    is not modelled. *)
Definition emulator_cycle (rnd : Z) (eml : emulator) : res (eml_stat * emulator) :=
  if key_waiting eml then Ret (EML_OK, eml)
  else if PC (cpu eml) + 1 >=? MEM_SIZE then Ret (EML_PC_OVERFL, eml)
  else
    o ← fetch eml;
    let e1 := set_opcode o eml in
    let e2 := set_prev_PC (PC (cpu e1)) e1 in
    let e3 := upd (set_PC (u16 (PC (cpu e2) + 2))) e2 in
    r ← dispatch rnd (opcode e3) e3;
    Ret (brk_check r.1 r.2, r.2).

(** ** Keypad events ([src/emulator/main.c]) *)

Inductive SDL_Keycode : Type :=
  | SDLK_1 | SDLK_2 | SDLK_3 | SDLK_4
  | SDLK_q | SDLK_w | SDLK_e | SDLK_r
  | SDLK_a | SDLK_s | SDLK_d | SDLK_f
  | SDLK_y | SDLK_x | SDLK_c | SDLK_v
  | SDLK_other.

Definition sdlk_to_c8k (key : SDL_Keycode) : Z :=
  match key with
  | SDLK_1 => 0x1 | SDLK_2 => 0x2 | SDLK_3 => 0x3 | SDLK_4 => 0xC
  | SDLK_q => 0x4 | SDLK_w => 0x5 | SDLK_e => 0x6 | SDLK_r => 0xD
  | SDLK_a => 0x7 | SDLK_s => 0x8 | SDLK_d => 0x9 | SDLK_f => 0xE
  | SDLK_y => 0xA | SDLK_x => 0x0 | SDLK_c => 0xB | SDLK_v => 0xF
  | SDLK_other => 0x0
  end.

Definition keypad_pressed (key : SDL_Keycode) (e : emulator) : emulator :=
  let e1 := set_keypad (u16 (Z.lor (keypad e) (Z.shiftl 1 (sdlk_to_c8k key)))) e in
  if key_waiting e1
  then set_key_waiting false (set_last_key (sdlk_to_c8k key) e1)
  else e1.

Definition keypad_released (key : SDL_Keycode) (e : emulator) : emulator :=
  set_keypad (u16 (Z.lxor (keypad e) (Z.shiftl 1 (sdlk_to_c8k key)))) e.

(** The execution faults a handler can raise. *)
Definition is_fault (s : eml_stat) : bool :=
  match s with
  | EML_UNK_OPC | EML_STACK_OVERFL | EML_STACK_UNDERFL => true
  | _ => false
  end.

(** ** The single-file variant ([src/chip8.c])

    The machine state and the emulator data are file-scope variables there;
    they are held in the same [emulator] record.  The handlers [_b0] ..
    [_bF] take no argument and read the global [opcode]. *)

Module Flat.

Inductive eml_stat : Type :=
  | EML_OK
  | EML_REDRAW
  | EML_WAIT_KEY
  | EML_BRK_REACHED
  | EML_UNK_OPC
  | EML_STACK_OVERFL
  | EML_STACK_UNDERFL
  | EML_PC_OVERFL.

Definition handler : Type := emulator -> res (eml_stat * emulator).

Definition _b0 : handler := fun e =>
  let lo := Z.land (opcode e) 0x00FF in
  if lo =? 0x00E0 then
    Ret (EML_REDRAW, upd (set_display (replicate (Z.to_nat DISP_SIZE) 0)) e)
  else if lo =? 0x00EE then
    if SP (cpu e) =? 0 then Ret (EML_STACK_UNDERFL, e)
    else
      let e1 := upd (set_SP (u8 (SP (cpu e) - 1))) e in
      Ret (EML_OK, upd (set_PC (get (stack (cpu e1)) (SP (cpu e1)))) e1)
  else Ret (EML_UNK_OPC, e).

Definition _b1 : handler := fun e =>
  Ret (EML_OK, upd (set_PC (op_nnn (opcode e))) e).

Definition _b2 : handler := fun e =>
  if SP (cpu e) =? STACK_SIZE then Ret (EML_STACK_OVERFL, e)
  else
    let e1 := upd (set_stack (set (stack (cpu e)) (SP (cpu e)) (PC (cpu e)))) e in
    let e2 := upd (set_SP (u8 (SP (cpu e1) + 1))) e1 in
    Ret (EML_OK, upd (set_PC (op_nnn (opcode e2))) e2).

Definition _b3 : handler := fun e =>
  Ret (EML_OK, skip_if (Vr e (op_x (opcode e)) =? op_kk (opcode e)) e).

Definition _b4 : handler := fun e =>
  Ret (EML_OK, skip_if (negb (Vr e (op_x (opcode e)) =? op_kk (opcode e))) e).

Definition _b5 : handler := fun e =>
  Ret (EML_OK, skip_if (Vr e (op_x (opcode e)) =? Vr e (op_y (opcode e))) e).

Definition _b6 : handler := fun e =>
  Ret (EML_OK, set_Vr (op_x (opcode e)) (op_kk (opcode e)) e).

Definition _b7 : handler := fun e =>
  Ret (EML_OK,
       set_Vr (op_x (opcode e)) (u8 (Vr e (op_x (opcode e)) + op_kk (opcode e))) e).

Definition _b8 : handler := fun e =>
  let x := op_x (opcode e) in
  let y := op_y (opcode e) in
  let lo := Z.land (opcode e) 0x000F in
  if lo =? 0x0000 then Ret (EML_OK, set_Vr x (Vr e y) e)
  else if lo =? 0x0001 then Ret (EML_OK, set_Vr x (Z.lor (Vr e x) (Vr e y)) e)
  else if lo =? 0x0002 then Ret (EML_OK, set_Vr x (Z.land (Vr e x) (Vr e y)) e)
  else if lo =? 0x0003 then Ret (EML_OK, set_Vr x (Z.lxor (Vr e x) (Vr e y)) e)
  else if lo =? 0x0004 then
    let s := u16 (Vr e x + Vr e y) in
    let e1 := set_Vr 15 (if s >? 0xFF then 1 else 0) e in
    Ret (EML_OK, set_Vr x (Z.land s 0xFF) e1)
  else if lo =? 0x0005 then
    let e1 := set_Vr 15 (if Vr e x >? Vr e y then 1 else 0) e in
    Ret (EML_OK, set_Vr x (u8 (Vr e1 x - Vr e1 y)) e1)
  else if lo =? 0x0006 then
    let e1 := set_Vr 15 (Z.land (Vr e x) 0x01) e in
    Ret (EML_OK, set_Vr x (Z.shiftr (Vr e1 x) 1) e1)
  else if lo =? 0x0007 then
    let e1 := set_Vr 15 (if Vr e x <? Vr e y then 1 else 0) e in
    Ret (EML_OK, set_Vr x (u8 (Vr e1 y - Vr e1 x)) e1)
  else if lo =? 0x000E then
    let e1 := set_Vr 15 (Z.shiftr (Z.land (Vr e x) 0x80) 7) e in
    Ret (EML_OK, set_Vr x (u8 (Z.shiftl (Vr e1 x) 1)) e1)
  else Ret (EML_UNK_OPC, e).

Definition _b9 : handler := fun e =>
  Ret (EML_OK, skip_if (negb (Vr e (op_x (opcode e)) =? Vr e (op_y (opcode e)))) e).

Definition _bA : handler := fun e =>
  Ret (EML_OK, upd (set_I (op_nnn (opcode e))) e).

Definition _bB : handler := fun e =>
  Ret (EML_OK, upd (set_PC (u16 (op_nnn (opcode e) + Vr e 0))) e).

Definition _bC (rnd : Z) : handler := fun e =>
  Ret (EML_OK, set_Vr (op_x (opcode e)) (Z.land rnd (op_kk (opcode e))) e).

Definition _bD : handler := fun e =>
  let n := Z.land (opcode e) 0xF in
  let x := Vr e (op_x (opcode e)) in
  let y := Vr e (op_y (opcode e)) in
  s ← for_loop (Z.to_nat n) 0
        (fun i => for_loop 8 0 (fun j => draw_pixel x y i j)) (e, 0);
  Ret (EML_REDRAW, set_Vr 15 s.2 s.1).

Definition _bE : handler := fun e =>
  let lo := Z.land (opcode e) 0x00FF in
  if lo =? 0x009E then
    p ← keypad_is_pressed e (Vr e (op_x (opcode e)));
    Ret (EML_OK, skip_if p e)
  else if lo =? 0x00A1 then
    p ← keypad_is_pressed e (Vr e (op_x (opcode e)));
    Ret (EML_OK, skip_if (negb p) e)
  else Ret (EML_UNK_OPC, e).

Definition _bF : handler := fun e =>
  let x := op_x (opcode e) in
  let lo := Z.land (opcode e) 0x00FF in
  if lo =? 0x0007 then Ret (EML_OK, set_Vr x (DT (cpu e)) e)
  else if lo =? 0x000A then
    if last_key e =? C8K_NONE then Ret (EML_WAIT_KEY, set_key_waiting true e)
    else
      let e1 := set_Vr x (u8 (last_key e)) e in
      Ret (EML_OK, set_last_key C8K_NONE e1)
  else if lo =? 0x0015 then Ret (EML_OK, upd (set_DT (Vr e x)) e)
  else if lo =? 0x0018 then Ret (EML_OK, upd (set_ST (Vr e x)) e)
  else if lo =? 0x001E then
    let e1 := upd (set_I (u16 (I (cpu e) + Vr e x))) e in
    Ret (EML_OK, set_Vr 15 (if I (cpu e1) >? 0xFFF then 1 else 0) e1)
  else if lo =? 0x0029 then Ret (EML_OK, upd (set_I (u16 (Vr e x * 5))) e)
  else if lo =? 0x0033 then
    let vx := Vr e x in
    e1 ← mem_write (I (cpu e)) (vx / 100) e;
    e2 ← mem_write (I (cpu e1) + 1) ((vx / 10) mod 10) e1;
    e3 ← mem_write (I (cpu e2) + 2) (vx mod 10) e2;
    Ret (EML_OK, e3)
  else if lo =? 0x0055 then
    e1 ← for_loop (Z.to_nat (x + 1)) 0
           (fun i e => mem_write (I (cpu e) + i) (Vr e i) e) e;
    Ret (EML_OK, upd (set_I (u16 (I (cpu e1) + (x + 1)))) e1)
  else if lo =? 0x0065 then
    e1 ← for_loop (Z.to_nat (x + 1)) 0
           (fun i e => b ← mem_read (I (cpu e) + i) e; Ret (set_Vr i b e)) e;
    Ret (EML_OK, upd (set_I (u16 (I (cpu e1) + (x + 1)))) e1)
  else Ret (EML_UNK_OPC, e).

(** [j_tbl1[(opcode & 0xF000) >> 12]()] *)
Definition j_tbl1 (rnd : Z) : list handler :=
  [_b0; _b1; _b2; _b3; _b4; _b5; _b6; _b7;
   _b8; _b9; _bA; _bB; _bC rnd; _bD; _bE; _bF].

Definition brk_check (status : eml_stat) (e : emulator) : eml_stat :=
  if brk_point_set e && (prev_PC e =? brk_point e) then EML_BRK_REACHED
  else status.

(** [chip8_cycle]: here [prev_PC] is recorded after the PC has moved.  The
    index into [j_tbl1] is at most 15 for a 16-bit opcode. *)
Definition chip8_cycle (rnd : Z) (e : emulator) : res (eml_stat * emulator) :=
  if key_waiting e then Ret (EML_WAIT_KEY, e)
  else if PC (cpu e) + 1 >=? MEM_SIZE then Ret (EML_PC_OVERFL, e)
  else
    o ← fetch e;
    let e1 := set_opcode o e in
    let e2 := upd (set_PC (u16 (PC (cpu e1) + 2))) e1 in
    let e3 := set_prev_PC (PC (cpu e2)) e2 in
    match j_tbl1 rnd !! Z.to_nat (Z.shiftr (Z.land (opcode e3) 0xF000) 12) with
    | Some h => r ← h e3; Ret (brk_check r.1 r.2, r.2)
    | None => Undef (OutOfBoundsRead (Z.shiftr (Z.land (opcode e3) 0xF000) 12))
    end.

End Flat.

(** ** Running the engine *)

(** A machine freshly initialised with the program image [prog] loaded. *)
Definition boot (prog : list Z) : emulator :=
  (emulator_load_program (Some prog) emulator_init).2.

(** [n] calls of [emulator_cycle] in a row; the statuses in order. *)
Fixpoint run (rnd : Z) (n : nat) (e : emulator) : res (list eml_stat * emulator) :=
  match n with
  | O => Ret ([], e)
  | S k =>
      r ← emulator_cycle rnd e;
      r' ← run rnd k r.2;
      Ret (r.1 :: r'.1, r'.2)
  end.

(** The same for the single-file variant. *)
Fixpoint flat_run (rnd : Z) (n : nat) (e : emulator)
    : res (list Flat.eml_stat * emulator) :=
  match n with
  | O => Ret ([], e)
  | S k =>
      r ← Flat.chip8_cycle rnd e;
      r' ← flat_run rnd k r.2;
      Ret (r.1 :: r'.1, r'.2)
  end.

(** Consecutive [CALL]s, stopping at the first that does not succeed. *)
Fixpoint call_chain (ops : list Z) (e : emulator) : list eml_stat * emulator :=
  match ops with
  | [] => ([], e)
  | op :: ops' =>
      match instr_CALL_nnn op e with
      | Ret (EML_OK, e') => let r := call_chain ops' e' in (EML_OK :: r.1, r.2)
      | Ret (st, e') => ([st], e')
      | Undef _ => ([], e)
      end
  end.

(** Mapping over an outcome, to observe a few fields of it. *)
Definition res_map {A B : Type} (f : A -> B) (r : res A) : res B :=
  match r with
  | Ret a => Ret (f a)
  | Undef u => Undef u
  end.

(** The emulator as [emulator_cycle] hands it to the handler: the opcode
    recorded, the old PC kept, the PC moved to the next instruction. *)
Definition advance (o : Z) (e : emulator) : emulator :=
  upd (set_PC (u16 (PC (cpu e) + 2))) (set_prev_PC (PC (cpu e)) (set_opcode o e)).

(** The [k], [k+1], ... of a loop counter. *)
Fixpoint zseq (i : Z) (cnt : nat) : list Z :=
  match cnt with
  | O => []
  | S c => i :: zseq (i + 1) c
  end.

(** Fixtures: the initial machine with some registers preset; the all-set
    8x1 sprite at address 0x200 with I pointing at it, V0 = 60 and V1 = 0,
    over an empty display. *)
Definition with_regs (vs : list (Z * Z)) (e : emulator) : emulator :=
  fold_left (fun e p => set_Vr p.1 p.2 e) vs e.
Definition edge_sprite_machine : emulator :=
  upd (set_I 0x200) (with_regs [(0, 60)] (boot [0xFF])).

(** ** Well-formed emulators *)

(** The ranges of the C types, and the emulators that respect the array
    sizes and the types of [struct chip8] and [struct emulator], with the
    stack pointer inside the stack and the display holding 0 and 1 only. *)
Definition is_u8 (z : Z) : bool := (0 <=? z) && (z <? 256).
Definition byte (z : Z) : Prop := 0 <= z < 256.
Definition word (z : Z) : Prop := 0 <= z < 65536.
Definition bit (z : Z) : Prop := z = 0 \/ z = 1.

Record well_formed (e : emulator) : Prop := mk_well_formed {
  wf_memory_length : length (memory (cpu e)) = Z.to_nat MEM_SIZE;
  wf_display_length : length (display (cpu e)) = Z.to_nat DISP_SIZE;
  wf_V_length : length (V (cpu e)) = 16%nat;
  wf_stack_length : length (stack (cpu e)) = Z.to_nat STACK_SIZE;
  wf_memory : Forall byte (memory (cpu e));
  wf_display : Forall bit (display (cpu e));
  wf_V : Forall byte (V (cpu e));
  wf_stack : Forall word (stack (cpu e));
  wf_SP : 0 <= SP (cpu e) <= STACK_SIZE;
  wf_DT : byte (DT (cpu e));
  wf_ST : byte (ST (cpu e));
  wf_PC : word (PC (cpu e));
  wf_I : word (I (cpu e));
  wf_opcode : word (opcode e);
  wf_prev_PC : word (prev_PC e);
  wf_keypad : word (keypad e);
  wf_last_key : C8K_NONE <= last_key e < 16
}.

(** A handler that keeps an emulator well formed. *)
Definition preserves_well_formed (h : handler) : Prop :=
  forall op e st e', well_formed e -> h op e = Ret (st, e') -> well_formed e'.

(** ** What a handler leaves alone *)

(** Everything of the emulator but the memory array / the registers. *)
Definition same_but_memory (e e' : emulator) : Prop :=
  e' = upd (set_memory (memory (cpu e'))) e.
Definition same_but_V (e e' : emulator) : Prop :=
  e' = upd (set_V (V (cpu e'))) e.

(** The emulator data a handler has no business with: what the cycle
    recorded about the fetch, and the breakpoint configuration. *)
Definition frame (e e' : emulator) : Prop :=
  opcode e' = opcode e /\ prev_PC e' = prev_PC e /\
  brk_point e' = brk_point e /\ brk_point_set e' = brk_point_set e.

(** What a handler may report: success, or a fault with nothing changed. *)
Definition benign (h : handler) : Prop :=
  forall op e st e', h op e = Ret (st, e') ->
    ((st = EML_OK \/ st = EML_REDRAW) \/ (is_fault st = true /\ e' = e)) /\
    frame e e'.

(** A handler that neither reads nor writes the breakpoint configuration:
    it commutes with [set_breakpoint]. *)
Definition keep_status_set_breakpoint (on : bool) (a : Z)
    (r : eml_stat * emulator) : eml_stat * emulator :=
  (r.1, set_breakpoint on a r.2).
Definition breakpoint_blind (h : handler) : Prop :=
  forall on a op e,
    h op (set_breakpoint on a e)
    = res_map (keep_status_set_breakpoint on a) (h op e).

(** [set_breakpoint] on the state of the drawing loops. *)
Definition set_breakpoint_loop (on : bool) (a : Z) (s : emulator * Z)
    : emulator * Z :=
  (set_breakpoint on a s.1, s.2).

(** ** Sprites *)

(** The display cell and the sprite bit of row [i], column [j], as
    [draw_pixel] computes them from the coordinates [x], [y] and from
    memory[I + i]; the cells of a sprite in the order the loops visit them. *)
Definition pixel_index (x y i j : Z) : Z :=
  ((i + y) mod DISP_H) * DISP_W + (x + j) mod DISP_W.
Definition sprite_bit (e : emulator) (i j : Z) : Z :=
  Z.land (Z.shiftr (get (memory (cpu e)) (I (cpu e) + i)) (7 - j)) 0x1.
Definition sprite_row (x y : Z) (e : emulator) (i : Z) (j : Z) (cnt : nat)
    : list (Z * Z) :=
  map (fun j => (pixel_index x y i j, sprite_bit e i j)) (zseq j cnt).
Definition sprite_cells (x y : Z) (e : emulator) (i : Z) (cnt : nat)
    : list (Z * Z) :=
  flat_map (fun i => sprite_row x y e i 0 8) (zseq i cnt).

(** The display cell that Dxyn, executed in [e], gives to row [i], column
    [j] of its sprite, and the rows and columns of that sprite. *)
Definition sprite_cell (op : Z) (e : emulator) (i j : Z) : Z :=
  pixel_index (Vr e (op_x op)) (Vr e (op_y op)) i j.
Definition in_sprite (op : Z) (i j : Z) : Prop :=
  0 <= i < Z.land op 0xF /\ 0 <= j < 8.

(** One round of the inner loop on the display and the collision flag, and
    a whole list of cells. *)
Definition plot1 (s : list Z * Z) (p : Z * Z) : list Z * Z :=
  (set s.1 p.1 (Z.lxor (get s.1 p.1) p.2),
   if (get s.1 p.1 =? 1) && (p.2 =? 1) then 1 else s.2).
Definition plot (ps : list (Z * Z)) (s : list Z * Z) : list Z * Z :=
  fold_left plot1 ps s.

(** The exclusive-or of the sprite bits that land on cell [q]. *)
Fixpoint xor_at (ps : list (Z * Z)) (q : Z) : Z :=
  match ps with
  | [] => 0
  | p :: ps' => Z.lxor (if p.1 =? q then p.2 else 0) (xor_at ps' q)
  end.

(** * The keypad, the front end and the engines side by side *)

(** ** The two engines side by side *)

(** The statuses of [src/chip8.c] read as statuses of
    [src/emulator/chip8.h], which has no [EML_WAIT_KEY]: its Fx0A and its
    waiting cycle report [EML_OK]. *)
Definition flat_status (s : Flat.eml_stat) : eml_stat :=
  match s with
  | Flat.EML_OK => EML_OK
  | Flat.EML_REDRAW => EML_REDRAW
  | Flat.EML_WAIT_KEY => EML_OK
  | Flat.EML_BRK_REACHED => EML_BRK_REACHED
  | Flat.EML_UNK_OPC => EML_UNK_OPC
  | Flat.EML_STACK_OVERFL => EML_STACK_OVERFL
  | Flat.EML_STACK_UNDERFL => EML_STACK_UNDERFL
  | Flat.EML_PC_OVERFL => EML_PC_OVERFL
  end.

(** The opcodes on which the text of the two engines differs only in where
    it stands: in the families 0, 8 and E the opcodes that an inner [case]
    label matches, in the family F all but Fx55 and Fx65, and every opcode of
    the other families. *)
Definition same_instruction (op : Z) : bool :=
  let hi := Z.shiftr (Z.land op 0xF000) 12 in
  if hi =? 0x0 then
    (Z.land op 0xFF =? 0xE0) || (Z.land op 0xFF =? 0xEE)
  else if hi =? 0x8 then
    (Z.land op 0xF <=? 0x7) || (Z.land op 0xF =? 0xE)
  else if hi =? 0xE then
    (Z.land op 0xFF =? 0x9E) || (Z.land op 0xFF =? 0xA1)
  else if hi =? 0xF then
    negb ((Z.land op 0xFF =? 0x55) || (Z.land op 0xFF =? 0x65))
  else true.

(** What a cycle hands on: the status as it is, the emulator through [g]. *)
Definition keep_status (g : emulator -> emulator) (r : eml_stat * emulator)
    : eml_stat * emulator :=
  (r.1, g r.2).

(** A handler that neither reads nor writes [prev_PC]. *)
Definition prev_PC_blind (h : handler) : Prop :=
  forall p op e, h op (set_prev_PC p e) = res_map (keep_status (set_prev_PC p)) (h op e).

(** [set_prev_PC] on the state of the drawing loops. *)
Definition set_prev_PC_loop (p : Z) (s : emulator * Z) : emulator * Z :=
  (set_prev_PC p s.1, s.2).

(** ** Keys and digits *)

(** The sixteen key codes that [sdlk_to_c8k] names in a [case]. *)
Definition keypad_keys : list SDL_Keycode :=
  [SDLK_1; SDLK_2; SDLK_3; SDLK_4; SDLK_q; SDLK_w; SDLK_e; SDLK_r;
   SDLK_a; SDLK_s; SDLK_d; SDLK_f; SDLK_y; SDLK_x; SDLK_c; SDLK_v].

(** Bit [k] of the keypad bitmap. *)
Definition key_bit (e : emulator) (k : Z) : bool := Z.testbit (keypad e) k.

(** The decimal number that three digits stand for. *)
Definition of_digits (h t u : Z) : Z := 100 * h + 10 * t + u.

(** ** The front end ([src/emulator/main.c]) *)

Definition set_clock_speed (c : Z) (e : emulator) : emulator :=
  mk_emulator (cpu e) (opcode e) (prev_PC e) (keypad e) (last_key e) (brk_point e)
    c (key_waiting e) (dbg_output e) (brk_point_set e) (paused e).
Definition set_paused (b : bool) (e : emulator) : emulator :=
  mk_emulator (cpu e) (opcode e) (prev_PC e) (keypad e) (last_key e) (brk_point e)
    (clock_speed e) (key_waiting e) (dbg_output e) (brk_point_set e) b.

(** [event->window.event], as far as [event_handler] tells the values
    apart. *)
Inductive SDL_WindowEventID : Type :=
  | SDL_WINDOWEVENT_MOVED
  | SDL_WINDOWEVENT_EXPOSED
  | SDL_WINDOWEVENT_RESTORED
  | SDL_WINDOWEVENT_SIZE_CHANGED
  | SDL_WINDOWEVENT_other.

(** [event->key.keysym.sym]: the five key codes that only [event_handler]
    names, and the key codes of [SDL_Keycode] above, the last of which
    stands for every other key. *)
Inductive keysym : Type :=
  | SDLK_ESCAPE
  | SDLK_i
  | SDLK_u
  | SDLK_o
  | SDLK_p
  | SDLK (key : SDL_Keycode).

(** [SDL_Event], by [event->type]. *)
Inductive SDL_Event : Type :=
  | SDL_WINDOWEVENT (id : SDL_WindowEventID)
  | SDL_QUIT
  | SDL_KEYDOWN (sym : keysym)
  | SDL_KEYUP (sym : keysym)
  | SDL_other_event.

(** The calls that leave the program for SDL or the terminal go through
    [update_overlay], [display_redraw] and [emulator_dump]; the front end
    keeps the sequence of these calls, the latest first.  What [fprintf]
    prints is not modelled. *)
Inductive call : Type :=
  | Call_update_overlay
  | Call_display_redraw
  | Call_emulator_dump.

(** The file-scope variables of [main.c] that the program logic reads. *)
Record frontend : Type := mk_frontend {
  eml : emulator;               (* static struct emulator eml *)
  overlay_enabled : bool;       (* static bool overlay_enabled *)
  calls : list call
}.

Definition with_eml (f : emulator -> emulator) (g : frontend) : frontend :=
  mk_frontend (f (eml g)) (overlay_enabled g) (calls g).
Definition set_overlay_enabled (b : bool) (g : frontend) : frontend :=
  mk_frontend (eml g) b (calls g).
Definition called (c : call) (g : frontend) : frontend :=
  mk_frontend (eml g) (overlay_enabled g) (c :: calls g).

Definition update_overlay : frontend -> frontend := called Call_update_overlay.
Definition display_redraw : frontend -> frontend := called Call_display_redraw.

(** What the front end can run into: what the engine can, and the signed
    overflow of [eml.clock_speed += 60], an [int32_t]. *)
Definition INT32_MAX : Z := 2147483647.

Inductive outcome (A : Type) : Type :=
  | Done (a : A)
  | Engine (u : undefined)
  | Overflow (v : Z).
Arguments Done {A} a.
Arguments Engine {A} u.
Arguments Overflow {A} v.

#[global] Instance outcome_ret : MRet outcome := fun A a => Done a.
#[global] Instance outcome_bind : MBind outcome := fun A B f m =>
  match m with
  | Done a => f a
  | Engine u => Engine u
  | Overflow v => Overflow v
  end.

Definition of_res {A : Type} (r : res A) : outcome A :=
  match r with
  | Ret a => Done a
  | Undef u => Engine u
  end.

(** [event_filter]: 1 for the events that are queued, 0 for the others. *)
Definition event_filter (event : SDL_Event) : Z :=
  match event with
  | SDL_WINDOWEVENT _ | SDL_QUIT | SDL_KEYDOWN _ | SDL_KEYUP _ => 1
  | SDL_other_event => 0
  end.

(** [event_handler]: the value returned (true when the program should
    terminate) and the front end after the event. *)
Definition event_handler (event : SDL_Event) (g : frontend)
    : outcome (bool * frontend) :=
  match event with
  | SDL_WINDOWEVENT id =>
      match id with
      | SDL_WINDOWEVENT_MOVED | SDL_WINDOWEVENT_EXPOSED
      | SDL_WINDOWEVENT_RESTORED | SDL_WINDOWEVENT_SIZE_CHANGED =>
          Done (false, display_redraw g)
      | SDL_WINDOWEVENT_other => Done (false, g)
      end
  | SDL_QUIT => Done (true, g)
  | SDL_KEYDOWN sym =>
      match sym with
      | SDLK_ESCAPE => Done (true, g)
      | SDLK SDLK_other => Done (false, g)
      | SDLK key => Done (false, with_eml (keypad_pressed key) g)
      | _ => Done (false, g)
      end
  | SDL_KEYUP sym =>
      match sym with
      | SDLK SDLK_other => Done (false, g)
      | SDLK key => Done (false, with_eml (keypad_released key) g)
      | SDLK_i =>
          if clock_speed (eml g) + 60 >? INT32_MAX
          then Overflow (clock_speed (eml g) + 60)
          else
            let g1 := with_eml (set_clock_speed (clock_speed (eml g) + 60)) g in
            Done (false, display_redraw (update_overlay g1))
      | SDLK_u =>
          let g1 :=
            if clock_speed (eml g) >? 60
            then with_eml (set_clock_speed (clock_speed (eml g) - 60)) g
            else g in
          Done (false, display_redraw (update_overlay g1))
      | SDLK_o =>
          let g1 := set_overlay_enabled (negb (overlay_enabled g)) g in
          Done (false, display_redraw g1)
      | SDLK_p =>
          let g1 := with_eml (set_paused (negb (paused (eml g)))) g in
          let g2 :=
            if paused (eml g1) then set_overlay_enabled true g1
            else set_overlay_enabled false g1 in
          Done (false, display_redraw (update_overlay g2))
      | SDLK_ESCAPE => Done (false, g)
      end
  | SDL_other_event => Done (false, g)
  end.

(** The locals of the main loop together with the front end. *)
Record main_loop : Type := mk_main_loop {
  terminate : bool;
  redraw : bool;
  fault : bool;
  front : frontend
}.

(** [while (SDL_PollEvent(&event)) terminate = event_handler(&event);] over
    the events that are queued at that moment, the oldest first. *)
Fixpoint poll_events (events : list SDL_Event) (s : bool * frontend)
    : outcome (bool * frontend) :=
  match events with
  | [] => Done s
  | event :: rest => r ← event_handler event s.2; poll_events rest r
  end.

(** The [switch] on the status of the cycle. *)
Definition cycle_status (st : eml_stat) (s : main_loop) : main_loop :=
  match st with
  | EML_REDRAW => mk_main_loop (terminate s) true (fault s) (front s)
  | EML_UNK_OPC | EML_STACK_OVERFL | EML_STACK_UNDERFL =>
      mk_main_loop true (redraw s) true (front s)
  | EML_BRK_REACHED =>
      mk_main_loop true (redraw s) true (called Call_emulator_dump (front s))
  | EML_OK | EML_PC_OVERFL => s
  end.

(** [for (int i = 0; i < cycle_n && !fault; i++)], [cnt] rounds to go.
    [polls] holds, round after round, the events queued when the round
    polls; [rnds] what [rand()] would return in the round. *)
Fixpoint cycles (cnt : nat) (polls : list (list SDL_Event)) (rnds : list Z)
    (s : main_loop) : outcome main_loop :=
  match cnt with
  | O => Done s
  | S c =>
      if fault s then Done s
      else
        r ← poll_events (hd [] polls) (terminate s, front s);
        let s1 := mk_main_loop r.1 (redraw s) (fault s) r.2 in
        if paused (eml (front s1)) then Done s1
        else
          x ← of_res (emulator_cycle (hd 0 rnds) (eml (front s1)));
          let s2 :=
            mk_main_loop (terminate s1) (redraw s1) (fault s1)
              (with_eml (fun _ => x.2) (front s1)) in
          cycles c (tl polls) (tl rnds) (cycle_status x.1 s2)
  end.

(** One round of [while (!terminate)] in [main]: the value of [terminate]
    and the front end at the end of the round.  The clock and the sleep are
    not modelled. *)
Definition main_loop_round (polls : list (list SDL_Event)) (rnds : list Z)
    (g : frontend) : outcome (bool * frontend) :=
  let cycle_n := Z.quot (clock_speed (eml g)) 60 in
  s ← cycles (Z.to_nat cycle_n) polls rnds (mk_main_loop false false false g);
  let g1 := if redraw s then display_redraw (front s) else front s in
  Done (terminate s, with_eml emulator_timer_dec g1).

(** The events on which [event_handler] returns true. *)
Definition asks_to_quit (event : SDL_Event) : bool :=
  match event with
  | SDL_QUIT | SDL_KEYDOWN SDLK_ESCAPE => true
  | _ => false
  end.

(** ** Statements about opcodes and failing accesses *)

(** An opcode is put together from its fields. *)
Definition fields_ok (op : Z) : bool :=
  (op =? 4096 * Z.shiftr (Z.land op 0xF000) 12 + 256 * op_x op
         + 16 * op_y op + Z.land op 0xF)
  && (op_nnn op =? 256 * op_x op + 16 * op_y op + Z.land op 0xF)
  && (op_kk op =? 16 * op_y op + Z.land op 0xF).

(** An access to memory[] that fails, at most [far] bytes above I. *)
Definition escapes (e : emulator) (u : undefined) (far : Z) : Prop :=
  exists a, (u = OutOfBoundsRead a \/ u = OutOfBoundsWrite a) /\
    I (cpu e) <= a <= I (cpu e) + far /\ ~ (0 <= a < MEM_SIZE).

(** What a handler that does not return has run into. *)
Definition handler_escape (op : Z) (e : emulator) (u : undefined) : Prop :=
  escapes e u 15 \/ (u = ShiftCount (Vr e (op_x op)) /\ 31 <= Vr e (op_x op)).

(** ** Results of the single-file engine read in the other *)

(** The status translated, the emulator as it is. *)
Definition read_status (r : Flat.eml_stat * emulator) : eml_stat * emulator :=
  (flat_status r.1, r.2).

(** The status translated, and [prev_PC] put back to the address [p] of the
    instruction ([chip8_cycle] records the address after it). *)
Definition read_result (p : Z) (r : Flat.eml_stat * emulator)
    : eml_stat * emulator :=
  (flat_status r.1, set_prev_PC p r.2).

(** What [_bF] does after the loops of Fx55 and Fx65: I is set, the status
    is [EML_OK]. *)
Definition move_I (i : Z) (r : eml_stat * emulator) : Flat.eml_stat * emulator :=
  (Flat.EML_OK, upd (set_I i) r.2).

(** ** Statements about the front end *)

(** What an input event has no business with: the machine state, what the
    cycle recorded and the breakpoint. *)
Definition untouched (e e' : emulator) : Prop :=
  cpu e' = cpu e /\ opcode e' = opcode e /\ prev_PC e' = prev_PC e /\
  brk_point e' = brk_point e /\ brk_point_set e' = brk_point_set e.

(** A clock speed that is a positive multiple of the 60 Hz of the main
    loop. *)
Definition whole_cycles (c : Z) : Prop := 60 <= c /\ c mod 60 = 0.

(** The statuses on which the main loop gives up. *)
Definition gives_up (st : eml_stat) : bool :=
  match st with
  | EML_UNK_OPC | EML_STACK_OVERFL | EML_STACK_UNDERFL | EML_BRK_REACHED => true
  | EML_OK | EML_REDRAW | EML_PC_OVERFL => false
  end.

(** ** Nested subroutine calls *)

(** CALLs in a row: each pair holds the address the PC is at when the CALL
    executes (the return address) and the opcode of the CALL.  [None] when
    one of them does not succeed. *)
Fixpoint nested_calls (cs : list (Z * Z)) (e : emulator) : option emulator :=
  match cs with
  | [] => Some e
  | c :: cs' =>
      match instr_CALL_nnn c.2 (upd (set_PC c.1) e) with
      | Ret (EML_OK, e') => nested_calls cs' e'
      | _ => None
      end
  end.

(** RETs in a row: the PC after each of them, in order. *)
Fixpoint nested_returns (n : nat) (e : emulator) : option (list Z * emulator) :=
  match n with
  | O => Some ([], e)
  | S k =>
      match instr_RET 0 e with
      | Ret (EML_OK, e') =>
          match nested_returns k e' with
          | Some r => Some (PC (cpu e') :: r.1, r.2)
          | None => None
          end
      | _ => None
      end
  end.

(** ** Cycles in a row *)

(** One call of [emulator_cycle] for each element of [rnds], which is what
    [rand()] would return in that cycle; the statuses in order. *)
Fixpoint run_rands (rnds : list Z) (e : emulator)
    : res (list eml_stat * emulator) :=
  match rnds with
  | [] => Ret ([], e)
  | rnd :: rest =>
      r ← emulator_cycle rnd e;
      r' ← run_rands rest r.2;
      Ret (r.1 :: r'.1, r'.2)
  end.

(** * Properties *)

(** ** Arrays and integer conversions *)

Lemma length_set (l : list Z) i v : length (set l i v) = length l.
Proof. unfold set. apply length_insert. Qed.

Lemma get_set_eq (l : list Z) i v :
  0 <= i < Z.of_nat (length l) -> get (set l i v) i = v.
Proof.
  intros Hi. unfold get, set.
  rewrite list_lookup_insert_eq; [reflexivity | lia].
Qed.

Lemma get_set_ne (l : list Z) i j v :
  0 <= i -> 0 <= j -> i <> j -> get (set l i v) j = get l j.
Proof.
  intros Hi Hj Hne. unfold get, set.
  rewrite list_lookup_insert_ne; [reflexivity | lia].
Qed.

Lemma list_eq_get (l1 l2 : list Z) :
  length l1 = length l2 ->
  (forall i, 0 <= i < Z.of_nat (length l1) -> get l1 i = get l2 i) ->
  l1 = l2.
Proof.
  intros Hlen Hget. apply list_eq. intros k.
  destruct (decide (k < length l1)%nat) as [Hk | Hk].
  - specialize (Hget (Z.of_nat k)). unfold get in Hget.
    rewrite Nat2Z.id in Hget.
    destruct (lookup_lt_is_Some_2 l1 k Hk) as [a Ha].
    destruct (lookup_lt_is_Some_2 l2 k ltac:(lia)) as [b Hb].
    rewrite Ha, Hb in *. simpl in Hget. f_equal. apply Hget. lia.
  - rewrite !lookup_ge_None_2; [reflexivity | lia | lia].
Qed.

Lemma land_15_range (z : Z) : 0 <= Z.land z 15 < 16.
Proof.
  change 15 with (Z.ones 4). rewrite Z.land_ones by lia.
  apply Z.mod_pos_bound. reflexivity.
Qed.

Lemma op_x_range (op : Z) : 0 <= op_x op < 16.
Proof. apply land_15_range. Qed.

Lemma op_y_range (op : Z) : 0 <= op_y op < 16.
Proof. apply land_15_range. Qed.

Lemma u8_small (z : Z) : 0 <= z < 256 -> u8 z = z.
Proof. intros H. unfold u8. apply Z.mod_small. exact H. Qed.

Lemma u16_small (z : Z) : 0 <= z < 65536 -> u16 z = z.
Proof. intros H. unfold u16. apply Z.mod_small. exact H. Qed.

(** Registers after an assignment to one of them. *)
Lemma Vr_set_eq e i v :
  0 <= i < Z.of_nat (length (V (cpu e))) -> Vr (set_Vr i v e) i = v.
Proof. intros H. unfold Vr, set_Vr. simpl. apply get_set_eq. exact H. Qed.

Lemma Vr_set_ne e i j v :
  0 <= i -> 0 <= j -> i <> j -> Vr (set_Vr i v e) j = Vr e j.
Proof. intros. unfold Vr, set_Vr. simpl. apply get_set_ne; assumption. Qed.

Lemma length_V_set_Vr e i v :
  length (V (cpu (set_Vr i v e))) = length (V (cpu e)).
Proof. unfold set_Vr. simpl. apply length_set. Qed.

(** ** Decoding: which handler an opcode reaches *)

Lemma dispatch_0x8 rnd op e :
  Z.shiftr (Z.land op 0xF000) 12 = 8 -> dispatch rnd op e = case_0x8 op e.
Proof. intros H. unfold dispatch. rewrite H. reflexivity. Qed.

Lemma dispatch_8xy4 rnd op e :
  Z.shiftr (Z.land op 0xF000) 12 = 8 -> Z.land op 0xF = 4 ->
  dispatch rnd op e = instr_ADD_Vx_Vy op e.
Proof.
  intros H8 H4. rewrite dispatch_0x8 by exact H8.
  unfold case_0x8. rewrite H4. reflexivity.
Qed.

Lemma dispatch_8xy5 rnd op e :
  Z.shiftr (Z.land op 0xF000) 12 = 8 -> Z.land op 0xF = 5 ->
  dispatch rnd op e = instr_SUB_Vx_Vy op e.
Proof.
  intros H8 H5. rewrite dispatch_0x8 by exact H8.
  unfold case_0x8. rewrite H5. reflexivity.
Qed.

Lemma dispatch_8xy6 rnd op e :
  Z.shiftr (Z.land op 0xF000) 12 = 8 -> Z.land op 0xF = 6 ->
  dispatch rnd op e = instr_SHR_Vx__Vy op e.
Proof.
  intros H8 H6. rewrite dispatch_0x8 by exact H8.
  unfold case_0x8. rewrite H6. reflexivity.
Qed.

Lemma dispatch_8xy7 rnd op e :
  Z.shiftr (Z.land op 0xF000) 12 = 8 -> Z.land op 0xF = 7 ->
  dispatch rnd op e = instr_SUBN_Vx_Vy op e.
Proof.
  intros H8 H7. rewrite dispatch_0x8 by exact H8.
  unfold case_0x8. rewrite H7. reflexivity.
Qed.

Lemma dispatch_8xyE rnd op e :
  Z.shiftr (Z.land op 0xF000) 12 = 8 -> Z.land op 0xF = 0xE ->
  dispatch rnd op e = instr_SHL_Vx_Vy op e.
Proof.
  intros H8 HE. rewrite dispatch_0x8 by exact H8.
  unfold case_0x8. rewrite HE. reflexivity.
Qed.

(** ** The flag-setting ALU instructions *)

Lemma land_255_mod (z : Z) : Z.land z 0xFF = z mod 256.
Proof. change 0xFF with (Z.ones 8). rewrite Z.land_ones by lia. reflexivity. Qed.

Lemma gtb_flag_iff (p q : Z) : (if p >? q then 1 else 0) = 1 <-> p > q.
Proof. destruct (Z.gtb_spec p q); split; intros; try lia. Qed.

Lemma in_zseq k cnt i : In k (zseq i cnt) <-> i <= k < i + Z.of_nat cnt.
Proof.
  revert i. induction cnt as [|c IH]; intros i; simpl.
  - lia.
  - rewrite IH. lia.
Qed.

Lemma byte_forall (f : Z -> bool) :
  forallb f (zseq 0 256) = true -> forall a, 0 <= a < 256 -> f a = true.
Proof.
  intros H a Ha. rewrite forallb_forall in H. apply H. apply in_zseq. lia.
Qed.

Lemma shr_bit0 a : Z.shiftr (Z.land a 1) 1 = 0.
Proof.
  change 1 with (Z.ones 1) at 1. rewrite Z.land_ones by lia.
  rewrite Z.shiftr_div_pow2 by lia. apply Z.div_small. apply Z.mod_pos_bound. reflexivity.
Qed.

Lemma high_bit a : 0 <= a < 256 -> Z.shiftr (Z.land a 0x80) 7 = a / 128.
Proof.
  intros Ha. apply Z.eqb_eq.
  apply (byte_forall (fun a => Z.shiftr (Z.land a 0x80) 7 =? a / 128)); [vm_compute; reflexivity | exact Ha].
Qed.

(** C5, as the code has it.  For a destination register other than VF,
    8xy4 leaves the carry in VF (1 when the sum of the two register values
    exceeds 255, else 0) and the sum modulo 256 in Vx; when moreover the
    second operand register is not VF, 8xy5 leaves 1 in VF exactly when
    Vx > Vy (else 0) and the difference modulo 256 in Vx. *)
Theorem alu_add_sub_distinct_registers (rnd op : Z) (e : emulator) :
  length (V (cpu e)) = 16%nat ->
  Z.shiftr (Z.land op 0xF000) 12 = 8 ->
  0 <= Vr e (op_x op) < 256 ->
  0 <= Vr e (op_y op) < 256 ->
  op_x op <> 0xF ->
  (Z.land op 0xF = 4 ->
   exists e', dispatch rnd op e = Ret (EML_OK, e') /\
     Vr e' 0xF = (if Vr e (op_x op) + Vr e (op_y op) >? 255 then 1 else 0) /\
     (Vr e' 0xF = 1 <-> Vr e (op_x op) + Vr e (op_y op) > 255) /\
     Vr e' (op_x op) = (Vr e (op_x op) + Vr e (op_y op)) mod 256) /\
  (Z.land op 0xF = 5 -> op_y op <> 0xF ->
   exists e', dispatch rnd op e = Ret (EML_OK, e') /\
     Vr e' 0xF = (if Vr e (op_x op) >? Vr e (op_y op) then 1 else 0) /\
     (Vr e' 0xF = 1 <-> Vr e (op_x op) > Vr e (op_y op)) /\
     Vr e' (op_x op) = (Vr e (op_x op) - Vr e (op_y op)) mod 256).
Proof.
  intros HV H8 Ha Hb Hx.
  pose proof (op_x_range op) as Rx. pose proof (op_y_range op) as Ry.
  split.
  - intros H4. rewrite (dispatch_8xy4 rnd op e H8 H4).
    unfold instr_ADD_Vx_Vy. eexists. split; [reflexivity |].
    rewrite (u16_small (Vr e (op_x op) + Vr e (op_y op))) by lia.
    assert (HF : Vr (set_Vr (op_x op)
                       (Z.land (Vr e (op_x op) + Vr e (op_y op)) 0xFF)
                       (set_Vr 0xF
                          (if Vr e (op_x op) + Vr e (op_y op) >? 0xFF then 1 else 0) e))
                    0xF
                 = (if Vr e (op_x op) + Vr e (op_y op) >? 255 then 1 else 0)).
    { rewrite Vr_set_ne by lia. apply Vr_set_eq. rewrite HV. lia. }
    split; [exact HF |]. split; [rewrite HF; apply gtb_flag_iff |].
    rewrite Vr_set_eq by (rewrite length_V_set_Vr, HV; lia).
    apply land_255_mod.
  - intros H5 Hy. rewrite (dispatch_8xy5 rnd op e H8 H5).
    unfold instr_SUB_Vx_Vy. eexists. split; [reflexivity |].
    rewrite !(Vr_set_ne e 0xF) by lia.
    assert (HF : Vr (set_Vr (op_x op) (u8 (Vr e (op_x op) - Vr e (op_y op)))
                       (set_Vr 0xF
                          (if Vr e (op_x op) >? Vr e (op_y op) then 1 else 0) e))
                    0xF
                 = (if Vr e (op_x op) >? Vr e (op_y op) then 1 else 0)).
    { rewrite Vr_set_ne by lia. apply Vr_set_eq. rewrite HV. lia. }
    split; [exact HF |]. split; [rewrite HF; apply gtb_flag_iff |].
    rewrite Vr_set_eq by (rewrite length_V_set_Vr, HV; lia).
    reflexivity.
Qed.

(** At V0 = 200, V1 = 100, ADD V0, V1 (8014): carry 1, sum 44. *)
Lemma alu_add_sub_witness :
  exists e',
    dispatch 0 0x8014 (with_regs [(0, 200); (1, 100)] emulator_init)
      = Ret (EML_OK, e') /\
    Vr e' 0xF = 1 /\ Vr e' 0 = 44.
Proof.
  destruct (alu_add_sub_distinct_registers 0 0x8014
              (with_regs [(0, 200); (1, 100)] emulator_init))
    as [Hadd _].
  - reflexivity.
  - reflexivity.
  - change (0 <= 200 < 256). lia.
  - change (0 <= 100 < 256). lia.
  - change (0 <> 15). lia.
  - destruct Hadd as (e' & Hrun & HF & _ & Hx); [reflexivity |].
    exists e'. split; [exact Hrun |]. split; [exact HF | exact Hx].
Defined.

(** C5 as stated fails when VF is one of the operand registers.
    [60 0A; 6F 03; 80 F5]: V0 = 10, VF = 3, then SUB V0, VF leaves 9 in V0,
    not (10 - 3) mod 256 = 7, because the subtraction reads VF after the
    flag was stored in it.  [6F C8; 60 64; 8F 04]: VF = 200, V0 = 100, then
    ADD VF, V0 leaves the sum 44 in VF, not the carry 1 of 200 + 100. *)
Lemma alu_flag_register_counterexample :
  res_map (fun r => (r.1, Vr r.2 0, Vr r.2 0xF))
      (run 0 2 (boot [0x60; 0x0A; 0x6F; 0x03; 0x80; 0xF5]))
    = Ret ([EML_OK; EML_OK], 10, 3) /\
  res_map (fun r => (r.1, opcode r.2, Vr r.2 0, Vr r.2 0xF))
      (run 0 3 (boot [0x60; 0x0A; 0x6F; 0x03; 0x80; 0xF5]))
    = Ret ([EML_OK; EML_OK; EML_OK], 0x80F5, 9, 1) /\
  (10 - 3) mod 256 = 7 /\
  res_map (fun r => (r.1, Vr r.2 0xF, Vr r.2 0))
      (run 0 2 (boot [0x6F; 0xC8; 0x60; 0x64; 0x8F; 0x04]))
    = Ret ([EML_OK; EML_OK], 200, 100) /\
  res_map (fun r => (r.1, opcode r.2, Vr r.2 0xF))
      (run 0 3 (boot [0x6F; 0xC8; 0x60; 0x64; 0x8F; 0x04]))
    = Ret ([EML_OK; EML_OK; EML_OK], 0x8F04, 44) /\
  (200 + 100 >? 255) = true.
Proof. vm_compute. repeat split. Qed.

(** VF as the destination (x = 0xF), for every machine.  The flag is stored
    in VF first and the result second, and only 8xy4 computes its result
    before the flag is stored.  So VF ends as the sum modulo 256 after 8xy4;
    after 8xy5, 8xy7, 8xy6 and 8xyE the result is computed from the flag
    just stored: flag - Vy and Vy - flag modulo 256 (0 when y is 0xF as
    well), 0, and twice the former high bit. *)
Lemma alu_flag_register_destination (rnd op : Z) (e : emulator) :
  length (V (cpu e)) = 16%nat ->
  Z.shiftr (Z.land op 0xF000) 12 = 8 ->
  0 <= Vr e 0xF < 256 ->
  0 <= Vr e (op_y op) < 256 ->
  op_x op = 0xF ->
  (Z.land op 0xF = 4 ->
   exists e', dispatch rnd op e = Ret (EML_OK, e') /\
     Vr e' 0xF = (Vr e 0xF + Vr e (op_y op)) mod 256) /\
  (Z.land op 0xF = 5 ->
   exists e', dispatch rnd op e = Ret (EML_OK, e') /\
     Vr e' 0xF =
       if op_y op =? 0xF then 0
       else ((if Vr e 0xF >? Vr e (op_y op) then 1 else 0) - Vr e (op_y op)) mod 256) /\
  (Z.land op 0xF = 7 ->
   exists e', dispatch rnd op e = Ret (EML_OK, e') /\
     Vr e' 0xF =
       if op_y op =? 0xF then 0
       else (Vr e (op_y op) - (if Vr e 0xF <? Vr e (op_y op) then 1 else 0)) mod 256) /\
  (Z.land op 0xF = 6 ->
   exists e', dispatch rnd op e = Ret (EML_OK, e') /\ Vr e' 0xF = 0) /\
  (Z.land op 0xF = 0xE ->
   exists e', dispatch rnd op e = Ret (EML_OK, e') /\
     Vr e' 0xF = 2 * (Vr e 0xF / 128)).
Proof.
  intros HV H8 Ha Hb Hx.
  pose proof (op_y_range op) as Ry.
  assert (HF : forall v e0, length (V (cpu e0)) = 16%nat -> Vr (set_Vr 0xF v e0) 0xF = v).
  { intros v e0 H0. apply Vr_set_eq. rewrite H0. lia. }
  assert (HV1 : forall v, length (V (cpu (set_Vr 0xF v e))) = 16%nat).
  { intros v. rewrite length_V_set_Vr. exact HV. }
  repeat split.
  - intros H4. rewrite (dispatch_8xy4 rnd op e H8 H4).
    unfold instr_ADD_Vx_Vy. rewrite Hx. eexists. split; [reflexivity |].
    rewrite HF by apply HV1.
    rewrite u16_small by lia. apply land_255_mod.
  - intros H5. rewrite (dispatch_8xy5 rnd op e H8 H5).
    unfold instr_SUB_Vx_Vy. rewrite Hx. eexists. split; [reflexivity |].
    rewrite HF by apply HV1. rewrite (HF _ e HV).
    destruct (Z.eqb_spec (op_y op) 0xF) as [Hy | Hy].
    + rewrite Hy. rewrite (HF _ e HV). unfold u8. rewrite Z.sub_diag. reflexivity.
    + rewrite Vr_set_ne by lia. reflexivity.
  - intros H7. rewrite (dispatch_8xy7 rnd op e H8 H7).
    unfold instr_SUBN_Vx_Vy. rewrite Hx. eexists. split; [reflexivity |].
    rewrite HF by apply HV1. rewrite (HF _ e HV).
    destruct (Z.eqb_spec (op_y op) 0xF) as [Hy | Hy].
    + rewrite Hy. rewrite (HF _ e HV). unfold u8. rewrite Z.sub_diag. reflexivity.
    + rewrite Vr_set_ne by lia. reflexivity.
  - intros H6. rewrite (dispatch_8xy6 rnd op e H8 H6).
    unfold instr_SHR_Vx__Vy. rewrite Hx. eexists. split; [reflexivity |].
    rewrite HF by apply HV1. rewrite (HF _ e HV). apply shr_bit0.
  - intros HE. rewrite (dispatch_8xyE rnd op e H8 HE).
    unfold instr_SHL_Vx_Vy. rewrite Hx. eexists. split; [reflexivity |].
    rewrite HF by apply HV1. rewrite (HF _ e HV).
    rewrite high_bit by exact Ha.
    rewrite Z.shiftl_mul_pow2 by lia. unfold u8.
    assert (0 <= Vr e 0xF / 128 < 2).
    { split; [apply Z.div_pos; lia | apply Z.div_lt_upper_bound; lia]. }
    rewrite Z.mod_small by lia. change (2 ^ 1) with 2. lia.
Qed.

Example alu_flag_register_destination_at_8F15 :
  exists e',
    dispatch 0 0x8F15 (with_regs [(0xF, 10); (1, 3)] emulator_init)
      = Ret (EML_OK, e') /\
    Vr e' 0xF = 254.
Proof.
  destruct (alu_flag_register_destination 0 0x8F15
              (with_regs [(0xF, 10); (1, 3)] emulator_init))
    as (_ & Hsub & _).
  - reflexivity.
  - reflexivity.
  - change (0 <= 10 < 256). lia.
  - change (0 <= 3 < 256). lia.
  - reflexivity.
  - destruct Hsub as (e' & Hrun & HF); [reflexivity |].
    exists e'. split; [exact Hrun | exact HF].
Qed.

(** C10: the code at the failing inputs.  With x = 0xF only 8xy4 leaves
    the arithmetic result in VF.
    [6F 0A; 61 03; 8F 15]: VF = 10, V1 = 3, then SUB VF, V1 leaves 254 in
    VF, which is neither (10 - 3) mod 256 = 7 nor the flag 1: the
    subtraction read VF after the flag had been stored in it.
    [6F 0A; 61 03; 8F 17]: SUBN VF, V1 leaves 3 - 0 = 3, not (3 - 10) mod 256
    = 249.
    [6F 06; 8F 06]: VF = 6, then SHR VF leaves 0, not the shifted value 3.
    [6F 86; 8F 0E]: VF = 0x86, then SHL VF leaves 2, not the shifted value
    0x0C.
    [6F C8; 61 64; 8F 14]: ADD VF, V1 does leave (200 + 100) mod 256 = 44. *)
Theorem flag_destination_reads_stored_flag :
  res_map (fun r => (r.1, Vr r.2 0xF, Vr r.2 1))
      (run 0 2 (boot [0x6F; 0x0A; 0x61; 0x03; 0x8F; 0x15]))
    = Ret ([EML_OK; EML_OK], 10, 3) /\
  res_map (fun r => (r.1, opcode r.2, Vr r.2 0xF))
      (run 0 3 (boot [0x6F; 0x0A; 0x61; 0x03; 0x8F; 0x15]))
    = Ret ([EML_OK; EML_OK; EML_OK], 0x8F15, 254) /\
  (10 - 3) mod 256 = 7 /\
  res_map (fun r => (r.1, opcode r.2, Vr r.2 0xF))
      (run 0 3 (boot [0x6F; 0x0A; 0x61; 0x03; 0x8F; 0x17]))
    = Ret ([EML_OK; EML_OK; EML_OK], 0x8F17, 3) /\
  (3 - 10) mod 256 = 249 /\
  res_map (fun r => (r.1, opcode r.2, Vr r.2 0xF))
      (run 0 2 (boot [0x6F; 0x06; 0x8F; 0x06]))
    = Ret ([EML_OK; EML_OK], 0x8F06, 0) /\
  Z.shiftr 6 1 = 3 /\
  res_map (fun r => (r.1, opcode r.2, Vr r.2 0xF))
      (run 0 2 (boot [0x6F; 0x86; 0x8F; 0x0E]))
    = Ret ([EML_OK; EML_OK], 0x8F0E, 2) /\
  (Z.shiftl 0x86 1) mod 256 = 0x0C /\
  res_map (fun r => (r.1, opcode r.2, Vr r.2 0xF))
      (run 0 3 (boot [0x6F; 0xC8; 0x61; 0x64; 0x8F; 0x14]))
    = Ret ([EML_OK; EML_OK; EML_OK], 0x8F14, 44) /\
  (200 + 100) mod 256 = 44.
Proof. vm_compute. repeat split. Qed.

(** ** Loops and outcomes *)

Lemma bind_Ret_inv {A B : Type} (m : res A) (k : A -> res B) (b : B) :
  (x ← m; k x) = Ret b -> exists a, m = Ret a /\ k a = Ret b.
Proof.
  destruct m as [a | u]; simpl; intros H.
  - exists a. split; [reflexivity | exact H].
  - discriminate H.
Qed.

Lemma for_loop_inv {T : Type} (P : T -> Prop) (body : Z -> T -> res T) :
  (forall k s s', P s -> body k s = Ret s' -> P s') ->
  forall cnt i s s', P s -> for_loop cnt i body s = Ret s' -> P s'.
Proof.
  intros Hbody cnt. induction cnt as [|c IH]; intros i s s' Hs Hrun; simpl in Hrun.
  - injection Hrun as <-. exact Hs.
  - apply bind_Ret_inv in Hrun. destruct Hrun as (s1 & H1 & H2).
    apply (IH (i + 1) s1 s'); [| exact H2].
    apply (Hbody i s s1); assumption.
Qed.

Lemma frame_refl e : frame e e.
Proof. repeat split. Qed.

Lemma frame_trans e1 e2 e3 : frame e1 e2 -> frame e2 e3 -> frame e1 e3.
Proof.
  unfold frame. intros (A1 & A2 & A3 & A4) (B1 & B2 & B3 & B4).
  repeat split; congruence.
Qed.

Lemma mem_write_frame a v e e' : mem_write a v e = Ret e' -> frame e e'.
Proof.
  unfold mem_write. destruct (_ && _); intros H; [| discriminate H].
  injection H as <-. repeat split.
Qed.

Lemma draw_pixel_frame e x y i j s s' :
  frame e s.1 -> draw_pixel x y i j s = Ret s' -> frame e s'.1.
Proof.
  intros Hs H. unfold draw_pixel in H.
  apply bind_Ret_inv in H. destruct H as (b & _ & H).
  injection H as <-. simpl. exact Hs.
Qed.

(** Handlers made of plain assignments. *)
Ltac plain_handler :=
  let H := fresh "H" in
  intros ? ? ? ? H; cbv beta delta [skip_if] in H;
  repeat match type of H with
         | context [if ?c then _ else _] => destruct c
         end;
  injection H as <- <-;
  (split; [left; auto | repeat split]).

Lemma benign_CLS : benign instr_CLS.
Proof. unfold instr_CLS. plain_handler. Qed.

Lemma benign_RET : benign instr_RET.
Proof.
  intros op e st e' H. unfold instr_RET in H.
  destruct (SP (cpu e) =? 0); injection H as <- <-.
  - split; [right; auto | apply frame_refl].
  - split; [left; auto | repeat split].
Qed.

Lemma benign_CALL_nnn : benign instr_CALL_nnn.
Proof.
  intros op e st e' H. unfold instr_CALL_nnn in H.
  destruct (SP (cpu e) =? STACK_SIZE); injection H as <- <-.
  - split; [right; auto | apply frame_refl].
  - split; [left; auto | repeat split].
Qed.

Lemma benign_JP_nnn : benign instr_JP_nnn.
Proof. unfold instr_JP_nnn. plain_handler. Qed.
Lemma benign_SE_Vx_kk : benign instr_SE_Vx_kk.
Proof. unfold instr_SE_Vx_kk. plain_handler. Qed.
Lemma benign_SNE_Vx_kk : benign instr_SNE_Vx_kk.
Proof. unfold instr_SNE_Vx_kk. plain_handler. Qed.
Lemma benign_SE_Vx_Vy : benign instr_SE_Vx_Vy.
Proof. unfold instr_SE_Vx_Vy. plain_handler. Qed.
Lemma benign_LD_Vx_kk : benign instr_LD_Vx_kk.
Proof. unfold instr_LD_Vx_kk. plain_handler. Qed.
Lemma benign_ADD_Vx_kk : benign instr_ADD_Vx_kk.
Proof. unfold instr_ADD_Vx_kk. plain_handler. Qed.
Lemma benign_LD_Vx_Vy : benign instr_LD_Vx_Vy.
Proof. unfold instr_LD_Vx_Vy. plain_handler. Qed.
Lemma benign_OR_Vx_Vy : benign instr_OR_Vx_Vy.
Proof. unfold instr_OR_Vx_Vy. plain_handler. Qed.
Lemma benign_AND_Vx_Vy : benign instr_AND_Vx_Vy.
Proof. unfold instr_AND_Vx_Vy. plain_handler. Qed.
Lemma benign_XOR_Vx_Vy : benign instr_XOR_Vx_Vy.
Proof. unfold instr_XOR_Vx_Vy. plain_handler. Qed.
Lemma benign_ADD_Vx_Vy : benign instr_ADD_Vx_Vy.
Proof. unfold instr_ADD_Vx_Vy. plain_handler. Qed.
Lemma benign_SUB_Vx_Vy : benign instr_SUB_Vx_Vy.
Proof. unfold instr_SUB_Vx_Vy. plain_handler. Qed.
Lemma benign_SHR_Vx__Vy : benign instr_SHR_Vx__Vy.
Proof. unfold instr_SHR_Vx__Vy. plain_handler. Qed.
Lemma benign_SUBN_Vx_Vy : benign instr_SUBN_Vx_Vy.
Proof. unfold instr_SUBN_Vx_Vy. plain_handler. Qed.
Lemma benign_SHL_Vx_Vy : benign instr_SHL_Vx_Vy.
Proof. unfold instr_SHL_Vx_Vy. plain_handler. Qed.
Lemma benign_SNE_Vx_Vy : benign instr_SNE_Vx_Vy.
Proof. unfold instr_SNE_Vx_Vy. plain_handler. Qed.
Lemma benign_LD_I_nnn : benign instr_LD_I_nnn.
Proof. unfold instr_LD_I_nnn. plain_handler. Qed.
Lemma benign_JP_V0_nnn : benign instr_JP_V0_nnn.
Proof. unfold instr_JP_V0_nnn. plain_handler. Qed.
Lemma benign_RND_Vx_kk rnd : benign (instr_RND_Vx_kk rnd).
Proof. unfold instr_RND_Vx_kk. plain_handler. Qed.
Lemma benign_LD_Vx_DT : benign instr_LD_Vx_DT.
Proof. unfold instr_LD_Vx_DT. plain_handler. Qed.
Lemma benign_LD_Vx_K : benign instr_LD_Vx_K.
Proof. unfold instr_LD_Vx_K. plain_handler. Qed.
Lemma benign_LD_DT_Vx : benign instr_LD_DT_Vx.
Proof. unfold instr_LD_DT_Vx. plain_handler. Qed.
Lemma benign_LD_ST_Vx : benign instr_LD_ST_Vx.
Proof. unfold instr_LD_ST_Vx. plain_handler. Qed.
Lemma benign_ADD_I_Vx : benign instr_ADD_I_Vx.
Proof. unfold instr_ADD_I_Vx. plain_handler. Qed.
Lemma benign_LD_F_Vx : benign instr_LD_F_Vx.
Proof. unfold instr_LD_F_Vx. plain_handler. Qed.

Lemma benign_DRW_Vx_Vy_n : benign instr_DRW_Vx_Vy_n.
Proof.
  intros op e st e' H. unfold instr_DRW_Vx_Vy_n in H.
  apply bind_Ret_inv in H. destruct H as (s & Hloop & H).
  injection H as <- <-. split; [left; auto |].
  assert (Hs : frame e s.1).
  { apply (for_loop_inv (fun s => frame e s.1)) in Hloop;
      [exact Hloop | | apply frame_refl].
    intros i s0 s1 Hs0 Hrow.
    apply (for_loop_inv (fun s => frame e s.1)) in Hrow; [exact Hrow | | exact Hs0].
    intros j s2 s3 Hs2 Hpix. exact (draw_pixel_frame e _ _ _ _ _ _ Hs2 Hpix). }
  destruct Hs as (A1 & A2 & A3 & A4). repeat split; assumption.
Qed.

Lemma benign_SKP_Vx : benign instr_SKP_Vx.
Proof.
  intros op e st e' H. unfold instr_SKP_Vx in H.
  apply bind_Ret_inv in H. destruct H as (p & _ & H).
  injection H as <- <-. split; [left; auto |].
  destruct p; repeat split.
Qed.

Lemma benign_SKNP_Vx : benign instr_SKNP_Vx.
Proof.
  intros op e st e' H. unfold instr_SKNP_Vx in H.
  apply bind_Ret_inv in H. destruct H as (p & _ & H).
  injection H as <- <-. split; [left; auto |].
  destruct p; repeat split.
Qed.

Lemma benign_LD_B_Vx : benign instr_LD_B_Vx.
Proof.
  intros op e st e' H. unfold instr_LD_B_Vx in H.
  apply bind_Ret_inv in H. destruct H as (e1 & H1 & H).
  apply bind_Ret_inv in H. destruct H as (e2 & H2 & H).
  apply bind_Ret_inv in H. destruct H as (e3 & H3 & H).
  injection H as <- <-. split; [left; auto |].
  apply mem_write_frame in H1, H2, H3.
  exact (frame_trans _ _ _ (frame_trans _ _ _ H1 H2) H3).
Qed.

Lemma benign_LD_I_Vx_multi : benign instr_LD_I_Vx_multi.
Proof.
  intros op e st e' H. unfold instr_LD_I_Vx_multi in H.
  apply bind_Ret_inv in H. destruct H as (e1 & Hloop & H).
  injection H as <- <-. split; [left; auto |].
  apply (for_loop_inv (frame e)) in Hloop; [exact Hloop | | apply frame_refl].
  intros i s s' Hs Hw. apply mem_write_frame in Hw.
  exact (frame_trans _ _ _ Hs Hw).
Qed.

Lemma benign_LD_Vx_I_multi : benign instr_LD_Vx_I_multi.
Proof.
  intros op e st e' H. unfold instr_LD_Vx_I_multi in H.
  apply bind_Ret_inv in H. destruct H as (e1 & Hloop & H).
  injection H as <- <-. split; [left; auto |].
  apply (for_loop_inv (frame e)) in Hloop; [exact Hloop | | apply frame_refl].
  intros i s s' Hs Hr.
  apply bind_Ret_inv in Hr. destruct Hr as (b & _ & Hr).
  injection Hr as <-. exact Hs.
Qed.

Lemma benign_unknown : benign (fun _ e => Ret (EML_UNK_OPC, e)).
Proof.
  intros op e st e' H. injection H as <- <-.
  split; [right; auto | apply frame_refl].
Qed.

Create HintDb benign.
#[local] Hint Resolve benign_CLS benign_RET benign_CALL_nnn benign_JP_nnn
  benign_SE_Vx_kk benign_SNE_Vx_kk benign_SE_Vx_Vy benign_LD_Vx_kk
  benign_ADD_Vx_kk benign_LD_Vx_Vy benign_OR_Vx_Vy benign_AND_Vx_Vy
  benign_XOR_Vx_Vy benign_ADD_Vx_Vy benign_SUB_Vx_Vy benign_SHR_Vx__Vy
  benign_SUBN_Vx_Vy benign_SHL_Vx_Vy benign_SNE_Vx_Vy benign_LD_I_nnn
  benign_JP_V0_nnn benign_RND_Vx_kk benign_DRW_Vx_Vy_n benign_SKP_Vx
  benign_SKNP_Vx benign_LD_Vx_DT benign_LD_Vx_K benign_LD_DT_Vx
  benign_LD_ST_Vx benign_ADD_I_Vx benign_LD_F_Vx benign_LD_B_Vx
  benign_LD_I_Vx_multi benign_LD_Vx_I_multi benign_unknown : benign.

Lemma benign_apply (h : handler) op e st e' :
  benign h -> h op e = Ret (st, e') ->
  ((st = EML_OK \/ st = EML_REDRAW) \/ (is_fault st = true /\ e' = e)) /\
  frame e e'.
Proof. intros B. apply B. Qed.

(** Case analysis along a chain of [if _ =? _ then h1 else ...], each
    branch closed by the handler's own lemma. *)
Ltac switch_cases H :=
  repeat match type of H with
         | context [if ?c then _ else _] => destruct c
         end;
  first [ exact (benign_unknown 0 _ _ _ H)
        | eapply benign_apply; [| exact H]; auto with benign ].

Lemma benign_case_0xF : benign case_0xF.
Proof.
  intros op e st e' H. unfold case_0xF in H. cbv zeta in H. switch_cases H.
Qed.

Lemma benign_case_0xE : benign case_0xE.
Proof.
  intros op e st e' H. unfold case_0xE in H. cbv zeta in H.
  pose proof benign_case_0xF. switch_cases H.
Qed.

Lemma benign_case_0x8 : benign case_0x8.
Proof.
  intros op e st e' H. unfold case_0x8, case_0x9 in H. cbv zeta in H.
  switch_cases H.
Qed.

Lemma benign_case_0x0 : benign case_0x0.
Proof.
  intros op e st e' H. unfold case_0x0, case_0x1 in H. cbv zeta in H.
  switch_cases H.
Qed.

Lemma benign_dispatch rnd : benign (dispatch rnd).
Proof.
  intros op e st e' H. unfold dispatch, case_0x1, case_0x9 in H. cbv zeta in H.
  pose proof benign_case_0x0. pose proof benign_case_0x8.
  pose proof benign_case_0xE. pose proof benign_case_0xF.
  switch_cases H.
Qed.


(** ** Handlers do not look at the breakpoint *)

Lemma for_loop_commute {T : Type} (g : T -> T) (body : Z -> T -> res T) :
  (forall i s, body i (g s) = res_map g (body i s)) ->
  forall cnt i s, for_loop cnt i body (g s) = res_map g (for_loop cnt i body s).
Proof.
  intros Hbody cnt. induction cnt as [|c IH]; intros i s; simpl.
  - reflexivity.
  - rewrite Hbody. destruct (body i s) as [s1 | u]; simpl.
    + apply IH.
    + reflexivity.
Qed.

Ltac blind_handler :=
  intros ? ? ? ?;
  cbv beta delta [skip_if res_map keep_status_set_breakpoint Vr set_Vr upd];
  cbn [cpu set_breakpoint set_cpu last_key keypad fst snd];
  repeat match goal with
         | |- context [if ?c then _ else _] => destruct c
         end;
  reflexivity.

Lemma blind_CLS : breakpoint_blind instr_CLS.
Proof. unfold instr_CLS. blind_handler. Qed.
Lemma blind_RET : breakpoint_blind instr_RET.
Proof. unfold instr_RET. blind_handler. Qed.
Lemma blind_JP_nnn : breakpoint_blind instr_JP_nnn.
Proof. unfold instr_JP_nnn. blind_handler. Qed.
Lemma blind_CALL_nnn : breakpoint_blind instr_CALL_nnn.
Proof. unfold instr_CALL_nnn. blind_handler. Qed.
Lemma blind_SE_Vx_kk : breakpoint_blind instr_SE_Vx_kk.
Proof. unfold instr_SE_Vx_kk. blind_handler. Qed.
Lemma blind_SNE_Vx_kk : breakpoint_blind instr_SNE_Vx_kk.
Proof. unfold instr_SNE_Vx_kk. blind_handler. Qed.
Lemma blind_SE_Vx_Vy : breakpoint_blind instr_SE_Vx_Vy.
Proof. unfold instr_SE_Vx_Vy. blind_handler. Qed.
Lemma blind_LD_Vx_kk : breakpoint_blind instr_LD_Vx_kk.
Proof. unfold instr_LD_Vx_kk. blind_handler. Qed.
Lemma blind_ADD_Vx_kk : breakpoint_blind instr_ADD_Vx_kk.
Proof. unfold instr_ADD_Vx_kk. blind_handler. Qed.
Lemma blind_LD_Vx_Vy : breakpoint_blind instr_LD_Vx_Vy.
Proof. unfold instr_LD_Vx_Vy. blind_handler. Qed.
Lemma blind_OR_Vx_Vy : breakpoint_blind instr_OR_Vx_Vy.
Proof. unfold instr_OR_Vx_Vy. blind_handler. Qed.
Lemma blind_AND_Vx_Vy : breakpoint_blind instr_AND_Vx_Vy.
Proof. unfold instr_AND_Vx_Vy. blind_handler. Qed.
Lemma blind_XOR_Vx_Vy : breakpoint_blind instr_XOR_Vx_Vy.
Proof. unfold instr_XOR_Vx_Vy. blind_handler. Qed.
Lemma blind_ADD_Vx_Vy : breakpoint_blind instr_ADD_Vx_Vy.
Proof. unfold instr_ADD_Vx_Vy. blind_handler. Qed.
Lemma blind_SUB_Vx_Vy : breakpoint_blind instr_SUB_Vx_Vy.
Proof. unfold instr_SUB_Vx_Vy. blind_handler. Qed.
Lemma blind_SHR_Vx__Vy : breakpoint_blind instr_SHR_Vx__Vy.
Proof. unfold instr_SHR_Vx__Vy. blind_handler. Qed.
Lemma blind_SUBN_Vx_Vy : breakpoint_blind instr_SUBN_Vx_Vy.
Proof. unfold instr_SUBN_Vx_Vy. blind_handler. Qed.
Lemma blind_SHL_Vx_Vy : breakpoint_blind instr_SHL_Vx_Vy.
Proof. unfold instr_SHL_Vx_Vy. blind_handler. Qed.
Lemma blind_SNE_Vx_Vy : breakpoint_blind instr_SNE_Vx_Vy.
Proof. unfold instr_SNE_Vx_Vy. blind_handler. Qed.
Lemma blind_LD_I_nnn : breakpoint_blind instr_LD_I_nnn.
Proof. unfold instr_LD_I_nnn. blind_handler. Qed.
Lemma blind_JP_V0_nnn : breakpoint_blind instr_JP_V0_nnn.
Proof. unfold instr_JP_V0_nnn. blind_handler. Qed.
Lemma blind_RND_Vx_kk rnd : breakpoint_blind (instr_RND_Vx_kk rnd).
Proof. unfold instr_RND_Vx_kk. blind_handler. Qed.
Lemma blind_LD_Vx_DT : breakpoint_blind instr_LD_Vx_DT.
Proof. unfold instr_LD_Vx_DT. blind_handler. Qed.
Lemma blind_LD_Vx_K : breakpoint_blind instr_LD_Vx_K.
Proof. unfold instr_LD_Vx_K. blind_handler. Qed.
Lemma blind_LD_DT_Vx : breakpoint_blind instr_LD_DT_Vx.
Proof. unfold instr_LD_DT_Vx. blind_handler. Qed.
Lemma blind_LD_ST_Vx : breakpoint_blind instr_LD_ST_Vx.
Proof. unfold instr_LD_ST_Vx. blind_handler. Qed.
Lemma blind_ADD_I_Vx : breakpoint_blind instr_ADD_I_Vx.
Proof. unfold instr_ADD_I_Vx. blind_handler. Qed.
Lemma blind_LD_F_Vx : breakpoint_blind instr_LD_F_Vx.
Proof. unfold instr_LD_F_Vx. blind_handler. Qed.

Lemma blind_SKP_Vx : breakpoint_blind instr_SKP_Vx.
Proof.
  unfold instr_SKP_Vx, keypad_is_pressed. intros on a op e.
  change (Vr (set_breakpoint on a e)) with (Vr e).
  change (keypad (set_breakpoint on a e)) with (keypad e).
  destruct (Vr e (op_x op) <? 31); [| reflexivity].
  simpl. destruct (negb _); reflexivity.
Qed.

Lemma blind_SKNP_Vx : breakpoint_blind instr_SKNP_Vx.
Proof.
  unfold instr_SKNP_Vx, keypad_is_pressed. intros on a op e.
  change (Vr (set_breakpoint on a e)) with (Vr e).
  change (keypad (set_breakpoint on a e)) with (keypad e).
  destruct (Vr e (op_x op) <? 31); [| reflexivity].
  simpl. destruct (negb _); reflexivity.
Qed.

Lemma mem_write_set_breakpoint on a adr v e :
  mem_write adr v (set_breakpoint on a e)
  = res_map (set_breakpoint on a) (mem_write adr v e).
Proof. unfold mem_write. destruct (_ && _); reflexivity. Qed.

Lemma mem_read_set_breakpoint on a adr e :
  mem_read adr (set_breakpoint on a e) = mem_read adr e.
Proof. reflexivity. Qed.

Lemma blind_LD_B_Vx : breakpoint_blind instr_LD_B_Vx.
Proof.
  unfold instr_LD_B_Vx. intros on a op e.
  change (Vr (set_breakpoint on a e)) with (Vr e).
  rewrite mem_write_set_breakpoint.
  change (I (cpu (set_breakpoint on a e))) with (I (cpu e)).
  destruct (mem_write (I (cpu e)) _ e) as [e1 | u]; [simpl | reflexivity].
  rewrite mem_write_set_breakpoint.
  change (I (cpu (set_breakpoint on a e1))) with (I (cpu e1)).
  destruct (mem_write (I (cpu e1) + 1) _ e1) as [e2 | u]; [simpl | reflexivity].
  rewrite mem_write_set_breakpoint.
  change (I (cpu (set_breakpoint on a e2))) with (I (cpu e2)).
  destruct (mem_write (I (cpu e2) + 2) _ e2) as [e3 | u]; reflexivity.
Qed.

Lemma blind_LD_I_Vx_multi : breakpoint_blind instr_LD_I_Vx_multi.
Proof.
  unfold instr_LD_I_Vx_multi. intros on a op e.
  rewrite (for_loop_commute (set_breakpoint on a)).
  - destruct (for_loop _ _ _ e) as [e1 | u]; reflexivity.
  - intros i s. apply mem_write_set_breakpoint.
Qed.

Lemma blind_LD_Vx_I_multi : breakpoint_blind instr_LD_Vx_I_multi.
Proof.
  unfold instr_LD_Vx_I_multi. intros on a op e.
  rewrite (for_loop_commute (set_breakpoint on a)).
  - destruct (for_loop _ _ _ e) as [e1 | u]; reflexivity.
  - intros i s. rewrite mem_read_set_breakpoint.
    destruct (mem_read _ s) as [b | u]; reflexivity.
Qed.

Lemma blind_DRW_Vx_Vy_n : breakpoint_blind instr_DRW_Vx_Vy_n.
Proof.
  unfold instr_DRW_Vx_Vy_n. intros on a op e.
  change (Vr (set_breakpoint on a e)) with (Vr e).
  change (set_breakpoint on a e, 0) with (set_breakpoint_loop on a (e, 0)).
  rewrite (for_loop_commute (set_breakpoint_loop on a)).
  - destruct (for_loop _ _ _ (e, 0)) as [s | u]; reflexivity.
  - intros i s. apply for_loop_commute. intros j s0.
    unfold draw_pixel, set_breakpoint_loop. simpl.
    rewrite mem_read_set_breakpoint.
    destruct (mem_read _ s0.1) as [b | u]; reflexivity.
Qed.

Lemma blind_unknown : breakpoint_blind (fun _ e => Ret (EML_UNK_OPC, e)).
Proof. intros on a op e. reflexivity. Qed.

Lemma blind_case_0xF : breakpoint_blind case_0xF.
Proof.
  intros on a op e. unfold case_0xF. cbv zeta.
  repeat match goal with
         | |- context [if ?c then _ else _] => destruct c
         end;
    first [ apply blind_LD_Vx_DT | apply blind_LD_Vx_K | apply blind_LD_DT_Vx
          | apply blind_LD_ST_Vx | apply blind_ADD_I_Vx | apply blind_LD_F_Vx
          | apply blind_LD_B_Vx | apply blind_LD_I_Vx_multi
          | apply blind_LD_Vx_I_multi | reflexivity ].
Qed.

Lemma blind_case_0xE : breakpoint_blind case_0xE.
Proof.
  intros on a op e. unfold case_0xE. cbv zeta.
  repeat match goal with
         | |- context [if ?c then _ else _] => destruct c
         end;
    first [ apply blind_SKP_Vx | apply blind_SKNP_Vx | apply blind_case_0xF ].
Qed.

Lemma blind_case_0x8 : breakpoint_blind case_0x8.
Proof.
  intros on a op e. unfold case_0x8, case_0x9. cbv zeta.
  repeat match goal with
         | |- context [if ?c then _ else _] => destruct c
         end;
    first [ apply blind_LD_Vx_Vy | apply blind_OR_Vx_Vy | apply blind_AND_Vx_Vy
          | apply blind_XOR_Vx_Vy | apply blind_ADD_Vx_Vy | apply blind_SUB_Vx_Vy
          | apply blind_SHR_Vx__Vy | apply blind_SUBN_Vx_Vy
          | apply blind_SHL_Vx_Vy | apply blind_SNE_Vx_Vy ].
Qed.

Lemma blind_case_0x0 : breakpoint_blind case_0x0.
Proof.
  intros on a op e. unfold case_0x0, case_0x1. cbv zeta.
  repeat match goal with
         | |- context [if ?c then _ else _] => destruct c
         end;
    first [ apply blind_CLS | apply blind_RET | apply blind_JP_nnn ].
Qed.

Lemma blind_dispatch rnd : breakpoint_blind (dispatch rnd).
Proof.
  intros on a op e. unfold dispatch, case_0x1, case_0x9. cbv zeta.
  repeat match goal with
         | |- context [if ?c then _ else _] => destruct c
         end;
    first [ apply blind_case_0x0 | apply blind_JP_nnn | apply blind_CALL_nnn
          | apply blind_SE_Vx_kk | apply blind_SNE_Vx_kk | apply blind_SE_Vx_Vy
          | apply blind_LD_Vx_kk | apply blind_ADD_Vx_kk | apply blind_case_0x8
          | apply blind_SNE_Vx_Vy | apply blind_LD_I_nnn | apply blind_JP_V0_nnn
          | apply blind_RND_Vx_kk | apply blind_DRW_Vx_Vy_n | apply blind_case_0xE
          | apply blind_case_0xF | reflexivity ].
Qed.

(** ** The cycle *)

Lemma res_map_Ret_inv {A B : Type} (f : A -> B) (m : res A) (b : B) :
  res_map f m = Ret b -> exists a, m = Ret a /\ b = f a.
Proof.
  destruct m as [a | u]; simpl; intros H; [| discriminate H].
  injection H as <-. exists a. split; reflexivity.
Qed.

(** A cycle that gets past its two guards fetches, advances, dispatches and
    tests the breakpoint. *)
Lemma emulator_cycle_running rnd e :
  key_waiting e = false -> PC (cpu e) + 1 < MEM_SIZE ->
  emulator_cycle rnd e =
    (o ← fetch e;
     r ← dispatch rnd o (advance o e);
     Ret (brk_check r.1 r.2, r.2)).
Proof.
  intros Hk Hpc. unfold emulator_cycle. rewrite Hk.
  destruct (Z.geb_spec (PC (cpu e) + 1) MEM_SIZE) as [Hge | _]; [lia |].
  reflexivity.
Qed.

(** Conversely, a cycle that returns anything but its early statuses ran. *)
Lemma emulator_cycle_inv rnd e st e' :
  emulator_cycle rnd e = Ret (st, e') ->
  (key_waiting e = true /\ st = EML_OK /\ e' = e) \/
  (key_waiting e = false /\ MEM_SIZE <= PC (cpu e) + 1 /\
   st = EML_PC_OVERFL /\ e' = e) \/
  (key_waiting e = false /\ 0 <= PC (cpu e) /\ PC (cpu e) + 1 < MEM_SIZE /\
   exists o st0, fetch e = Ret o /\
     dispatch rnd o (advance o e) = Ret (st0, e') /\
     st = brk_check st0 e').
Proof.
  unfold emulator_cycle. destruct (key_waiting e) eqn:Hk.
  - intros H. injection H as <- <-. left. auto.
  - destruct (Z.geb_spec (PC (cpu e) + 1) MEM_SIZE) as [Hge | Hlt].
    + intros H. injection H as <- <-. right. left.
      split; [reflexivity |]. split; [lia |]. split; reflexivity.
    + intros H. right. right.
      apply bind_Ret_inv in H. destruct H as (o & Hf & H).
      apply bind_Ret_inv in H. destruct H as ([st0 e0] & Hd & H).
      injection H as <- <-.
      split; [reflexivity |]. split.
      * unfold fetch in Hf. apply bind_Ret_inv in Hf.
        destruct Hf as (b0 & Hb0 & _). unfold mem_read in Hb0.
        destruct (Z.leb_spec 0 (PC (cpu e))) as [Hp | Hp]; [exact Hp |].
        simpl in Hb0. discriminate Hb0.
      * split; [exact Hlt |]. exists o, st0.
        split; [exact Hf |]. split; [exact Hd | reflexivity].
Qed.

Lemma brk_check_not_fault st e :
  is_fault (brk_check st e) = true -> brk_check st e = st.
Proof.
  unfold brk_check. destruct (_ && _); [discriminate | reflexivity].
Qed.

(** C8.  When a cycle reports one of the handler faults (unknown opcode,
    stack overflow, stack underflow), the machine state it leaves is the one
    it found with only the PC changed, to the address of the faulting
    instruction plus 2; the emulator has recorded the opcode and the address
    of the faulting instruction and nothing else. *)
Theorem fault_leaves_advanced_PC (rnd : Z) (e e' : emulator) (st : eml_stat) :
  emulator_cycle rnd e = Ret (st, e') ->
  is_fault st = true ->
  PC (cpu e') = PC (cpu e) + 2 /\
  PC (cpu e') <> PC (cpu e) /\
  cpu e' = set_PC (PC (cpu e) + 2) (cpu e) /\
  prev_PC e' = PC (cpu e) /\
  exists o, fetch e = Ret o /\
    e' = upd (set_PC (PC (cpu e) + 2)) (set_prev_PC (PC (cpu e)) (set_opcode o e)).
Proof.
  intros Hrun Hfault.
  destruct (emulator_cycle_inv rnd e st e' Hrun)
    as [(_ & -> & _) | [(_ & _ & -> & _) | (Hk & Hp0 & Hp1 & o & st0 & Hf & Hd & Hst)]];
    try discriminate Hfault.
  assert (Hst0 : st = st0).
  { rewrite Hst. apply brk_check_not_fault. rewrite <- Hst. exact Hfault. }
  subst st0.
  destruct (benign_dispatch rnd o (advance o e) st e' Hd) as [[[-> | ->] | [_ He']] _];
    try discriminate Hfault.
  subst e'. unfold advance. simpl.
  rewrite u16_small by (unfold MEM_SIZE in Hp1; lia).
  repeat split; try reflexivity; try lia.
  exists o. split; [exact Hf | reflexivity].
Qed.

(** At the unknown opcode F0FF, fetched at 0x200. *)
Lemma fault_leaves_advanced_PC_witness :
  exists e',
    emulator_cycle 0 (boot [0xF0; 0xFF]) = Ret (EML_UNK_OPC, e') /\
    PC (cpu e') = 0x202 /\
    cpu e' = set_PC 0x202 (cpu (boot [0xF0; 0xFF])).
Proof.
  destruct (emulator_cycle 0 (boot [0xF0; 0xFF])) as [[st e'] | u] eqn:Hrun;
    [| vm_compute in Hrun; discriminate Hrun].
  assert (Hst : st = EML_UNK_OPC).
  { vm_compute in Hrun. injection Hrun as <- _. reflexivity. }
  subst st.
  destruct (fault_leaves_advanced_PC 0 (boot [0xF0; 0xFF]) e' EML_UNK_OPC Hrun)
    as (Hpc & _ & Hcpu & _); [reflexivity |].
  exists e'. split; [reflexivity |]. split; [exact Hpc | exact Hcpu].
Defined.

Lemma brk_check_off st e : brk_point_set e = false -> brk_check st e = st.
Proof. unfold brk_check. intros ->. reflexivity. Qed.

(** C4.  Let the cycle at pre-advance PC [a] run (the emulator is not
    waiting for a key and the fetch is inside the memory), and let [st], [e']
    be what that cycle reports and leaves with the breakpoint switched off.
    With a breakpoint configured at [a] the same cycle reports
    [EML_BRK_REACHED] and leaves the same state: the instruction at [a] has
    fully executed.  With a breakpoint configured at any other address, the
    advanced PC [a + 2] included, the cycle reports the instruction's own
    status, which is never [EML_BRK_REACHED]. *)
Theorem breakpoint_on_retired_instruction
    (rnd a : Z) (e e' : emulator) (st : eml_stat) :
  key_waiting e = false ->
  PC (cpu e) + 1 < MEM_SIZE ->
  PC (cpu e) = a ->
  emulator_cycle rnd (set_breakpoint false a e) = Ret (st, e') ->
  emulator_cycle rnd (set_breakpoint true a e)
    = Ret (EML_BRK_REACHED, set_breakpoint true a e') /\
  st <> EML_BRK_REACHED /\
  (forall a', a' <> a ->
     emulator_cycle rnd (set_breakpoint true a' e)
       = Ret (st, set_breakpoint true a' e')).
Proof.
  intros Hk Hpc Ha Hoff.
  rewrite emulator_cycle_running in Hoff by assumption.
  apply bind_Ret_inv in Hoff. destruct Hoff as (o & Hf & Hoff).
  change (fetch (set_breakpoint false a e)) with (fetch e) in Hf.
  apply bind_Ret_inv in Hoff. destruct Hoff as ([st0 e0] & Hd & Hoff).
  change (advance o (set_breakpoint false a e))
    with (set_breakpoint false a (advance o e)) in Hd.
  rewrite blind_dispatch in Hd.
  apply res_map_Ret_inv in Hd. destruct Hd as ([st1 e1] & Hd & Heq).
  unfold keep_status_set_breakpoint in Heq. simpl in Heq.
  injection Heq as -> ->.
  simpl in Hoff. rewrite brk_check_off in Hoff by reflexivity.
  injection Hoff as <- <-.
  destruct (benign_dispatch rnd o (advance o e) st1 e1 Hd)
    as [Hst (_ & Hprev & _ & _)].
  change (prev_PC (advance o e)) with (PC (cpu e)) in Hprev.
  assert (Hon : forall a',
             emulator_cycle rnd (set_breakpoint true a' e)
             = Ret (brk_check st1 (set_breakpoint true a' e1),
                    set_breakpoint true a' e1)).
  { intros a'. rewrite emulator_cycle_running by assumption.
    change (fetch (set_breakpoint true a' e)) with (fetch e). rewrite Hf. simpl.
    change (advance o (set_breakpoint true a' e))
      with (set_breakpoint true a' (advance o e)).
    rewrite blind_dispatch, Hd. reflexivity. }
  split; [| split].
  - rewrite Hon. unfold brk_check. simpl. rewrite Hprev, Ha, Z.eqb_refl.
    reflexivity.
  - destruct Hst as [[-> | ->] | [Hfault _]]; try discriminate.
    intros ->. discriminate Hfault.
  - intros a' Hne. rewrite Hon. unfold brk_check. simpl. rewrite Hprev, Ha.
    destruct (Z.eqb_spec a a') as [Heq | _]; [congruence | reflexivity].
Qed.

(** At the program [6A 2A; 6B 07]: the breakpoint at 0x200 halts the first
    cycle with VA loaded; the breakpoint at 0x202 does not. *)
Lemma breakpoint_on_retired_instruction_witness :
  exists e',
    emulator_cycle 0 (set_breakpoint true 0x200 (boot [0x6A; 0x2A; 0x6B; 0x07]))
      = Ret (EML_BRK_REACHED, set_breakpoint true 0x200 e') /\
    emulator_cycle 0 (set_breakpoint true 0x202 (boot [0x6A; 0x2A; 0x6B; 0x07]))
      = Ret (EML_OK, set_breakpoint true 0x202 e') /\
    Vr e' 0xA = 0x2A /\ PC (cpu e') = 0x202.
Proof.
  destruct (emulator_cycle 0 (set_breakpoint false 0x200 (boot [0x6A; 0x2A; 0x6B; 0x07])))
    as [[st e'] | u] eqn:Hrun; [| vm_compute in Hrun; discriminate Hrun].
  assert (Hobs : st = EML_OK /\ Vr e' 0xA = 0x2A /\ PC (cpu e') = 0x202).
  { vm_compute in Hrun. injection Hrun as <- <-. repeat split. }
  destruct Hobs as (-> & HV & HPC).
  destruct (breakpoint_on_retired_instruction 0 0x200
              (boot [0x6A; 0x2A; 0x6B; 0x07]) e' EML_OK)
    as (Hon & _ & Hother).
  - reflexivity.
  - reflexivity.
  - reflexivity.
  - exact Hrun.
  - exists e'. split; [exact Hon |]. split; [apply Hother; discriminate |].
    split; [exact HV | exact HPC].
Defined.

(** ** The call stack *)

Lemma cycle_step rnd e o st e' :
  key_waiting e = false -> PC (cpu e) + 1 < MEM_SIZE ->
  fetch e = Ret o ->
  dispatch rnd o (advance o e) = Ret (st, e') ->
  emulator_cycle rnd e = Ret (brk_check st e', e').
Proof.
  intros Hk Hpc Hf Hd. rewrite emulator_cycle_running by assumption.
  rewrite Hf. simpl. rewrite Hd. reflexivity.
Qed.

Lemma fetch_PC_nonneg e o : fetch e = Ret o -> 0 <= PC (cpu e).
Proof.
  unfold fetch. intros H. apply bind_Ret_inv in H.
  destruct H as (b0 & Hb0 & _). unfold mem_read in Hb0.
  destruct (Z.leb_spec 0 (PC (cpu e))) as [Hp | Hp]; [exact Hp |].
  simpl in Hb0. discriminate Hb0.
Qed.

Lemma dispatch_2nnn rnd op e :
  Z.shiftr (Z.land op 0xF000) 12 = 2 -> dispatch rnd op e = instr_CALL_nnn op e.
Proof. intros H. unfold dispatch. rewrite H. reflexivity. Qed.

Lemma dispatch_00EE rnd op e :
  Z.shiftr (Z.land op 0xF000) 12 = 0 -> Z.land op 0xFF = 0xEE ->
  dispatch rnd op e = instr_RET op e.
Proof.
  intros H0 HEE. unfold dispatch. rewrite H0. simpl.
  unfold case_0x0. rewrite HEE. reflexivity.
Qed.

Lemma CALL_pushes op e :
  0 <= SP (cpu e) < STACK_SIZE ->
  instr_CALL_nnn op e =
    Ret (EML_OK,
         upd (set_PC (op_nnn op))
           (upd (set_SP (SP (cpu e) + 1))
              (upd (set_stack (set (stack (cpu e)) (SP (cpu e)) (PC (cpu e)))) e))).
Proof.
  intros HSP. unfold instr_CALL_nnn, STACK_SIZE in *.
  destruct (Z.eqb_spec (SP (cpu e)) 16) as [Heq | _]; [lia |].
  simpl. rewrite u8_small by lia. reflexivity.
Qed.

Lemma CALL_overflows op e :
  SP (cpu e) = STACK_SIZE -> instr_CALL_nnn op e = Ret (EML_STACK_OVERFL, e).
Proof. intros H. unfold instr_CALL_nnn. rewrite H. reflexivity. Qed.

Lemma RET_pops op e :
  0 < SP (cpu e) <= STACK_SIZE ->
  instr_RET op e =
    Ret (EML_OK,
         upd (set_PC (get (stack (cpu e)) (SP (cpu e) - 1)))
           (upd (set_SP (SP (cpu e) - 1)) e)).
Proof.
  intros HSP. unfold instr_RET, STACK_SIZE in *.
  destruct (Z.eqb_spec (SP (cpu e)) 0) as [Heq | _]; [lia |].
  simpl. rewrite u8_small by lia. reflexivity.
Qed.

Lemma call_chain_from (n : nat) : forall ops e,
  SP (cpu e) = STACK_SIZE - Z.of_nat n -> (n <= 16)%nat ->
  length ops = S n ->
  (call_chain ops e).1 = replicate n EML_OK ++ [EML_STACK_OVERFL].
Proof.
  induction n as [|n IH]; intros ops e HSP Hn Hlen.
  - destruct ops as [|op [|? ?]]; try discriminate Hlen. simpl.
    rewrite CALL_overflows by (rewrite HSP; simpl; lia). reflexivity.
  - destruct ops as [|op ops]; [discriminate Hlen |]. simpl.
    rewrite CALL_pushes by (unfold STACK_SIZE in *; lia). simpl.
    f_equal. apply IH.
    + simpl. lia.
    + lia.
    + simpl in Hlen. lia.
Qed.

(** C7.  (1) From an empty stack, of any 17 CALLs in a row the first 16
    return [EML_OK] and the 17th returns [EML_STACK_OVERFL].  (2) A cycle
    that fetches a CALL with room on the stack succeeds, pushes the address
    of the next instruction and moves SP up by one; with SP at 16 it reports
    [EML_STACK_OVERFL].  (3) A cycle that fetches RET (00EE) with SP = 0
    reports [EML_STACK_UNDERFL].  (4) After a CALL cycle, a RET cycle that
    finds the stack as the CALL left it puts PC at the address of the CALL
    plus 2.  (In (2) to (4) no breakpoint is set, so that the status is the
    handler's.) *)
Theorem stack_discipline :
  (forall ops e, SP (cpu e) = 0 -> length ops = 17%nat ->
     (call_chain ops e).1 = replicate 16 EML_OK ++ [EML_STACK_OVERFL]) /\
  (forall rnd e op,
     key_waiting e = false -> PC (cpu e) + 1 < MEM_SIZE ->
     brk_point_set e = false ->
     fetch e = Ret op -> Z.shiftr (Z.land op 0xF000) 12 = 2 ->
     length (stack (cpu e)) = 16%nat ->
     (0 <= SP (cpu e) < 16 ->
      exists e', emulator_cycle rnd e = Ret (EML_OK, e') /\
        SP (cpu e') = SP (cpu e) + 1 /\
        PC (cpu e') = op_nnn op /\
        get (stack (cpu e')) (SP (cpu e)) = PC (cpu e) + 2) /\
     (SP (cpu e) = 16 ->
      emulator_cycle rnd e = Ret (EML_STACK_OVERFL, advance op e))) /\
  (forall rnd e op,
     key_waiting e = false -> PC (cpu e) + 1 < MEM_SIZE ->
     brk_point_set e = false ->
     fetch e = Ret op ->
     Z.shiftr (Z.land op 0xF000) 12 = 0 -> Z.land op 0xFF = 0xEE ->
     SP (cpu e) = 0 ->
     emulator_cycle rnd e = Ret (EML_STACK_UNDERFL, advance op e)) /\
  (forall rnd e op st1 e1 e1' op' st2 e2,
     key_waiting e = false -> PC (cpu e) + 1 < MEM_SIZE ->
     fetch e = Ret op -> Z.shiftr (Z.land op 0xF000) 12 = 2 ->
     length (stack (cpu e)) = 16%nat -> 0 <= SP (cpu e) < 16 ->
     emulator_cycle rnd e = Ret (st1, e1) ->
     SP (cpu e1') = SP (cpu e1) -> stack (cpu e1') = stack (cpu e1) ->
     key_waiting e1' = false -> PC (cpu e1') + 1 < MEM_SIZE ->
     fetch e1' = Ret op' ->
     Z.shiftr (Z.land op' 0xF000) 12 = 0 -> Z.land op' 0xFF = 0xEE ->
     emulator_cycle rnd e1' = Ret (st2, e2) ->
     PC (cpu e2) = PC (cpu e) + 2).
Proof.
  split; [| split; [| split]].
  - intros ops e HSP Hlen. apply call_chain_from; [rewrite HSP; reflexivity | lia | exact Hlen].
  - intros rnd e op Hk Hpc Hbrk Hf H2 Hlen.
    pose proof (fetch_PC_nonneg e op Hf) as Hp0. split.
    + intros HSP.
      pose proof (CALL_pushes op (advance op e)) as Hcall.
      rewrite <- (dispatch_2nnn rnd) in Hcall by exact H2.
      specialize (Hcall HSP).
      rewrite (cycle_step rnd e op _ _ Hk Hpc Hf Hcall).
      eexists. split; [rewrite brk_check_off by exact Hbrk; reflexivity |].
      simpl. split; [reflexivity |]. split; [reflexivity |].
      rewrite get_set_eq by (rewrite Hlen; lia).
      apply u16_small. unfold MEM_SIZE in Hpc. lia.
    + intros HSP.
      pose proof (CALL_overflows op (advance op e) HSP) as Hcall.
      rewrite <- (dispatch_2nnn rnd) in Hcall by exact H2.
      rewrite (cycle_step rnd e op _ _ Hk Hpc Hf Hcall).
      rewrite brk_check_off by exact Hbrk. reflexivity.
  - intros rnd e op Hk Hpc Hbrk Hf H0 HEE HSP.
    assert (Hret : dispatch rnd op (advance op e) = Ret (EML_STACK_UNDERFL, advance op e)).
    { rewrite dispatch_00EE by assumption. unfold instr_RET.
      change (SP (cpu (advance op e))) with (SP (cpu e)). rewrite HSP. reflexivity. }
    rewrite (cycle_step rnd e op _ _ Hk Hpc Hf Hret).
    rewrite brk_check_off by exact Hbrk. reflexivity.
  - intros rnd e op st1 e1 e1' op' st2 e2 Hk Hpc Hf H2 Hlen HSP Hrun1
      HSP' Hstack' Hk' Hpc' Hf' H0 HEE Hrun2.
    pose proof (fetch_PC_nonneg e op Hf) as Hp0.
    pose proof (CALL_pushes op (advance op e) HSP) as Hcall.
    rewrite <- (dispatch_2nnn rnd) in Hcall by exact H2.
    rewrite (cycle_step rnd e op _ _ Hk Hpc Hf Hcall) in Hrun1.
    injection Hrun1 as _ <-. simpl in HSP', Hstack'.
    assert (Hret : 0 < SP (cpu (advance op' e1')) <= STACK_SIZE).
    { change (SP (cpu (advance op' e1'))) with (SP (cpu e1')).
      unfold STACK_SIZE. lia. }
    apply (RET_pops op') in Hret.
    rewrite <- (dispatch_00EE rnd) in Hret by assumption.
    rewrite (cycle_step rnd e1' op' _ _ Hk' Hpc' Hf' Hret) in Hrun2.
    injection Hrun2 as _ <-. simpl. rewrite Hstack', HSP'.
    replace (SP (cpu e) + 1 - 1) with (SP (cpu e)) by lia.
    rewrite get_set_eq by (rewrite Hlen; lia).
    apply u16_small. unfold MEM_SIZE in Hpc. lia.
Qed.

(** At seventeen CALL 0x200, at RET on the empty stack, and at the program
    [22 04; 00 00; 00 EE]: CALL 0x204 at 0x200, RET at 0x204. *)
Lemma stack_discipline_witness :
  (call_chain (replicate 17 0x2200) emulator_init).1
    = replicate 16 EML_OK ++ [EML_STACK_OVERFL] /\
  emulator_cycle 0 (boot [0x00; 0xEE])
    = Ret (EML_STACK_UNDERFL, advance 0x00EE (boot [0x00; 0xEE])) /\
  (exists e1 e2,
     emulator_cycle 0 (boot [0x22; 0x04; 0x00; 0x00; 0x00; 0xEE]) = Ret (EML_OK, e1) /\
     emulator_cycle 0 e1 = Ret (EML_OK, e2) /\
     PC (cpu e2) = 0x200 + 2).
Proof.
  destruct stack_discipline as (Hchain & _ & Hunder & Hpair).
  split; [| split].
  - apply Hchain; reflexivity.
  - apply Hunder; reflexivity.
  - destruct (emulator_cycle 0 (boot [0x22; 0x04; 0x00; 0x00; 0x00; 0xEE]))
      as [[st1 e1] | u] eqn:Hrun1; [| vm_compute in Hrun1; discriminate Hrun1].
    assert (Hst1 : st1 = EML_OK).
    { vm_compute in Hrun1. injection Hrun1 as <- _. reflexivity. }
    subst st1.
    destruct (emulator_cycle 0 e1) as [[st2 e2] | u] eqn:Hrun2.
    + assert (Hst2 : st2 = EML_OK).
      { vm_compute in Hrun1. injection Hrun1 as <-.
        vm_compute in Hrun2. injection Hrun2 as <- _. reflexivity. }
      subst st2. exists e1, e2.
      split; [reflexivity |]. split; [exact Hrun2 |].
      assert (Hobs : key_waiting e1 = false /\ PC (cpu e1) + 1 < MEM_SIZE /\
                     fetch e1 = Ret 0x00EE).
      { vm_compute in Hrun1. injection Hrun1 as <-. vm_compute. auto. }
      destruct Hobs as (Hk1 & Hpc1 & Hf1).
      apply (Hpair 0 (boot [0x22; 0x04; 0x00; 0x00; 0x00; 0xEE]) 0x2204
               EML_OK e1 e1 0x00EE EML_OK e2); try reflexivity; try assumption.
      change (0 <= 0 < 16). lia.
    + exfalso. vm_compute in Hrun1. injection Hrun1 as <-.
      vm_compute in Hrun2. discriminate Hrun2.
Defined.

(** ** Register dump and load *)

Lemma upd_set_memory_id e : upd (set_memory (memory (cpu e))) e = e.
Proof. destruct e as [[] ]. reflexivity. Qed.

Lemma upd_set_V_id e : upd (set_V (V (cpu e))) e = e.
Proof. destruct e as [[] ]. reflexivity. Qed.

Lemma mem_write_in_bounds a v e :
  0 <= a < MEM_SIZE ->
  mem_write a v e = Ret (upd (set_memory (set (memory (cpu e)) a v)) e).
Proof.
  intros Ha. unfold mem_write.
  destruct (Z.leb_spec 0 a); [| lia]. destruct (Z.ltb_spec a MEM_SIZE); [| lia].
  reflexivity.
Qed.

Lemma mem_read_in_bounds a e :
  0 <= a < MEM_SIZE -> mem_read a e = Ret (get (memory (cpu e)) a).
Proof.
  intros Ha. unfold mem_read.
  destruct (Z.leb_spec 0 a); [| lia]. destruct (Z.ltb_spec a MEM_SIZE); [| lia].
  reflexivity.
Qed.

Lemma mem_write_out_of_bounds a v e :
  MEM_SIZE <= a -> mem_write a v e = Undef (OutOfBoundsWrite a).
Proof.
  intros Ha. unfold mem_write.
  destruct (Z.ltb_spec a MEM_SIZE); [lia |]. rewrite andb_false_r. reflexivity.
Qed.

(** The loop of Fx55 from counter [i], [cnt] rounds. *)
Lemma store_loop (cnt : nat) : forall i e,
  0 <= i -> 0 <= I (cpu e) ->
  I (cpu e) + i + Z.of_nat cnt <= MEM_SIZE ->
  length (memory (cpu e)) = Z.to_nat MEM_SIZE ->
  exists m,
    for_loop cnt i (fun i e => mem_write (I (cpu e) + i) (Vr e i) e) e
      = Ret (upd (set_memory m) e) /\
    length m = length (memory (cpu e)) /\
    (forall j, i <= j < i + Z.of_nat cnt -> get m (I (cpu e) + j) = Vr e j) /\
    (forall a, 0 <= a ->
       ~ (I (cpu e) + i <= a < I (cpu e) + i + Z.of_nat cnt) ->
       get m a = get (memory (cpu e)) a).
Proof.
  induction cnt as [|c IH]; intros i e Hi HI Hend Hlen.
  - exists (memory (cpu e)). simpl. rewrite upd_set_memory_id.
    split; [reflexivity |]. split; [reflexivity |]. split; [intros j Hj; lia |].
    intros a _ _. reflexivity.
  - simpl for_loop. rewrite mem_write_in_bounds by lia. simpl.
    set (e1 := upd (set_memory (set (memory (cpu e)) (I (cpu e) + i) (Vr e i))) e).
    destruct (IH (i + 1) e1) as (m & Hrun & Hm & Hin & Hout).
    + lia.
    + exact HI.
    + change (I (cpu e1)) with (I (cpu e)). lia.
    + unfold e1. simpl. rewrite length_set. exact Hlen.
    + exists m. split; [exact Hrun |].
      change (I (cpu e1)) with (I (cpu e)) in Hin, Hout.
      change (Vr e1) with (Vr e) in Hin.
      assert (Hm1 : length (memory (cpu e1)) = length (memory (cpu e))).
      { unfold e1. simpl. apply length_set. }
      split; [congruence |]. split.
      * intros j Hj. destruct (Z.eq_dec j i) as [-> | Hne].
        -- rewrite Hout by lia. unfold e1. simpl.
           apply get_set_eq. rewrite Hlen. unfold MEM_SIZE in *. lia.
        -- apply Hin. lia.
      * intros a Ha Hna. rewrite Hout by lia. unfold e1. simpl.
        apply get_set_ne; lia.
Qed.

(** The loop of Fx65 from counter [i], [cnt] rounds. *)
Lemma load_loop (cnt : nat) : forall i e,
  0 <= i -> i + Z.of_nat cnt <= 16 -> 0 <= I (cpu e) ->
  I (cpu e) + i + Z.of_nat cnt <= MEM_SIZE ->
  length (V (cpu e)) = 16%nat ->
  exists v,
    for_loop cnt i
      (fun i e => b ← mem_read (I (cpu e) + i) e; Ret (set_Vr i b e)) e
      = Ret (upd (set_V v) e) /\
    length v = length (V (cpu e)) /\
    (forall j, i <= j < i + Z.of_nat cnt ->
       get v j = get (memory (cpu e)) (I (cpu e) + j)) /\
    (forall j, 0 <= j -> ~ (i <= j < i + Z.of_nat cnt) ->
       get v j = get (V (cpu e)) j).
Proof.
  induction cnt as [|c IH]; intros i e Hi H16 HI Hend Hlen.
  - exists (V (cpu e)). simpl. rewrite upd_set_V_id.
    split; [reflexivity |]. split; [reflexivity |]. split; [intros j Hj; lia |].
    intros a _ _. reflexivity.
  - simpl for_loop. rewrite mem_read_in_bounds by lia. simpl.
    set (e1 := set_Vr i (get (memory (cpu e)) (I (cpu e) + i)) e).
    destruct (IH (i + 1) e1) as (v & Hrun & Hv & Hin & Hout).
    + lia.
    + lia.
    + exact HI.
    + change (I (cpu e1)) with (I (cpu e)). lia.
    + unfold e1. rewrite length_V_set_Vr. exact Hlen.
    + exists v. split; [exact Hrun |].
      change (I (cpu e1)) with (I (cpu e)) in Hin.
      change (memory (cpu e1)) with (memory (cpu e)) in Hin.
      assert (Hv1 : length (V (cpu e1)) = length (V (cpu e))).
      { unfold e1. apply length_V_set_Vr. }
      split; [congruence |]. split.
      * intros j Hj. destruct (Z.eq_dec j i) as [-> | Hne].
        -- rewrite Hout by lia. unfold e1, set_Vr. simpl.
           apply get_set_eq. rewrite Hlen. lia.
        -- apply Hin. lia.
      * intros j Hj Hnj. rewrite Hout by lia. unfold e1, set_Vr. simpl.
        apply get_set_ne; lia.
Qed.

Lemma dispatch_0xF rnd op e :
  Z.shiftr (Z.land op 0xF000) 12 = 0xF -> dispatch rnd op e = case_0xF op e.
Proof. intros H. unfold dispatch. rewrite H. reflexivity. Qed.

Lemma dispatch_Fx55 rnd op e :
  Z.shiftr (Z.land op 0xF000) 12 = 0xF -> Z.land op 0xFF = 0x55 ->
  dispatch rnd op e = instr_LD_I_Vx_multi op e.
Proof.
  intros HF H55. rewrite dispatch_0xF by exact HF.
  unfold case_0xF. rewrite H55. reflexivity.
Qed.

Lemma dispatch_Fx65 rnd op e :
  Z.shiftr (Z.land op 0xF000) 12 = 0xF -> Z.land op 0xFF = 0x65 ->
  dispatch rnd op e = instr_LD_Vx_I_multi op e.
Proof.
  intros HF H65. rewrite dispatch_0xF by exact HF.
  unfold case_0xF. rewrite H65. reflexivity.
Qed.

(** C9 where the block is inside the memory.  With memory[I .. I+x] inside
    the memory, Fx55 returns [EML_OK] and leaves an emulator that differs from
    the one it found in the memory array only: memory[I+i] = V[i] for i = 0 ..
    x, every other byte as it was.  Fx65 differs in the register array only:
    V[i] = memory[I+i] for i = 0 .. x, every register above Vx as it was.  In
    both cases I, PC, SP, the stack, the display and both timers are those of
    the emulator before the instruction; I is not moved past the block. *)
Theorem register_dump_load_frame (rnd op : Z) (e : emulator) :
  length (memory (cpu e)) = Z.to_nat MEM_SIZE ->
  length (V (cpu e)) = 16%nat ->
  0 <= I (cpu e) ->
  I (cpu e) + op_x op < MEM_SIZE ->
  Z.shiftr (Z.land op 0xF000) 12 = 0xF ->
  (Z.land op 0xFF = 0x55 ->
   exists e', dispatch rnd op e = Ret (EML_OK, e') /\
     same_but_memory e e' /\
     (forall i, 0 <= i <= op_x op ->
        get (memory (cpu e')) (I (cpu e) + i) = Vr e i) /\
     (forall a, 0 <= a -> ~ (I (cpu e) <= a <= I (cpu e) + op_x op) ->
        get (memory (cpu e')) a = get (memory (cpu e)) a) /\
     V (cpu e') = V (cpu e) /\
     I (cpu e') = I (cpu e) /\ PC (cpu e') = PC (cpu e) /\
     SP (cpu e') = SP (cpu e) /\ stack (cpu e') = stack (cpu e) /\
     display (cpu e') = display (cpu e) /\
     DT (cpu e') = DT (cpu e) /\ ST (cpu e') = ST (cpu e)) /\
  (Z.land op 0xFF = 0x65 ->
   exists e', dispatch rnd op e = Ret (EML_OK, e') /\
     same_but_V e e' /\
     (forall i, 0 <= i <= op_x op ->
        Vr e' i = get (memory (cpu e)) (I (cpu e) + i)) /\
     (forall i, op_x op < i -> Vr e' i = Vr e i) /\
     memory (cpu e') = memory (cpu e) /\
     I (cpu e') = I (cpu e) /\ PC (cpu e') = PC (cpu e) /\
     SP (cpu e') = SP (cpu e) /\ stack (cpu e') = stack (cpu e) /\
     display (cpu e') = display (cpu e) /\
     DT (cpu e') = DT (cpu e) /\ ST (cpu e') = ST (cpu e)).
Proof.
  intros Hmem HV HI Hend HF.
  pose proof (op_x_range op) as Rx.
  split.
  - intros H55. rewrite (dispatch_Fx55 rnd op e HF H55).
    unfold instr_LD_I_Vx_multi.
    destruct (store_loop (Z.to_nat (op_x op + 1)) 0 e) as (m & Hrun & Hm & Hin & Hout);
      try lia; try assumption.
    rewrite Hrun. simpl. eexists. split; [reflexivity |].
    split; [reflexivity |]. simpl.
    split; [intros i Hi; apply Hin; lia |].
    split; [intros a Ha Hna; apply Hout; lia |].
    repeat split.
  - intros H65. rewrite (dispatch_Fx65 rnd op e HF H65).
    unfold instr_LD_Vx_I_multi.
    destruct (load_loop (Z.to_nat (op_x op + 1)) 0 e) as (v & Hrun & Hv & Hin & Hout);
      try lia; try assumption.
    rewrite Hrun. simpl. eexists. split; [reflexivity |].
    split; [reflexivity |]. unfold Vr. simpl.
    split; [intros i Hi; apply Hin; lia |].
    split; [intros i Hi; apply Hout; lia |].
    repeat split.
Qed.

(** At V0..V2 = 7, 8, 9 and I = 0x300, LD [I], V2 (F255). *)
Lemma register_dump_load_frame_witness :
  exists e',
    dispatch 0 0xF255 (upd (set_I 0x300) (with_regs [(0, 7); (1, 8); (2, 9)] emulator_init))
      = Ret (EML_OK, e') /\
    get (memory (cpu e')) 0x300 = 7 /\
    get (memory (cpu e')) 0x301 = 8 /\
    get (memory (cpu e')) 0x302 = 9 /\
    I (cpu e') = 0x300.
Proof.
  destruct (register_dump_load_frame 0 0xF255
              (upd (set_I 0x300) (with_regs [(0, 7); (1, 8); (2, 9)] emulator_init)))
    as [Hdump _].
  - reflexivity.
  - reflexivity.
  - change (0 <= 0x300). lia.
  - change (0x300 + 2 < 4096). lia.
  - reflexivity.
  - destruct Hdump as (e' & Hrun & _ & Hin & _ & _ & HI & _); [reflexivity |].
    exists e'. split; [exact Hrun |].
    split; [exact (Hin 0 ltac:(change (0 <= 0 <= 2); lia)) |].
    split; [exact (Hin 1 ltac:(change (0 <= 1 <= 2); lia)) |].
    split; [exact (Hin 2 ltac:(change (0 <= 2 <= 2); lia)) |].
    exact HI.
Defined.

(** C9: the code at the failing inputs.  [AF FF; F1 55]: after Annn I is
    0xFFF; the dump of V0, V1 writes memory[0xFFF] and goes on to
    memory[0x1000], which is not a byte of the memory (in the struct the
    display follows it).  [AF FF; F1 65]: the load of V0, V1 reads
    memory[0x1000] in the same way.  Nothing in the two handlers compares
    I + x with the size of the memory. *)
Theorem register_dump_leaves_memory :
  res_map (fun r => (r.1, I (cpu r.2)))
      (run 0 1 (boot [0xAF; 0xFF; 0xF1; 0x55]))
    = Ret ([EML_OK], 0xFFF) /\
  run 0 2 (boot [0xAF; 0xFF; 0xF1; 0x55]) = Undef (OutOfBoundsWrite 0x1000) /\
  run 0 2 (boot [0xAF; 0xFF; 0xF1; 0x65]) = Undef (OutOfBoundsRead 0x1000).
Proof. vm_compute. repeat split. Qed.

(** ** Sprites *)

Lemma upd_set_display_id e : upd (set_display (display (cpu e))) e = e.
Proof. destruct e as [[] ]. reflexivity. Qed.

Lemma for_loop_S {T : Type} (c : nat) i (body : Z -> T -> res T) s :
  for_loop (S c) i body s = (s' ← body i s; for_loop c (i + 1) body s').
Proof. reflexivity. Qed.

Lemma draw_pixel_in_bounds x y i j e c :
  0 <= I (cpu e) + i < MEM_SIZE ->
  draw_pixel x y i j (e, c)
  = Ret (upd (set_display
                (plot1 (display (cpu e), c) (pixel_index x y i j, sprite_bit e i j)).1) e,
         (plot1 (display (cpu e), c) (pixel_index x y i j, sprite_bit e i j)).2).
Proof.
  intros Hi. unfold draw_pixel. simpl.
  rewrite mem_read_in_bounds by exact Hi. reflexivity.
Qed.

(** The inner loop of row [i] is [plot] over the cells of that row. *)
Lemma row_loop x y i (cnt : nat) : forall j e c,
  0 <= I (cpu e) + i < MEM_SIZE ->
  for_loop cnt j (draw_pixel x y i) (e, c)
  = Ret (upd (set_display (plot (sprite_row x y e i j cnt) (display (cpu e), c)).1) e,
         (plot (sprite_row x y e i j cnt) (display (cpu e), c)).2).
Proof.
  induction cnt as [|k IH]; intros j e c Hi.
  - simpl. rewrite upd_set_display_id. reflexivity.
  - simpl for_loop. rewrite draw_pixel_in_bounds by exact Hi.
    simpl mbind. rewrite IH by exact Hi. reflexivity.
Qed.

Lemma sprite_cells_S x y e i (k : nat) :
  sprite_cells x y e i (S k)
  = sprite_row x y e i 0 8 ++ sprite_cells x y e (i + 1) k.
Proof. reflexivity. Qed.

(** The two loops together are [plot] over the cells of the sprite. *)
Lemma cells_loop x y (cnt : nat) : forall i e c,
  0 <= I (cpu e) + i -> I (cpu e) + i + Z.of_nat cnt <= MEM_SIZE ->
  for_loop cnt i (fun i => for_loop 8 0 (draw_pixel x y i)) (e, c)
  = Ret (upd (set_display (plot (sprite_cells x y e i cnt) (display (cpu e), c)).1) e,
         (plot (sprite_cells x y e i cnt) (display (cpu e), c)).2).
Proof.
  induction cnt as [|k IH]; intros i e c Hlo Hhi.
  - simpl. rewrite upd_set_display_id. reflexivity.
  - rewrite for_loop_S. rewrite row_loop by lia.
    simpl mbind. rewrite IH by (simpl; lia).
    rewrite sprite_cells_S. unfold plot at 3 4.
    rewrite fold_left_app. reflexivity.
Qed.

Lemma plot_cons p ps s : plot (p :: ps) s = plot ps (plot1 s p).
Proof. reflexivity. Qed.

Lemma plot_length ps : forall s, length (plot ps s).1 = length s.1.
Proof.
  induction ps as [|p ps IH]; intros s; [reflexivity |].
  rewrite plot_cons, IH. simpl. apply length_set.
Qed.

(** A cell of the display after [plot]: its old value, exclusive-or the
    sprite bits that landed on it. *)
Lemma plot_get ps : forall s q,
  (forall p, In p ps -> 0 <= p.1 < Z.of_nat (length s.1)) ->
  0 <= q ->
  get (plot ps s).1 q = Z.lxor (get s.1 q) (xor_at ps q).
Proof.
  induction ps as [|p ps IH]; intros s q Hin Hq.
  - simpl. rewrite Z.lxor_0_r. reflexivity.
  - rewrite plot_cons, IH.
    + simpl. destruct (Z.eqb_spec p.1 q) as [Heq | Hne].
      * subst q. rewrite get_set_eq by (apply Hin; left; reflexivity).
        apply Z.lxor_assoc.
      * rewrite get_set_ne; [| apply Hin; left; reflexivity | exact Hq | exact Hne].
        rewrite Z.lxor_0_l. reflexivity.
    + intros p' Hp'. simpl. rewrite length_set. apply Hin. right. exact Hp'.
    + exact Hq.
Qed.

(** Plotting the same cells twice gives the display back. *)
Lemma plot_twice ps d c c' :
  (forall p, In p ps -> 0 <= p.1 < Z.of_nat (length d)) ->
  (plot ps ((plot ps (d, c)).1, c')).1 = d.
Proof.
  intros Hin.
  assert (Hlen : length (plot ps (d, c)).1 = length d) by apply plot_length.
  apply list_eq_get.
  - rewrite plot_length. exact Hlen.
  - intros q Hq. rewrite plot_get.
    + simpl fst. rewrite plot_get by (exact Hin || lia). simpl fst.
      rewrite Z.lxor_assoc, Z.lxor_nilpotent, Z.lxor_0_r. reflexivity.
    + simpl fst. rewrite Hlen. exact Hin.
    + lia.
Qed.

Lemma xor_at_notin ps q : ~ In q (map fst ps) -> xor_at ps q = 0.
Proof.
  induction ps as [|p ps IH]; intros Hq; [reflexivity |].
  simpl in *. destruct (Z.eqb_spec p.1 q) as [Heq | Hne].
  - exfalso. apply Hq. left. exact Heq.
  - rewrite IH by (intros H; apply Hq; right; exact H). reflexivity.
Qed.

Lemma xor_at_in ps p :
  NoDup (map fst ps) -> In p ps -> xor_at ps p.1 = p.2.
Proof.
  induction ps as [|p0 ps IH]; intros Hnd Hin; [destruct Hin |].
  simpl in Hnd. apply NoDup_cons in Hnd as [Hhead Htail].
  rewrite list_elem_of_In in Hhead.
  simpl. destruct Hin as [-> | Hin].
  - rewrite Z.eqb_refl, xor_at_notin by exact Hhead. apply Z.lxor_0_r.
  - destruct (Z.eqb_spec p0.1 p.1) as [Heq | Hne].
    + exfalso. apply Hhead. rewrite Heq. apply in_map. exact Hin.
    + rewrite Z.lxor_0_l. apply IH; assumption.
Qed.

Lemma existsb_ext_in {A : Type} (f g : A -> bool) (l : list A) :
  (forall a, In a l -> f a = g a) -> existsb f l = existsb g l.
Proof.
  induction l as [|a l IH]; intros H; [reflexivity |]. simpl.
  rewrite (H a) by (left; reflexivity).
  rewrite IH by (intros b Hb; apply H; right; exact Hb). reflexivity.
Qed.

(** The collision flag after [plot] over cells that are pairwise distinct:
    raised exactly when a set sprite bit meets a cell that was 1. *)
Lemma plot_collide ps : forall s,
  NoDup (map fst ps) ->
  (forall p, In p ps -> 0 <= p.1) ->
  (plot ps s).2
  = if existsb (fun p => (get s.1 p.1 =? 1) && (p.2 =? 1)) ps then 1 else s.2.
Proof.
  induction ps as [|p ps IH]; intros s Hnd Hpos; [reflexivity |].
  simpl in Hnd. apply NoDup_cons in Hnd as [Hhead Htail].
  rewrite list_elem_of_In in Hhead.
  rewrite plot_cons, IH; [| exact Htail | intros p' Hp'; apply Hpos; right; exact Hp'].
  rewrite (existsb_ext_in _ (fun p => (get s.1 p.1 =? 1) && (p.2 =? 1))).
  - simpl. destruct ((get s.1 p.1 =? 1) && (p.2 =? 1)); simpl.
    + destruct (existsb _ ps); reflexivity.
    + reflexivity.
  - intros p' Hp'. simpl. rewrite get_set_ne; [reflexivity | | |].
    + apply Hpos. left. reflexivity.
    + apply Hpos. right. exact Hp'.
    + intros Heq. apply Hhead. rewrite Heq. apply in_map. exact Hp'.
Qed.

(** Geometry of the wrapped coordinates. *)
Lemma pixel_index_range x y i j : 0 <= pixel_index x y i j < DISP_SIZE.
Proof.
  unfold pixel_index, DISP_SIZE. unfold DISP_H, DISP_W.
  pose proof (Z.mod_pos_bound (i + y) 32 eq_refl).
  pose proof (Z.mod_pos_bound (x + j) 64 eq_refl). lia.
Qed.

Lemma pixel_index_inj x y i1 j1 i2 j2 :
  -32 < i1 - i2 < 32 -> -64 < j1 - j2 < 64 ->
  pixel_index x y i1 j1 = pixel_index x y i2 j2 -> i1 = i2 /\ j1 = j2.
Proof.
  unfold pixel_index, DISP_H, DISP_W. intros Hi Hj Heq.
  Z.div_mod_to_equations. lia.
Qed.

Lemma in_sprite_row x y e i j cnt p :
  In p (sprite_row x y e i j cnt) <->
  exists j', j <= j' < j + Z.of_nat cnt /\
    p = (pixel_index x y i j', sprite_bit e i j').
Proof.
  unfold sprite_row. rewrite in_map_iff. split.
  - intros (j' & <- & Hj'). apply in_zseq in Hj'. exists j'. auto.
  - intros (j' & Hj' & ->). exists j'. split; [reflexivity |].
    apply in_zseq. exact Hj'.
Qed.

Lemma in_sprite_cells x y e i cnt p :
  In p (sprite_cells x y e i cnt) <->
  exists i' j', i <= i' < i + Z.of_nat cnt /\ 0 <= j' < 8 /\
    p = (pixel_index x y i' j', sprite_bit e i' j').
Proof.
  unfold sprite_cells. rewrite in_flat_map. split.
  - intros (i' & Hi' & Hp). apply in_zseq in Hi'.
    apply in_sprite_row in Hp. destruct Hp as (j' & Hj' & ->).
    exists i', j'. repeat split; lia.
  - intros (i' & j' & Hi' & Hj' & ->). exists i'. split.
    + apply in_zseq. exact Hi'.
    + apply in_sprite_row. exists j'. split; [simpl; lia | reflexivity].
Qed.

Lemma NoDup_sprite_row x y e i (cnt : nat) : forall j,
  (cnt <= 64)%nat -> NoDup (map fst (sprite_row x y e i j cnt)).
Proof.
  induction cnt as [|k IH]; intros j Hk; [constructor |].
  change (sprite_row x y e i j (S k))
    with ((pixel_index x y i j, sprite_bit e i j) :: sprite_row x y e i (j + 1) k).
  simpl. apply NoDup_cons. split.
  - rewrite list_elem_of_In, in_map_iff. intros ([q b] & Hq & Hin).
    simpl in Hq. apply in_sprite_row in Hin.
    destruct Hin as (j' & Hj' & Heq). injection Heq as -> _.
    apply pixel_index_inj in Hq; lia.
  - apply IH. lia.
Qed.

Lemma NoDup_sprite_cells x y e (cnt : nat) : forall i,
  (cnt <= 32)%nat -> NoDup (map fst (sprite_cells x y e i cnt)).
Proof.
  induction cnt as [|k IH]; intros i Hk; [constructor |].
  rewrite sprite_cells_S, map_app. apply NoDup_app. split; [| split].
  - apply NoDup_sprite_row. lia.
  - intros q Hrow Hrest. rewrite list_elem_of_In, in_map_iff in Hrow, Hrest.
    destruct Hrow as ([q1 b1] & Hq1 & Hin1).
    destruct Hrest as ([q2 b2] & Hq2 & Hin2). simpl in Hq1, Hq2. subst q1 q2.
    apply in_sprite_row in Hin1. destruct Hin1 as (j1 & Hj1 & Heq1).
    apply in_sprite_cells in Hin2. destruct Hin2 as (i2 & j2 & Hi2 & Hj2 & Heq2).
    injection Heq1 as -> _. injection Heq2 as Heq _.
    apply pixel_index_inj in Heq; simpl in *; lia.
  - apply IH. lia.
Qed.

Lemma sprite_cells_ext x y e e' i cnt :
  memory (cpu e') = memory (cpu e) -> I (cpu e') = I (cpu e) ->
  sprite_cells x y e' i cnt = sprite_cells x y e i cnt.
Proof.
  intros Hm HI. unfold sprite_cells, sprite_row, sprite_bit.
  rewrite Hm, HI. reflexivity.
Qed.

Lemma dispatch_Dxyn rnd op e :
  Z.shiftr (Z.land op 0xF000) 12 = 0xD ->
  dispatch rnd op e = instr_DRW_Vx_Vy_n op e.
Proof. intros H. unfold dispatch. rewrite H. reflexivity. Qed.

(** One Dxyn, when the sprite rows lie inside the memory. *)
Lemma DRW_plot op e :
  0 <= I (cpu e) -> I (cpu e) + Z.land op 0xF <= MEM_SIZE ->
  instr_DRW_Vx_Vy_n op e =
    Ret (EML_REDRAW,
         set_Vr 0xF
           (plot (sprite_cells (Vr e (op_x op)) (Vr e (op_y op)) e 0
                    (Z.to_nat (Z.land op 0xF)))
              (display (cpu e), 0)).2
           (upd (set_display
                   (plot (sprite_cells (Vr e (op_x op)) (Vr e (op_y op)) e 0
                            (Z.to_nat (Z.land op 0xF)))
                      (display (cpu e), 0)).1) e)).
Proof.
  intros HI Hend. pose proof (land_15_range op) as Hn.
  unfold instr_DRW_Vx_Vy_n. rewrite cells_loop by lia. reflexivity.
Qed.

Lemma existsb_false_in {A : Type} (f : A -> bool) (l : list A) :
  (forall a, In a l -> f a = false) -> existsb f l = false.
Proof.
  intros H. destruct (existsb f l) eqn:E; [| reflexivity].
  apply existsb_exists in E. destruct E as (a & Ha & Hf).
  rewrite (H a Ha) in Hf. discriminate Hf.
Qed.

(** C6, as the code has it.  With the sprite rows inside the memory, Dxyn
    reports [EML_REDRAW], leaves memory and I alone, and exclusive-ors each
    sprite bit onto the cell at column (Vx + j) mod 64 of row (Vy + i) mod
    32; every other cell keeps its value.  Over cells that were all 0 it
    leaves VF = 0.  If the first draw did not change the coordinate
    registers (it writes VF), a second draw of the same opcode gives back
    the display as it was before the first.  Over a background that was 0
    on the sprite's cells, that second draw leaves VF = 1 when the sprite
    has a set bit, and VF = 0 when it has none. *)
Theorem draw_sprite_twice (rnd op : Z) (e : emulator) :
  Z.shiftr (Z.land op 0xF000) 12 = 0xD ->
  length (display (cpu e)) = Z.to_nat DISP_SIZE ->
  length (V (cpu e)) = 16%nat ->
  0 <= I (cpu e) ->
  I (cpu e) + Z.land op 0xF <= MEM_SIZE ->
  exists e1,
    dispatch rnd op e = Ret (EML_REDRAW, e1) /\
    memory (cpu e1) = memory (cpu e) /\ I (cpu e1) = I (cpu e) /\
    (forall i j, in_sprite op i j ->
       sprite_cell op e i j
         = ((Vr e (op_y op) + i) mod 32) * 64 + (Vr e (op_x op) + j) mod 64 /\
       get (display (cpu e1)) (sprite_cell op e i j)
         = Z.lxor (get (display (cpu e)) (sprite_cell op e i j)) (sprite_bit e i j)) /\
    (forall q, 0 <= q ->
       (forall i j, in_sprite op i j -> q <> sprite_cell op e i j) ->
       get (display (cpu e1)) q = get (display (cpu e)) q) /\
    ((forall i j, in_sprite op i j ->
        get (display (cpu e)) (sprite_cell op e i j) = 0) ->
     Vr e1 0xF = 0) /\
    (Vr e1 (op_x op) = Vr e (op_x op) ->
     Vr e1 (op_y op) = Vr e (op_y op) ->
     exists e2,
       dispatch rnd op e1 = Ret (EML_REDRAW, e2) /\
       display (cpu e2) = display (cpu e) /\
       ((forall i j, in_sprite op i j ->
           get (display (cpu e)) (sprite_cell op e i j) = 0) ->
        ((exists i j, in_sprite op i j /\ sprite_bit e i j = 1) ->
         Vr e2 0xF = 1) /\
        ((forall i j, in_sprite op i j -> sprite_bit e i j = 0) ->
         Vr e2 0xF = 0))).
Proof.
  intros HD Hdisp HV HI Hend.
  pose proof (land_15_range op) as Hn.
  set (x := Vr e (op_x op)). set (y := Vr e (op_y op)).
  set (N := Z.to_nat (Z.land op 0xF)).
  set (ps := sprite_cells x y e 0 N).
  set (d := display (cpu e)).
  assert (Hin : forall p, In p ps -> 0 <= p.1 < Z.of_nat (length d)).
  { intros p Hp. apply in_sprite_cells in Hp.
    destruct Hp as (i & j & _ & _ & ->). simpl. unfold d. rewrite Hdisp.
    rewrite Z2Nat.id by (vm_compute; discriminate). apply pixel_index_range. }
  assert (Hnd : NoDup (map fst ps)) by (apply NoDup_sprite_cells; lia).
  assert (Hcell : forall i j, in_sprite op i j ->
            In (sprite_cell op e i j, sprite_bit e i j) ps).
  { intros i j [Hi Hj]. apply in_sprite_cells. exists i, j.
    repeat split; try lia. }
  assert (Hpos : forall p, In p ps -> 0 <= p.1).
  { intros p Hp. apply Hin in Hp. lia. }
  set (s1 := plot ps (d, 0)).
  set (e1 := set_Vr 0xF s1.2 (upd (set_display s1.1) e)).
  assert (Hrun1 : dispatch rnd op e = Ret (EML_REDRAW, e1)).
  { rewrite dispatch_Dxyn by exact HD. apply DRW_plot; assumption. }
  assert (HVF1 : Vr e1 0xF = s1.2).
  { unfold e1. apply Vr_set_eq. simpl. rewrite HV. lia. }
  assert (Hclear : (forall i j, in_sprite op i j ->
                      get d (sprite_cell op e i j) = 0) ->
                   forall p, In p ps -> get d p.1 = 0).
  { intros Hbg p Hp. apply in_sprite_cells in Hp.
    destruct Hp as (i & j & Hi & Hj & ->). simpl. apply (Hbg i j).
    split; lia. }
  exists e1. split; [exact Hrun1 |]. split; [reflexivity |].
  split; [reflexivity |]. split; [| split; [| split]].
  - intros i j Hij. split.
    + unfold sprite_cell, pixel_index, DISP_H, DISP_W.
      rewrite (Z.add_comm i). reflexivity.
    + change (display (cpu e1)) with s1.1. unfold s1.
      rewrite plot_get by (exact Hin || apply pixel_index_range).
      simpl fst. f_equal.
      apply (xor_at_in ps (sprite_cell op e i j, sprite_bit e i j) Hnd).
      apply Hcell. exact Hij.
  - intros q Hq Hout. change (display (cpu e1)) with s1.1. unfold s1.
    rewrite plot_get by assumption. simpl fst.
    rewrite xor_at_notin; [apply Z.lxor_0_r |].
    rewrite in_map_iff. intros ([q' b] & Hq' & Hp). simpl in Hq'. subst q'.
    apply in_sprite_cells in Hp. destruct Hp as (i & j & Hi & Hj & Heq).
    injection Heq as -> _. apply (Hout i j); [split; lia | reflexivity].
  - intros Hbg. rewrite HVF1. unfold s1.
    rewrite plot_collide by assumption. simpl fst; simpl snd.
    rewrite existsb_false_in; [reflexivity |].
    intros p Hp. rewrite (Hclear Hbg p Hp). reflexivity.
  - intros Hx Hy.
    set (s2 := plot ps (s1.1, 0)).
    set (e2 := set_Vr 0xF s2.2 (upd (set_display s2.1) e1)).
    assert (Hrun2 : dispatch rnd op e1 = Ret (EML_REDRAW, e2)).
    { rewrite dispatch_Dxyn by exact HD. rewrite DRW_plot by assumption.
      rewrite Hx, Hy. fold x y.
      rewrite (sprite_cells_ext x y e e1) by reflexivity. reflexivity. }
    exists e2. split; [exact Hrun2 |]. split.
    + change (display (cpu e2)) with s2.1. unfold s2, s1.
      apply plot_twice. exact Hin.
    + intros Hbg.
      assert (HVF2 : Vr e2 0xF = s2.2).
      { unfold e2. apply Vr_set_eq. simpl. rewrite length_set, HV. lia. }
      assert (Hd1 : forall p, In p ps -> get s1.1 p.1 = p.2).
      { intros p Hp. unfold s1. rewrite plot_get by (exact Hin || auto).
        simpl fst. rewrite (Hclear Hbg p Hp), Z.lxor_0_l.
        apply xor_at_in; assumption. }
      rewrite HVF2. unfold s2. rewrite plot_collide by assumption.
      simpl fst; simpl snd. split.
      * intros (i & j & Hij & Hbit).
        assert (E : existsb (fun p => (get s1.1 p.1 =? 1) && (p.2 =? 1)) ps = true).
        { apply existsb_exists. exists (sprite_cell op e i j, sprite_bit e i j).
          split; [apply Hcell; exact Hij |].
          rewrite (Hd1 _ (Hcell i j Hij)). simpl. rewrite Hbit. reflexivity. }
        rewrite E. reflexivity.
      * intros Hblank. rewrite existsb_false_in; [reflexivity |].
        intros p Hp. apply in_sprite_cells in Hp.
        destruct Hp as (i & j & Hi & Hj & ->). simpl snd.
        rewrite (Hblank i j) by (split; lia). apply andb_false_r.
Qed.

Lemma get_replicate_0 (n : nat) (q : Z) : get (replicate n 0) q = 0.
Proof.
  unfold get. destruct (replicate n 0 !! Z.to_nat q) as [z |] eqn:E; [| reflexivity].
  apply lookup_replicate in E. destruct E as [-> _]. reflexivity.
Qed.

(** At the all-set 8x1 sprite drawn at (60, 0): four cells on the right
    edge, four wrapped onto the left edge, no collision; the second draw
    clears them again and reports the collision. *)
Lemma draw_sprite_twice_witness :
  exists e1 e2,
    dispatch 0 0xD011 edge_sprite_machine = Ret (EML_REDRAW, e1) /\
    get (display (cpu e1)) 60 = 1 /\ get (display (cpu e1)) 63 = 1 /\
    get (display (cpu e1)) 0 = 1 /\ get (display (cpu e1)) 3 = 1 /\
    Vr e1 0xF = 0 /\
    dispatch 0 0xD011 e1 = Ret (EML_REDRAW, e2) /\
    display (cpu e2) = display (cpu edge_sprite_machine) /\
    Vr e2 0xF = 1.
Proof.
  destruct (draw_sprite_twice 0 0xD011 edge_sprite_machine)
    as (e1 & Hrun1 & _ & _ & Hpix & _ & HVF1 & Htwice).
  - reflexivity.
  - reflexivity.
  - reflexivity.
  - change (0 <= 0x200). lia.
  - change (0x200 + 1 <= 4096). lia.
  - assert (Hbg : forall i j, in_sprite 0xD011 i j ->
              get (display (cpu edge_sprite_machine))
                (sprite_cell 0xD011 edge_sprite_machine i j) = 0).
    { intros i j _. apply get_replicate_0. }
    assert (Hregs : Vr e1 (op_x 0xD011) = Vr edge_sprite_machine (op_x 0xD011) /\
                    Vr e1 (op_y 0xD011) = Vr edge_sprite_machine (op_y 0xD011)).
    { vm_compute in Hrun1. injection Hrun1 as <-. split; reflexivity. }
    destruct (Htwice (proj1 Hregs) (proj2 Hregs)) as (e2 & Hrun2 & Hdisp & Hflags).
    destruct (Hflags Hbg) as [Hset _].
    assert (Hin : forall j, 0 <= j < 8 -> in_sprite 0xD011 0 j).
    { intros j Hj. split; [change (0 <= 0 < 1); lia | exact Hj]. }
    exists e1, e2.
    split; [exact Hrun1 |].
    split; [exact (proj2 (Hpix 0 0 (Hin 0 ltac:(lia)))) |].
    split; [exact (proj2 (Hpix 0 3 (Hin 3 ltac:(lia)))) |].
    split; [exact (proj2 (Hpix 0 4 (Hin 4 ltac:(lia)))) |].
    split; [exact (proj2 (Hpix 0 7 (Hin 7 ltac:(lia)))) |].
    split; [exact (HVF1 Hbg) |].
    split; [exact Hrun2 |].
    split; [exact Hdisp |].
    apply Hset. exists 0, 0. split; [apply Hin; lia | reflexivity].
Defined.

(** C6 as stated fails for a sprite without a set bit.
    [A3 00; D0 01; D0 01]: I = 0x300, where the memory holds 0, then the
    1-row sprite is drawn twice at (V0, V0) = (0, 0) over the empty
    display.  Both draws report [EML_REDRAW] and the second leaves VF = 0,
    not 1. *)
Lemma draw_blank_sprite_counterexample :
  res_map (fun r => (r.1, opcode r.2, Vr r.2 0, Vr r.2 0xF,
                     get (memory (cpu r.2)) (I (cpu r.2))))
      (run 0 2 (boot [0xA3; 0x00; 0xD0; 0x01; 0xD0; 0x01]))
    = Ret ([EML_OK; EML_REDRAW], 0xD001, 0, 0, 0) /\
  res_map (fun r => (r.1, opcode r.2, Vr r.2 0, Vr r.2 0xF,
                     get (memory (cpu r.2)) (I (cpu r.2))))
      (run 0 3 (boot [0xA3; 0x00; 0xD0; 0x01; 0xD0; 0x01]))
    = Ret ([EML_OK; EML_REDRAW; EML_REDRAW], 0xD001, 0, 0, 0).
Proof. vm_compute. split; reflexivity. Qed.

(** ** The key wait *)

(** What Fx0A does in the engine, for any machine: with no key latched the
    cycle sets [key_waiting], having already moved the PC past the
    instruction; a waiting cycle is a no-op; and the key-down event that
    ends the wait leaves the PC where it is, after the Fx0A. *)
Lemma key_wait_protocol rnd e op key :
  key_waiting e = false -> PC (cpu e) + 1 < MEM_SIZE ->
  brk_point_set e = false ->
  fetch e = Ret op ->
  Z.shiftr (Z.land op 0xF000) 12 = 0xF -> Z.land op 0xFF = 0x0A ->
  last_key e = C8K_NONE ->
  let e1 := set_key_waiting true (advance op e) in
  emulator_cycle rnd e = Ret (EML_OK, e1) /\
  emulator_cycle rnd e1 = Ret (EML_OK, e1) /\
  PC (cpu (keypad_pressed key e1)) = PC (cpu e) + 2 /\
  Vr (keypad_pressed key e1) (op_x op) = Vr e (op_x op) /\
  last_key (keypad_pressed key e1) = sdlk_to_c8k key /\
  key_waiting (keypad_pressed key e1) = false.
Proof.
  intros Hk Hpc Hbrk Hf HF H0A Hlast e1.
  pose proof (fetch_PC_nonneg e op Hf) as Hp0.
  assert (Hd : dispatch rnd op (advance op e) = Ret (EML_OK, e1)).
  { rewrite dispatch_0xF by exact HF. unfold case_0xF. rewrite H0A. simpl.
    unfold instr_LD_Vx_K. change (last_key (advance op e)) with (last_key e).
    rewrite Hlast. reflexivity. }
  split.
  - rewrite (cycle_step rnd e op _ _ Hk Hpc Hf Hd).
    rewrite brk_check_off by exact Hbrk. reflexivity.
  - split; [reflexivity |]. split; [| repeat split].
    unfold keypad_pressed. simpl. apply u16_small. unfold MEM_SIZE in Hpc. lia.
Qed.

(** C1: the code at the failing input.  Program [F1 0A; 62 2A] at 0x200.
    The first cycle executes F10A with no key latched and leaves PC = 0x202
    and [key_waiting] set; two more cycles change nothing.  After key 5 goes
    down, the next cycle does not execute F10A again: it executes 622A at
    0x202, V1 stays 0 instead of receiving 5, and the latch [last_key] still
    holds 5. *)
Theorem key_wait_is_not_resumed :
  res_map (fun r => (r.1, opcode r.2, PC (cpu r.2), key_waiting r.2, last_key r.2))
      (run 0 1 (boot [0xF1; 0x0A; 0x62; 0x2A]))
    = Ret ([EML_OK], 0xF10A, 0x202, true, C8K_NONE) /\
  res_map (fun r => (r.1, opcode r.2, PC (cpu r.2), key_waiting r.2, last_key r.2))
      (run 0 3 (boot [0xF1; 0x0A; 0x62; 0x2A]))
    = Ret ([EML_OK; EML_OK; EML_OK], 0xF10A, 0x202, true, C8K_NONE) /\
  res_map (fun r => (r.1, opcode r.2, PC (cpu r.2), key_waiting r.2, last_key r.2,
                     Vr r.2 1, Vr r.2 2))
      (r ← run 0 3 (boot [0xF1; 0x0A; 0x62; 0x2A]);
       run 0 1 (keypad_pressed SDLK_w r.2))
    = Ret ([EML_OK], 0x622A, 0x204, false, 5, 0, 0x2A).
Proof. vm_compute. repeat split. Qed.

(** ** Unknown opcodes *)

(** No opcode of the 0 family or of the 8 family is reported as unknown:
    whatever the inner [switch] does not match runs JP, respectively SNE. *)
Lemma family_0_never_unknown rnd op e st e' :
  Z.shiftr (Z.land op 0xF000) 12 = 0 ->
  dispatch rnd op e = Ret (st, e') -> st <> EML_UNK_OPC.
Proof.
  intros H0 H. unfold dispatch in H. rewrite H0 in H. simpl in H.
  unfold case_0x0, case_0x1, instr_CLS, instr_RET, instr_JP_nnn in H.
  cbv zeta in H.
  repeat match type of H with
         | context [if ?c then _ else _] => destruct c
         end;
    injection H as <- _; discriminate.
Qed.

Lemma family_8_never_unknown rnd op e st e' :
  Z.shiftr (Z.land op 0xF000) 12 = 8 ->
  dispatch rnd op e = Ret (st, e') -> st <> EML_UNK_OPC.
Proof.
  intros H8 H. rewrite dispatch_0x8 in H by exact H8.
  unfold case_0x8, case_0x9 in H. cbv zeta in H.
  repeat match type of H with
         | context [if ?c then _ else _] => destruct c
         end;
    injection H as <- _; discriminate.
Qed.

(** An opcode of the E family that the inner [switch] does not match is
    handled as the opcode of the F family with the same low byte. *)
Lemma family_E_falls_into_F rnd op e :
  Z.shiftr (Z.land op 0xF000) 12 = 0xE ->
  Z.land op 0xFF <> 0x9E -> Z.land op 0xFF <> 0xA1 ->
  dispatch rnd op e = case_0xF op e.
Proof.
  intros HE H9E HA1. unfold dispatch. rewrite HE. simpl.
  unfold case_0xE. cbv zeta.
  destruct (Z.eqb_spec (Z.land op 0xFF) 0x9E) as [H | _]; [contradiction |].
  destruct (Z.eqb_spec (Z.land op 0xFF) 0xA1) as [H | _]; [contradiction |].
  reflexivity.
Qed.

(** In the F family, the last [case], an unassigned low byte does leave the
    initial status [EML_UNK_OPC] and the emulator as the handler found it. *)
Lemma family_F_unknown rnd op e :
  Z.shiftr (Z.land op 0xF000) 12 = 0xF ->
  ~ In (Z.land op 0xFF) [0x07; 0x0A; 0x15; 0x18; 0x1E; 0x29; 0x33; 0x55; 0x65] ->
  dispatch rnd op e = Ret (EML_UNK_OPC, e).
Proof.
  intros HF Hlo. rewrite dispatch_0xF by exact HF. unfold case_0xF. cbv zeta.
  repeat match goal with
         | |- context [Z.land op 255 =? ?k] =>
             destruct (Z.eqb_spec (Z.land op 255) k) as [Heq | _];
             [exfalso; apply Hlo; rewrite Heq; simpl; tauto |]
         end.
  reflexivity.
Qed.

(** The single-file variant reports them: its [_b0] and [_b8] end in
    [return EML_UNK_OPC]. *)
Lemma flat_family_0_unknown e :
  Z.land (opcode e) 0xFF <> 0xE0 -> Z.land (opcode e) 0xFF <> 0xEE ->
  Flat._b0 e = Ret (Flat.EML_UNK_OPC, e).
Proof.
  intros HE0 HEE. unfold Flat._b0. cbv zeta.
  destruct (Z.eqb_spec (Z.land (opcode e) 0xFF) 0xE0) as [H | _]; [contradiction |].
  destruct (Z.eqb_spec (Z.land (opcode e) 0xFF) 0xEE) as [H | _]; [contradiction |].
  reflexivity.
Qed.

Lemma flat_family_8_unknown e :
  7 < Z.land (opcode e) 0xF -> Z.land (opcode e) 0xF <> 0xE ->
  Flat._b8 e = Ret (Flat.EML_UNK_OPC, e).
Proof.
  intros H7 HE. unfold Flat._b8. cbv zeta.
  repeat match goal with
         | |- context [Z.land (opcode e) 15 =? ?k] =>
             destruct (Z.eqb_spec (Z.land (opcode e) 15) k); [lia |]
         end.
  reflexivity.
Qed.

(** C2: the code at three failing inputs, next to the single-file variant.
    [01 23] (0 family, low byte neither E0 nor EE) runs JP 0x123.
    [61 05; 81 28] (8 family, low nibble 8) runs SNE V1, V2 and skips.
    [6A 09; FA 15; E1 07] (E family, low byte 07) runs LD V1, DT.
    Each reports [EML_OK]; [chip8_cycle] reports [EML_UNK_OPC] and changes
    nothing but the PC. *)
Theorem unknown_opcode_falls_through :
  res_map (fun r => (r.1, opcode r.2, PC (cpu r.2)))
      (run 0 1 (boot [0x01; 0x23]))
    = Ret ([EML_OK], 0x0123, 0x123) /\
  res_map (fun r => (r.1, opcode r.2, PC (cpu r.2)))
      (flat_run 0 1 (boot [0x01; 0x23]))
    = Ret ([Flat.EML_UNK_OPC], 0x0123, 0x202) /\
  res_map (fun r => (r.1, opcode r.2, PC (cpu r.2)))
      (run 0 2 (boot [0x61; 0x05; 0x81; 0x28]))
    = Ret ([EML_OK; EML_OK], 0x8128, 0x206) /\
  res_map (fun r => (r.1, opcode r.2, PC (cpu r.2)))
      (flat_run 0 2 (boot [0x61; 0x05; 0x81; 0x28]))
    = Ret ([Flat.EML_OK; Flat.EML_UNK_OPC], 0x8128, 0x204) /\
  res_map (fun r => (r.1, opcode r.2, DT (cpu r.2), Vr r.2 1))
      (run 0 3 (boot [0x6A; 0x09; 0xFA; 0x15; 0xE1; 0x07]))
    = Ret ([EML_OK; EML_OK; EML_OK], 0xE107, 9, 9) /\
  res_map (fun r => (r.1, opcode r.2, DT (cpu r.2), Vr r.2 1))
      (flat_run 0 3 (boot [0x6A; 0x09; 0xFA; 0x15; 0xE1; 0x07]))
    = Ret ([Flat.EML_OK; Flat.EML_OK; Flat.EML_UNK_OPC], 0xE107, 9, 0).
Proof. vm_compute. repeat split. Qed.

(** ** Memory bounds *)

(** Fx33 stays inside the memory exactly when I + 2 does. *)
Lemma BCD_store_bounds op e :
  0 <= I (cpu e) ->
  (I (cpu e) + 2 < MEM_SIZE -> exists e', instr_LD_B_Vx op e = Ret (EML_OK, e')) /\
  (MEM_SIZE <= I (cpu e) + 2 ->
   exists a, MEM_SIZE <= a <= I (cpu e) + 2 /\
     instr_LD_B_Vx op e = Undef (OutOfBoundsWrite a)).
Proof.
  intros HI. unfold instr_LD_B_Vx. split.
  - intros Hin. rewrite mem_write_in_bounds by lia. simpl.
    rewrite mem_write_in_bounds by lia. simpl.
    rewrite mem_write_in_bounds by lia. simpl. eexists. reflexivity.
  - intros Hout.
    destruct (Z.lt_ge_cases (I (cpu e)) MEM_SIZE) as [H0 | H0].
    + rewrite mem_write_in_bounds by lia. simpl.
      destruct (Z.lt_ge_cases (I (cpu e) + 1) MEM_SIZE) as [H1 | H1].
      * rewrite mem_write_in_bounds by lia. simpl.
        rewrite mem_write_out_of_bounds by lia.
        exists (I (cpu e) + 2). split; [lia | reflexivity].
      * rewrite mem_write_out_of_bounds by lia.
        exists (I (cpu e) + 1). split; [lia | reflexivity].
    + rewrite mem_write_out_of_bounds by lia.
      exists (I (cpu e)). split; [lia | reflexivity].
Qed.

(** C3: the code at three failing inputs.  [AF FF; F0 33]: I = 0xFFF, then
    the BCD store writes memory[0xFFF] and goes on to memory[0x1000].
    [AF FF; F1 55]: the dump of V0, V1 does the same.
    [AF FF; 60 FF; F0 1E; F0 33]: I = 0xFFF + 0xFF = 0x10FE after Fx1E, and
    the BCD store starts outside the memory. *)
Theorem store_outside_memory :
  run 0 2 (boot [0xAF; 0xFF; 0xF0; 0x33]) = Undef (OutOfBoundsWrite 0x1000) /\
  run 0 2 (boot [0xAF; 0xFF; 0xF1; 0x55]) = Undef (OutOfBoundsWrite 0x1000) /\
  res_map (fun r => (r.1, I (cpu r.2), Vr r.2 0xF))
      (run 0 3 (boot [0xAF; 0xFF; 0x60; 0xFF; 0xF0; 0x1E; 0xF0; 0x33]))
    = Ret ([EML_OK; EML_OK; EML_OK], 0x10FE, 1) /\
  run 0 4 (boot [0xAF; 0xFF; 0x60; 0xFF; 0xF0; 0x1E; 0xF0; 0x33])
    = Undef (OutOfBoundsWrite 0x10FE).
Proof. vm_compute. repeat split. Qed.

(** ** Where the single-file variant differs *)

(** [chip8_cycle] records [prev_PC] after the PC has moved, so a breakpoint
    at 0x202 fires on the cycle that retires the instruction at 0x200. *)
Example flat_breakpoint_compares_advanced_PC :
  res_map (fun r => (r.1, prev_PC r.2))
      (flat_run 0 1 (set_breakpoint true 0x202 (boot [0x6A; 0x2A; 0x6B; 0x07])))
    = Ret ([Flat.EML_BRK_REACHED], 0x202) /\
  res_map (fun r => (r.1, prev_PC r.2))
      (run 0 2 (set_breakpoint true 0x202 (boot [0x6A; 0x2A; 0x6B; 0x07])))
    = Ret ([EML_OK; EML_BRK_REACHED], 0x202).
Proof. vm_compute. split; reflexivity. Qed.

(** [_bF] moves I past the block after Fx55 and Fx65. *)
Example flat_register_dump_moves_I :
  res_map (fun r => (r.1, I (cpu r.2)))
      (flat_run 0 2 (boot [0xA3; 0x00; 0xF2; 0x55]))
    = Ret ([Flat.EML_OK; Flat.EML_OK], 0x303) /\
  res_map (fun r => (r.1, I (cpu r.2)))
      (run 0 2 (boot [0xA3; 0x00; 0xF2; 0x55]))
    = Ret ([EML_OK; EML_OK], 0x300) /\
  res_map (fun r => (r.1, I (cpu r.2)))
      (flat_run 0 2 (boot [0xA3; 0x00; 0xF2; 0x65]))
    = Ret ([Flat.EML_OK; Flat.EML_OK], 0x303) /\
  res_map (fun r => (r.1, I (cpu r.2)))
      (run 0 2 (boot [0xA3; 0x00; 0xF2; 0x65]))
    = Ret ([EML_OK; EML_OK], 0x300).
Proof. vm_compute. repeat split. Qed.

(** ** Well-formed emulators: an invariant of the engine *)

Lemma byte_u8 z : byte (u8 z).
Proof. unfold byte, u8. apply Z.mod_pos_bound. reflexivity. Qed.

Lemma word_u16 z : word (u16 z).
Proof. unfold word, u16. apply Z.mod_pos_bound. reflexivity. Qed.

Lemma byte_op_kk op : byte (op_kk op).
Proof. unfold op_kk. rewrite land_255_mod. apply byte_u8. Qed.

Lemma word_op_nnn op : word (op_nnn op).
Proof.
  unfold op_nnn, word. change 0xFFF with (Z.ones 12).
  rewrite Z.land_ones by lia.
  pose proof (Z.mod_pos_bound op (2 ^ 12) eq_refl). lia.
Qed.

Lemma get_Forall (P : Z -> Prop) (l : list Z) i :
  P 0 -> Forall P l -> P (get l i).
Proof.
  intros H0 Hl. unfold get.
  destruct (l !! Z.to_nat i) as [z |] eqn:E; simpl; [| exact H0].
  exact (Forall_lookup_1 P l (Z.to_nat i) z Hl E).
Qed.

Lemma set_Forall (P : Z -> Prop) (l : list Z) i v :
  Forall P l -> P v -> Forall P (set l i v).
Proof. intros Hl Hv. unfold set. apply Forall_insert; assumption. Qed.

Lemma byte_Vr e i : well_formed e -> byte (Vr e i).
Proof.
  intros H. unfold Vr. apply get_Forall; [unfold byte; lia | apply (wf_V e H)].
Qed.

Lemma byte_memory e a : well_formed e -> byte (get (memory (cpu e)) a).
Proof.
  intros H. apply get_Forall; [unfold byte; lia | apply (wf_memory e H)].
Qed.

(** Bitwise operations on two bytes, by enumeration. *)
Lemma byte_binop (f : Z -> Z -> Z) :
  forallb (fun a => forallb (fun b => is_u8 (f a b)) (zseq 0 256)) (zseq 0 256) = true ->
  forall a b, byte a -> byte b -> byte (f a b).
Proof.
  intros H a b Ha Hb.
  pose proof (byte_forall _ H a Ha) as H1. cbv beta in H1.
  pose proof (byte_forall _ H1 b Hb) as H2. cbv beta in H2. unfold is_u8 in H2.
  apply andb_true_iff in H2. destruct H2 as [H2 H3].
  unfold byte. split; [apply Z.leb_le; exact H2 | apply Z.ltb_lt; exact H3].
Qed.

Lemma byte_lor a b : byte a -> byte b -> byte (Z.lor a b).
Proof. apply byte_binop. vm_compute. reflexivity. Qed.

Lemma byte_land a b : byte a -> byte b -> byte (Z.land a b).
Proof. apply byte_binop. vm_compute. reflexivity. Qed.

Lemma byte_lxor a b : byte a -> byte b -> byte (Z.lxor a b).
Proof. apply byte_binop. vm_compute. reflexivity. Qed.

Lemma byte_land_r z k : byte k -> byte (Z.land z k).
Proof.
  intros Hk.
  assert (E : Z.land z k = Z.land (z mod 256) k).
  { rewrite <- (land_255_mod z), <- Z.land_assoc.
    rewrite (Z.land_comm 0xFF k), land_255_mod.
    unfold byte in Hk. rewrite Z.mod_small by exact Hk. reflexivity. }
  rewrite E. apply byte_land; [apply byte_u8 | exact Hk].
Qed.

Lemma byte_shiftr a k : byte a -> 0 <= k -> byte (Z.shiftr a k).
Proof.
  unfold byte. intros Ha Hk. rewrite Z.shiftr_div_pow2 by exact Hk.
  assert (0 < 2 ^ k) by (apply Z.pow_pos_nonneg; lia).
  split; [apply Z.div_pos; lia |].
  apply Z.le_lt_trans with a; [| lia].
  apply Z.div_le_upper_bound; [lia |]. nia.
Qed.

Lemma byte_flag (c : bool) : byte (if c then 1 else 0).
Proof. unfold byte. destruct c; lia. Qed.

Lemma bit_lxor a b : bit a -> bit b -> bit (Z.lxor a b).
Proof. intros [-> | ->] [-> | ->]; vm_compute; auto. Qed.

Lemma bit_land_1 z : bit (Z.land z 1).
Proof.
  change 1 with (Z.ones 1) at 1. rewrite Z.land_ones by lia.
  pose proof (Z.mod_pos_bound z (2 ^ 1) eq_refl) as H. change (2 ^ 1) with 2 in *.
  unfold bit. lia.
Qed.

(** Assignments that keep an emulator well formed. *)
Lemma wf_set_Vr e i v : well_formed e -> byte v -> well_formed (set_Vr i v e).
Proof.
  intros [] Hv. constructor; simpl; try assumption.
  - rewrite length_set. assumption.
  - apply set_Forall; assumption.
Qed.

Lemma wf_set_PC e p : well_formed e -> word p -> well_formed (upd (set_PC p) e).
Proof. intros [] Hp. constructor; simpl; assumption. Qed.

Lemma wf_set_I e i : well_formed e -> word i -> well_formed (upd (set_I i) e).
Proof. intros [] Hi. constructor; simpl; assumption. Qed.

Lemma wf_set_DT e t : well_formed e -> byte t -> well_formed (upd (set_DT t) e).
Proof. intros [] Ht. constructor; simpl; assumption. Qed.

Lemma wf_set_ST e t : well_formed e -> byte t -> well_formed (upd (set_ST t) e).
Proof. intros [] Ht. constructor; simpl; assumption. Qed.

Lemma wf_set_display e d :
  well_formed e -> length d = length (display (cpu e)) -> Forall bit d ->
  well_formed (upd (set_display d) e).
Proof. intros [] Hlen Hd. constructor; simpl; try assumption. congruence. Qed.

Lemma wf_skip_if c e : well_formed e -> well_formed (skip_if c e).
Proof.
  intros H. unfold skip_if. destruct c; [| exact H].
  apply wf_set_PC; [exact H | apply word_u16].
Qed.

Lemma wf_mem_write a v e e' :
  well_formed e -> byte v -> mem_write a v e = Ret e' -> well_formed e'.
Proof.
  intros [] Hv H. unfold mem_write in H.
  destruct (_ && _); [| discriminate H]. injection H as <-.
  constructor; simpl; try assumption.
  - rewrite length_set. assumption.
  - apply set_Forall; assumption.
Qed.

Lemma wf_set_key_waiting e b : well_formed e -> well_formed (set_key_waiting b e).
Proof. intros []. constructor; simpl; assumption. Qed.

Lemma wf_set_last_key e k :
  well_formed e -> C8K_NONE <= k < 16 -> well_formed (set_last_key k e).
Proof. intros [] Hk. constructor; simpl; assumption. Qed.

Lemma byte_last_key e : byte (u8 (last_key e)).
Proof. apply byte_u8. Qed.

Lemma byte_div a k : byte a -> 0 < k -> byte (a / k).
Proof.
  unfold byte. intros Ha Hk. split; [apply Z.div_pos; lia |].
  apply Z.le_lt_trans with a; [| lia].
  apply Z.div_le_upper_bound; [lia | nia].
Qed.

Lemma byte_mod_10 a : byte (a mod 10).
Proof. unfold byte. pose proof (Z.mod_pos_bound a 10 eq_refl). lia. Qed.

Create HintDb wf.
#[local] Hint Resolve byte_u8 word_u16 byte_op_kk word_op_nnn byte_Vr
  byte_memory byte_lor byte_land byte_lxor byte_land_r byte_shiftr byte_flag
  byte_div byte_mod_10 wf_set_Vr wf_set_PC wf_set_I wf_set_DT wf_set_ST
  wf_skip_if wf_set_key_waiting wf_set_last_key : wf.

(** Handlers made of assignments to registers, timers, PC and I. *)
Ltac wf_handler :=
  let H := fresh "H" in
  intros ? ? ? ? ? H; cbv zeta in H; injection H as <- <-;
  auto 8 with wf.

Lemma wf_CLS : preserves_well_formed instr_CLS.
Proof.
  intros op e st e' Hwf H.
  assert (He' : e' = upd (set_display (replicate (Z.to_nat DISP_SIZE) 0)) e)
    by (unfold instr_CLS in H; congruence).
  subst e'. apply wf_set_display; [exact Hwf | |].
  - rewrite length_replicate. symmetry. apply (wf_display_length e Hwf).
  - apply Forall_replicate. left. reflexivity.
Qed.

Lemma wf_RET : preserves_well_formed instr_RET.
Proof.
  intros op e st e' Hwf H. unfold instr_RET in H.
  destruct (Z.eqb_spec (SP (cpu e)) 0) as [Heq | Hne]; injection H as <- <-;
    [exact Hwf |].
  pose proof (wf_SP e Hwf) as HSP. unfold STACK_SIZE in HSP.
  assert (Hw : word (get (stack (cpu e)) (u8 (SP (cpu e) - 1)))).
  { apply get_Forall; [unfold word; lia | apply (wf_stack e Hwf)]. }
  destruct Hwf. constructor; simpl; try assumption.
  rewrite u8_small by lia. unfold STACK_SIZE. lia.
Qed.

Lemma wf_CALL_nnn : preserves_well_formed instr_CALL_nnn.
Proof.
  intros op e st e' Hwf H. unfold instr_CALL_nnn in H.
  destruct (Z.eqb_spec (SP (cpu e)) STACK_SIZE) as [Heq | Hne];
    injection H as <- <-; [exact Hwf |].
  pose proof (wf_SP e Hwf) as HSP. unfold STACK_SIZE in HSP, Hne.
  pose proof (word_op_nnn op) as Hnnn.
  destruct Hwf. constructor; simpl; try assumption.
  - rewrite length_set. assumption.
  - apply set_Forall; assumption.
  - rewrite u8_small by lia. unfold STACK_SIZE. lia.
Qed.

Lemma wf_JP_nnn : preserves_well_formed instr_JP_nnn.
Proof. unfold instr_JP_nnn. wf_handler. Qed.
Lemma wf_SE_Vx_kk : preserves_well_formed instr_SE_Vx_kk.
Proof. unfold instr_SE_Vx_kk. wf_handler. Qed.
Lemma wf_SNE_Vx_kk : preserves_well_formed instr_SNE_Vx_kk.
Proof. unfold instr_SNE_Vx_kk. wf_handler. Qed.
Lemma wf_SE_Vx_Vy : preserves_well_formed instr_SE_Vx_Vy.
Proof. unfold instr_SE_Vx_Vy. wf_handler. Qed.
Lemma wf_LD_Vx_kk : preserves_well_formed instr_LD_Vx_kk.
Proof. unfold instr_LD_Vx_kk. wf_handler. Qed.
Lemma wf_ADD_Vx_kk : preserves_well_formed instr_ADD_Vx_kk.
Proof. unfold instr_ADD_Vx_kk. wf_handler. Qed.
Lemma wf_LD_Vx_Vy : preserves_well_formed instr_LD_Vx_Vy.
Proof. unfold instr_LD_Vx_Vy. wf_handler. Qed.
Lemma wf_OR_Vx_Vy : preserves_well_formed instr_OR_Vx_Vy.
Proof. unfold instr_OR_Vx_Vy. wf_handler. Qed.
Lemma wf_AND_Vx_Vy : preserves_well_formed instr_AND_Vx_Vy.
Proof. unfold instr_AND_Vx_Vy. wf_handler. Qed.
Lemma wf_XOR_Vx_Vy : preserves_well_formed instr_XOR_Vx_Vy.
Proof. unfold instr_XOR_Vx_Vy. wf_handler. Qed.
Lemma wf_ADD_Vx_Vy : preserves_well_formed instr_ADD_Vx_Vy.
Proof.
  unfold instr_ADD_Vx_Vy. intros op e st e' Hwf H. cbv zeta in H.
  injection H as <- <-. apply wf_set_Vr; [apply wf_set_Vr |]; auto with wf.
  rewrite land_255_mod. apply byte_u8.
Qed.
Lemma wf_SUB_Vx_Vy : preserves_well_formed instr_SUB_Vx_Vy.
Proof. unfold instr_SUB_Vx_Vy. wf_handler. Qed.
Lemma wf_SHR_Vx__Vy : preserves_well_formed instr_SHR_Vx__Vy.
Proof.
  unfold instr_SHR_Vx__Vy. intros op e st e' Hwf H. cbv zeta in H.
  injection H as <- <-.
  assert (H1 : well_formed (set_Vr 0xF (Z.land (Vr e (op_x op)) 0x01) e)).
  { apply wf_set_Vr; [exact Hwf |]. apply byte_land_r. unfold byte. lia. }
  apply wf_set_Vr; [exact H1 |]. apply byte_shiftr; [| lia].
  apply byte_Vr. exact H1.
Qed.
Lemma wf_SUBN_Vx_Vy : preserves_well_formed instr_SUBN_Vx_Vy.
Proof. unfold instr_SUBN_Vx_Vy. wf_handler. Qed.
Lemma wf_SHL_Vx_Vy : preserves_well_formed instr_SHL_Vx_Vy.
Proof.
  unfold instr_SHL_Vx_Vy. intros op e st e' Hwf H. cbv zeta in H.
  injection H as <- <-. apply wf_set_Vr; [apply wf_set_Vr |]; auto with wf.
  apply byte_shiftr; [| lia]. apply byte_land_r. unfold byte. lia.
Qed.
Lemma wf_SNE_Vx_Vy : preserves_well_formed instr_SNE_Vx_Vy.
Proof. unfold instr_SNE_Vx_Vy. wf_handler. Qed.
Lemma wf_LD_I_nnn : preserves_well_formed instr_LD_I_nnn.
Proof. unfold instr_LD_I_nnn. wf_handler. Qed.
Lemma wf_JP_V0_nnn : preserves_well_formed instr_JP_V0_nnn.
Proof. unfold instr_JP_V0_nnn. wf_handler. Qed.
Lemma wf_RND_Vx_kk rnd : preserves_well_formed (instr_RND_Vx_kk rnd).
Proof. unfold instr_RND_Vx_kk. wf_handler. Qed.
Lemma wf_LD_Vx_DT : preserves_well_formed instr_LD_Vx_DT.
Proof.
  unfold instr_LD_Vx_DT. intros op e st e' Hwf H. injection H as <- <-.
  apply wf_set_Vr; [exact Hwf | apply (wf_DT e Hwf)].
Qed.
Lemma wf_LD_Vx_K : preserves_well_formed instr_LD_Vx_K.
Proof.
  unfold instr_LD_Vx_K. intros op e st e' Hwf H.
  destruct (last_key e =? C8K_NONE); injection H as <- <-.
  - auto with wf.
  - apply wf_set_last_key; [auto with wf | unfold C8K_NONE; lia].
Qed.
Lemma wf_LD_DT_Vx : preserves_well_formed instr_LD_DT_Vx.
Proof. unfold instr_LD_DT_Vx. wf_handler. Qed.
Lemma wf_LD_ST_Vx : preserves_well_formed instr_LD_ST_Vx.
Proof. unfold instr_LD_ST_Vx. wf_handler. Qed.
Lemma wf_ADD_I_Vx : preserves_well_formed instr_ADD_I_Vx.
Proof. unfold instr_ADD_I_Vx. wf_handler. Qed.
Lemma wf_LD_F_Vx : preserves_well_formed instr_LD_F_Vx.
Proof. unfold instr_LD_F_Vx. wf_handler. Qed.

Lemma wf_SKP_Vx : preserves_well_formed instr_SKP_Vx.
Proof.
  intros op e st e' Hwf H. unfold instr_SKP_Vx in H.
  apply bind_Ret_inv in H. destruct H as (p & _ & H).
  injection H as <- <-. auto with wf.
Qed.

Lemma wf_SKNP_Vx : preserves_well_formed instr_SKNP_Vx.
Proof.
  intros op e st e' Hwf H. unfold instr_SKNP_Vx in H.
  apply bind_Ret_inv in H. destruct H as (p & _ & H).
  injection H as <- <-. auto with wf.
Qed.

Lemma wf_LD_B_Vx : preserves_well_formed instr_LD_B_Vx.
Proof.
  intros op e st e' Hwf H. unfold instr_LD_B_Vx in H. cbv zeta in H.
  apply bind_Ret_inv in H. destruct H as (e1 & H1 & H).
  apply bind_Ret_inv in H. destruct H as (e2 & H2 & H).
  apply bind_Ret_inv in H. destruct H as (e3 & H3 & H).
  injection H as <- <-.
  pose proof (byte_Vr e (op_x op) Hwf) as Hvx.
  apply (wf_mem_write _ _ _ _ Hwf) in H1; [| apply byte_div; [exact Hvx | lia]].
  apply (wf_mem_write _ _ _ _ H1) in H2; [| apply byte_mod_10].
  apply (wf_mem_write _ _ _ _ H2) in H3; [| apply byte_mod_10].
  exact H3.
Qed.

Lemma wf_LD_I_Vx_multi : preserves_well_formed instr_LD_I_Vx_multi.
Proof.
  intros op e st e' Hwf H. unfold instr_LD_I_Vx_multi in H.
  apply bind_Ret_inv in H. destruct H as (e1 & Hloop & H).
  injection H as <- <-.
  apply (for_loop_inv well_formed) in Hloop; [exact Hloop | | exact Hwf].
  intros i s s' Hs Hw. apply (wf_mem_write _ _ _ _ Hs) in Hw; [exact Hw |].
  apply byte_Vr. exact Hs.
Qed.

Lemma wf_LD_Vx_I_multi : preserves_well_formed instr_LD_Vx_I_multi.
Proof.
  intros op e st e' Hwf H. unfold instr_LD_Vx_I_multi in H.
  apply bind_Ret_inv in H. destruct H as (e1 & Hloop & H).
  injection H as <- <-.
  apply (for_loop_inv well_formed) in Hloop; [exact Hloop | | exact Hwf].
  intros i s s' Hs Hr.
  apply bind_Ret_inv in Hr. destruct Hr as (b & Hb & Hr).
  injection Hr as <-. apply wf_set_Vr; [exact Hs |].
  unfold mem_read in Hb. destruct (_ && _); [| discriminate Hb].
  injection Hb as <-. apply byte_memory. exact Hs.
Qed.

Lemma wf_draw_pixel x y i j s s' :
  well_formed s.1 /\ bit s.2 -> draw_pixel x y i j s = Ret s' ->
  well_formed s'.1 /\ bit s'.2.
Proof.
  intros [Hwf Hc] H. unfold draw_pixel in H.
  apply bind_Ret_inv in H. destruct H as (b & _ & H).
  injection H as <-. simpl. split.
  - apply wf_set_display; [exact Hwf | apply length_set |].
    apply set_Forall; [apply (wf_display _ Hwf) |].
    apply bit_lxor; [| apply bit_land_1].
    apply get_Forall; [left; reflexivity | apply (wf_display _ Hwf)].
  - destruct (_ && _); [right; reflexivity | exact Hc].
Qed.

Lemma wf_DRW_Vx_Vy_n : preserves_well_formed instr_DRW_Vx_Vy_n.
Proof.
  intros op e st e' Hwf H. unfold instr_DRW_Vx_Vy_n in H. cbv zeta in H.
  apply bind_Ret_inv in H. destruct H as (s & Hloop & H).
  injection H as <- <-.
  assert (Hs : well_formed s.1 /\ bit s.2).
  { apply (for_loop_inv (fun s => well_formed s.1 /\ bit s.2)) in Hloop;
      [exact Hloop | | split; [exact Hwf | left; reflexivity]].
    intros i s0 s1 Hs0 Hrow.
    apply (for_loop_inv (fun s => well_formed s.1 /\ bit s.2)) in Hrow;
      [exact Hrow | | exact Hs0].
    intros j s2 s3 Hs2 Hpix. exact (wf_draw_pixel _ _ _ _ _ _ Hs2 Hpix). }
  destruct Hs as [Hs1 Hs2]. apply wf_set_Vr; [exact Hs1 |].
  unfold byte. destruct Hs2 as [-> | ->]; lia.
Qed.

Lemma wf_unknown : preserves_well_formed (fun _ e => Ret (EML_UNK_OPC, e)).
Proof. intros op e st e' Hwf H. injection H as <- <-. exact Hwf. Qed.

#[local] Hint Resolve wf_CLS wf_RET wf_CALL_nnn wf_JP_nnn wf_SE_Vx_kk
  wf_SNE_Vx_kk wf_SE_Vx_Vy wf_LD_Vx_kk wf_ADD_Vx_kk wf_LD_Vx_Vy wf_OR_Vx_Vy
  wf_AND_Vx_Vy wf_XOR_Vx_Vy wf_ADD_Vx_Vy wf_SUB_Vx_Vy wf_SHR_Vx__Vy
  wf_SUBN_Vx_Vy wf_SHL_Vx_Vy wf_SNE_Vx_Vy wf_LD_I_nnn wf_JP_V0_nnn
  wf_RND_Vx_kk wf_DRW_Vx_Vy_n wf_SKP_Vx wf_SKNP_Vx wf_LD_Vx_DT wf_LD_Vx_K
  wf_LD_DT_Vx wf_LD_ST_Vx wf_ADD_I_Vx wf_LD_F_Vx wf_LD_B_Vx
  wf_LD_I_Vx_multi wf_LD_Vx_I_multi : wf.

Lemma wf_apply (h : handler) op e st e' :
  preserves_well_formed h -> well_formed e -> h op e = Ret (st, e') ->
  well_formed e'.
Proof. intros Hh Hwf H. exact (Hh op e st e' Hwf H). Qed.

Ltac wf_switch Hwf H :=
  repeat match type of H with
         | context [if ?c then _ else _] => destruct c
         end;
  first [ exact (wf_unknown 0 _ _ _ Hwf H)
        | eapply wf_apply; [| exact Hwf | exact H]; auto with wf ].

Lemma wf_case_0xF : preserves_well_formed case_0xF.
Proof.
  intros op e st e' Hwf H. unfold case_0xF in H. cbv zeta in H. wf_switch Hwf H.
Qed.

Lemma wf_case_0xE : preserves_well_formed case_0xE.
Proof.
  intros op e st e' Hwf H. unfold case_0xE in H. cbv zeta in H.
  pose proof wf_case_0xF. wf_switch Hwf H.
Qed.

Lemma wf_case_0x8 : preserves_well_formed case_0x8.
Proof.
  intros op e st e' Hwf H. unfold case_0x8, case_0x9 in H. cbv zeta in H.
  wf_switch Hwf H.
Qed.

Lemma wf_case_0x0 : preserves_well_formed case_0x0.
Proof.
  intros op e st e' Hwf H. unfold case_0x0, case_0x1 in H. cbv zeta in H.
  wf_switch Hwf H.
Qed.

Lemma wf_dispatch rnd : preserves_well_formed (dispatch rnd).
Proof.
  intros op e st e' Hwf H. unfold dispatch, case_0x1, case_0x9 in H.
  cbv zeta in H.
  pose proof wf_case_0x0. pose proof wf_case_0x8.
  pose proof wf_case_0xE. pose proof wf_case_0xF.
  wf_switch Hwf H.
Qed.

Lemma fetch_word e o : fetch e = Ret o -> word o.
Proof.
  unfold fetch. intros H.
  apply bind_Ret_inv in H. destruct H as (b0 & _ & H).
  apply bind_Ret_inv in H. destruct H as (b1 & _ & H).
  injection H as <-. apply word_u16.
Qed.

Lemma wf_advance e o : well_formed e -> word o -> well_formed (advance o e).
Proof.
  intros Hwf Ho. unfold advance. apply wf_set_PC; [| apply word_u16].
  pose proof (wf_PC e Hwf). destruct Hwf. constructor; simpl; assumption.
Qed.

(** Every call of [emulator_cycle] that returns keeps the emulator well
    formed, so the shapes and ranges assumed in the statements above hold in
    every state the engine reaches from a well-formed one. *)
Lemma emulator_cycle_well_formed rnd e st e' :
  well_formed e -> emulator_cycle rnd e = Ret (st, e') -> well_formed e'.
Proof.
  intros Hwf Hrun.
  destruct (emulator_cycle_inv rnd e st e' Hrun)
    as [(_ & _ & ->) | [(_ & _ & _ & ->) | (_ & _ & _ & o & st0 & Hf & Hd & _)]];
    try exact Hwf.
  apply (wf_dispatch rnd o (advance o e) st0 e'); [| exact Hd].
  apply wf_advance; [exact Hwf | exact (fetch_word e o Hf)].
Qed.

Lemma run_well_formed rnd (n : nat) : forall e sts e',
  well_formed e -> run rnd n e = Ret (sts, e') -> well_formed e'.
Proof.
  induction n as [|k IH]; intros e sts e' Hwf H; simpl in H.
  - injection H as _ <-. exact Hwf.
  - apply bind_Ret_inv in H. destruct H as ([st1 e1] & H1 & H).
    apply bind_Ret_inv in H. destruct H as ([sts2 e2] & H2 & H).
    injection H as _ <-. simpl in H2.
    apply (IH e1 sts2 e2); [| exact H2].
    exact (emulator_cycle_well_formed rnd e st1 e1 Hwf H1).
Qed.

Lemma emulator_init_well_formed : well_formed emulator_init.
Proof.
  unfold emulator_init.
  constructor;
    cbn [cpu memory display V stack SP DT ST PC I opcode prev_PC keypad last_key];
    try (vm_compute; reflexivity); try (unfold byte, word; lia);
    try (unfold STACK_SIZE, C8K_NONE; lia).
  - apply Forall_app. split.
    + unfold chip8_fontset. repeat constructor; discriminate.
    + apply Forall_replicate. unfold byte. lia.
  - apply Forall_replicate. left. reflexivity.
  - apply Forall_replicate. unfold byte. lia.
  - apply Forall_replicate. unfold word. lia.
Qed.

Lemma emulator_load_program_well_formed file e ok e' :
  well_formed e ->
  (forall bytes, file = Some bytes -> Forall byte bytes) ->
  emulator_load_program file e = (ok, e') -> well_formed e'.
Proof.
  intros Hwf Hbytes H. unfold emulator_load_program in H.
  destruct file as [bytes |]; [| injection H as _ <-; exact Hwf].
  specialize (Hbytes bytes eq_refl). cbv zeta in H.
  destruct (Z.gtb_spec (Z.of_nat (length bytes)) (MEM_SIZE - RESERVED_MEM))
    as [Hbig | Hfit]; injection H as _ <-; [exact Hwf |].
  pose proof (wf_memory_length e Hwf) as Hlen.
  pose proof (wf_memory e Hwf) as Hmem.
  unfold MEM_SIZE, RESERVED_MEM in *.
  destruct Hwf. constructor; simpl; try assumption.
  - rewrite !length_app, length_take, length_drop. lia.
  - apply Forall_app. split; [apply Forall_take; exact Hmem |].
    apply Forall_app. split; [exact Hbytes | apply Forall_drop; exact Hmem].
Qed.

Lemma keypad_pressed_well_formed key e :
  well_formed e -> well_formed (keypad_pressed key e).
Proof.
  intros Hwf. unfold keypad_pressed.
  assert (H1 : well_formed
                 (set_keypad (u16 (Z.lor (keypad e) (Z.shiftl 1 (sdlk_to_c8k key)))) e)).
  { pose proof (word_u16 (Z.lor (keypad e) (Z.shiftl 1 (sdlk_to_c8k key)))).
    destruct Hwf. constructor; simpl; assumption. }
  destruct (key_waiting _); [| exact H1].
  apply wf_set_key_waiting. apply wf_set_last_key; [exact H1 |].
  unfold C8K_NONE. destruct key; simpl; lia.
Qed.

Lemma keypad_released_well_formed key e :
  well_formed e -> well_formed (keypad_released key e).
Proof.
  intros Hwf. unfold keypad_released.
  pose proof (word_u16 (Z.lxor (keypad e) (Z.shiftl 1 (sdlk_to_c8k key)))).
  destruct Hwf. constructor; simpl; assumption.
Qed.

Lemma emulator_timer_dec_well_formed e :
  well_formed e -> well_formed (emulator_timer_dec e).
Proof.
  intros Hwf. unfold emulator_timer_dec.
  assert (H1 : well_formed
                 (if ST (cpu e) >? 0 then upd (set_ST (u8 (ST (cpu e) - 1))) e else e)).
  { destruct (ST (cpu e) >? 0); auto with wf. }
  destruct (DT (cpu _) >? 0); auto with wf.
Qed.

Lemma boot_well_formed prog : Forall byte prog -> well_formed (boot prog).
Proof.
  intros Hprog. unfold boot.
  destruct (emulator_load_program (Some prog) emulator_init) as [ok e'] eqn:E.
  apply (emulator_load_program_well_formed (Some prog) emulator_init ok e');
    [apply emulator_init_well_formed | | exact E].
  intros bytes Hb. injection Hb as <-. exact Hprog.
Qed.

(** * More of the engine *)

(** ** Enumeration over bytes and words *)

Lemma word_forall (f : Z -> bool) :
  forallb f (zseq 0 (Z.to_nat 65536)) = true ->
  forall a, 0 <= a < 65536 -> f a = true.
Proof.
  intros H a Ha. rewrite forallb_forall in H. apply H. apply in_zseq. lia.
Qed.

Lemma byte2_forall (f : Z -> Z -> bool) :
  forallb (fun a => forallb (f a) (zseq 0 256)) (zseq 0 256) = true ->
  forall a b, byte a -> byte b -> f a b = true.
Proof.
  intros H a b Ha Hb.
  pose proof (byte_forall _ H a Ha) as H1. cbv beta in H1.
  exact (byte_forall _ H1 b Hb).
Qed.

(** ** Opcode fields and the fetch *)

Lemma family_range (op : Z) : 0 <= Z.shiftr (Z.land op 0xF000) 12 < 16.
Proof.
  assert (E : Z.shiftr (Z.land op 0xF000) 12 = Z.land (Z.shiftr op 12) 0xF).
  { rewrite Z.shiftr_land. reflexivity. }
  rewrite E. apply land_15_range.
Qed.

Lemma opcode_digits (op : Z) :
  word op ->
  op = 4096 * Z.shiftr (Z.land op 0xF000) 12 + 256 * op_x op
       + 16 * op_y op + Z.land op 0xF /\
  op_nnn op = 256 * op_x op + 16 * op_y op + Z.land op 0xF /\
  op_kk op = 16 * op_y op + Z.land op 0xF.
Proof.
  intros Hop.
  assert (H : fields_ok op = true).
  { apply (word_forall fields_ok); [vm_compute; reflexivity | exact Hop]. }
  unfold fields_ok in H.
  apply andb_true_iff in H. destruct H as [H H3].
  apply andb_true_iff in H. destruct H as [H1 H2].
  apply Z.eqb_eq in H1, H2, H3.
  split; [exact H1 |]. split; [exact H2 | exact H3].
Qed.

(** X1.  The fields of an opcode.  A 16-bit opcode is the number with the
    hexadecimal digits: family, x, y, n; its field nnn is the number with the
    digits x, y, n and its field kk the number with the digits y, n.
    Conversely the opcode put together from four digits has these digits as
    its fields. *)
Theorem opcode_fields (op : Z) :
  word op ->
  op = 4096 * Z.shiftr (Z.land op 0xF000) 12 + 256 * op_x op
       + 16 * op_y op + Z.land op 0xF /\
  op_nnn op = 256 * op_x op + 16 * op_y op + Z.land op 0xF /\
  op_kk op = 16 * op_y op + Z.land op 0xF /\
  (forall f x y n,
     0 <= f < 16 -> 0 <= x < 16 -> 0 <= y < 16 -> 0 <= n < 16 ->
     op = 4096 * f + 256 * x + 16 * y + n ->
     Z.shiftr (Z.land op 0xF000) 12 = f /\ op_x op = x /\ op_y op = y /\
     Z.land op 0xF = n).
Proof.
  intros Hop. destruct (opcode_digits op Hop) as (H1 & H2 & H3).
  split; [exact H1 |]. split; [exact H2 |]. split; [exact H3 |].
  intros f x y n Hf Hx Hy Hn Heq.
  pose proof (family_range op). pose proof (op_x_range op).
  pose proof (op_y_range op). pose proof (land_15_range op).
  lia.
Qed.

(** At the opcode D125. *)
Lemma opcode_fields_witness :
  Z.shiftr (Z.land 0xD125 0xF000) 12 = 0xD /\ op_x 0xD125 = 1 /\
  op_y 0xD125 = 2 /\ Z.land 0xD125 0xF = 5 /\ op_nnn 0xD125 = 0x125 /\
  op_kk 0xD125 = 0x25.
Proof.
  destruct (opcode_fields 0xD125) as (_ & Hnnn & Hkk & Hdec).
  - unfold word. lia.
  - destruct (Hdec 0xD 1 2 5 ltac:(lia) ltac:(lia) ltac:(lia) ltac:(lia) ltac:(lia))
      as (Hf & Hx & Hy & Hn).
    split; [exact Hf |]. split; [exact Hx |]. split; [exact Hy |].
    split; [exact Hn |]. split; reflexivity.
Defined.

Lemma lor_shiftl_8 a b :
  byte a -> byte b -> Z.lor (Z.shiftl a 8) b = 256 * a + b.
Proof.
  intros Ha Hb. apply Z.eqb_eq.
  apply (byte2_forall (fun a b => Z.lor (Z.shiftl a 8) b =? 256 * a + b));
    [vm_compute; reflexivity | exact Ha | exact Hb].
Qed.

Lemma fetch_value (e : emulator) :
  well_formed e ->
  PC (cpu e) + 1 < MEM_SIZE ->
  fetch e = Ret (256 * get (memory (cpu e)) (PC (cpu e))
                 + get (memory (cpu e)) (PC (cpu e) + 1)).
Proof.
  intros Hwf Hpc.
  pose proof (wf_PC e Hwf) as HPC. unfold word in HPC.
  pose proof (byte_memory e (PC (cpu e)) Hwf) as Hb0.
  pose proof (byte_memory e (PC (cpu e) + 1) Hwf) as Hb1.
  unfold fetch. rewrite !mem_read_in_bounds by lia. simpl.
  rewrite lor_shiftl_8 by assumption.
  rewrite u16_small; [reflexivity |]. unfold byte in *. lia.
Qed.

(** X2.  The fetch is big-endian.  On a well-formed emulator whose PC and PC +
    1 are inside the memory, the opcode fetched is 256 * memory[PC] +
    memory[PC + 1]: the family and x are the two hexadecimal digits of the
    byte at PC, and kk is the byte at PC + 1. *)
Theorem fetch_big_endian (e : emulator) :
  well_formed e ->
  PC (cpu e) + 1 < MEM_SIZE ->
  exists op,
    fetch e = Ret op /\
    op = 256 * get (memory (cpu e)) (PC (cpu e))
         + get (memory (cpu e)) (PC (cpu e) + 1) /\
    16 * Z.shiftr (Z.land op 0xF000) 12 + op_x op
      = get (memory (cpu e)) (PC (cpu e)) /\
    op_kk op = get (memory (cpu e)) (PC (cpu e) + 1).
Proof.
  intros Hwf Hpc.
  pose proof (byte_memory e (PC (cpu e)) Hwf) as Hb0.
  pose proof (byte_memory e (PC (cpu e) + 1) Hwf) as Hb1.
  pose proof (fetch_value e Hwf Hpc) as Hf.
  set (b0 := get (memory (cpu e)) (PC (cpu e))) in *.
  set (b1 := get (memory (cpu e)) (PC (cpu e) + 1)) in *.
  exists (256 * b0 + b1). split; [exact Hf |]. split; [reflexivity |].
  assert (Hw : word (256 * b0 + b1)) by (unfold word, byte in *; lia).
  destruct (opcode_digits _ Hw) as (Hop & _ & Hkk).
  pose proof (family_range (256 * b0 + b1)).
  pose proof (op_x_range (256 * b0 + b1)).
  pose proof (op_y_range (256 * b0 + b1)).
  pose proof (land_15_range (256 * b0 + b1)).
  unfold byte in *. split; lia.
Qed.

Lemma program_6A2A_6B07 : Forall byte [0x6A; 0x2A; 0x6B; 0x07].
Proof. repeat constructor; discriminate. Qed.

(** At the program [6A 2A; 6B 07], freshly loaded. *)
Lemma fetch_big_endian_witness :
  fetch (boot [0x6A; 0x2A; 0x6B; 0x07]) = Ret 0x6A2A.
Proof.
  destruct (fetch_big_endian (boot [0x6A; 0x2A; 0x6B; 0x07]))
    as (op & Hf & Hop & _).
  - apply boot_well_formed. exact program_6A2A_6B07.
  - reflexivity.
  - rewrite Hf. f_equal. exact Hop.
Defined.

(** ** Where the cycle can leave the C language *)

Lemma for_loop_Undef {T : Type} (P : T -> Prop) (body : Z -> T -> res T) :
  (forall k s s', P s -> body k s = Ret s' -> P s') ->
  forall cnt i s u, P s -> for_loop cnt i body s = Undef u ->
  exists k s0, i <= k < i + Z.of_nat cnt /\ P s0 /\ body k s0 = Undef u.
Proof.
  intros Hbody cnt. induction cnt as [|c IH]; intros i s u Hs H; simpl in H.
  - discriminate H.
  - destruct (body i s) as [s1 | u1] eqn:E; simpl in H.
    + destruct (IH (i + 1) s1 u (Hbody _ _ _ Hs E) H) as (k & s0 & Hk & Hp & Hb).
      exists k, s0. split; [lia |]. split; assumption.
    + injection H as <-. exists i, s. split; [lia |]. split; assumption.
Qed.

Lemma mem_write_Undef a v e u :
  mem_write a v e = Undef u -> u = OutOfBoundsWrite a /\ ~ (0 <= a < MEM_SIZE).
Proof.
  unfold mem_write.
  destruct (Z.leb_spec 0 a) as [Hlo | Hlo];
    destruct (Z.ltb_spec a MEM_SIZE) as [Hhi | Hhi]; simpl;
    intros Hm; try discriminate Hm; injection Hm as <-; split; try reflexivity; lia.
Qed.

Lemma mem_read_Undef a e u :
  mem_read a e = Undef u -> u = OutOfBoundsRead a /\ ~ (0 <= a < MEM_SIZE).
Proof.
  unfold mem_read.
  destruct (Z.leb_spec 0 a) as [Hlo | Hlo];
    destruct (Z.ltb_spec a MEM_SIZE) as [Hhi | Hhi]; simpl;
    intros Hm; try discriminate Hm; injection Hm as <-; split; try reflexivity; lia.
Qed.

Lemma mem_write_I a v e e' : mem_write a v e = Ret e' -> I (cpu e') = I (cpu e).
Proof.
  unfold mem_write. destruct (_ && _); intros H; [| discriminate H].
  injection H as <-. reflexivity.
Qed.

Lemma LD_B_Vx_Undef op e u : instr_LD_B_Vx op e = Undef u -> escapes e u 2.
Proof.
  unfold instr_LD_B_Vx. cbv zeta. intros H.
  destruct (mem_write (I (cpu e)) _ e) as [e1 | u1] eqn:E1; simpl in H.
  - pose proof (mem_write_I _ _ _ _ E1) as I1.
    destruct (mem_write (I (cpu e1) + 1) _ e1) as [e2 | u2] eqn:E2; simpl in H.
    + pose proof (mem_write_I _ _ _ _ E2) as I2.
      destruct (mem_write (I (cpu e2) + 2) _ e2) as [e3 | u3] eqn:E3; simpl in H;
        [discriminate H |].
      injection H as <-. apply mem_write_Undef in E3. destruct E3 as [-> Hout].
      exists (I (cpu e2) + 2). split; [right; reflexivity |]. split; [lia | exact Hout].
    + injection H as <-. apply mem_write_Undef in E2. destruct E2 as [-> Hout].
      exists (I (cpu e1) + 1). split; [right; reflexivity |]. split; [lia | exact Hout].
  - injection H as <-. apply mem_write_Undef in E1. destruct E1 as [-> Hout].
    exists (I (cpu e)). split; [right; reflexivity |]. split; [lia | exact Hout].
Qed.

Lemma LD_I_Vx_multi_Undef op e u :
  instr_LD_I_Vx_multi op e = Undef u -> escapes e u 15.
Proof.
  unfold instr_LD_I_Vx_multi. intros H. pose proof (op_x_range op) as Rx.
  destruct (for_loop _ 0 _ e) as [e1 | u1] eqn:E; simpl in H; [discriminate H |].
  injection H as <-.
  apply (for_loop_Undef (fun s => I (cpu s) = I (cpu e))) in E; [| | reflexivity].
  - destruct E as (k & s0 & Hk & Hs0 & Hw).
    apply mem_write_Undef in Hw. destruct Hw as [-> Hout].
    exists (I (cpu s0) + k). split; [right; reflexivity |]. split; [lia | exact Hout].
  - intros k s s' Hs Hw. rewrite (mem_write_I _ _ _ _ Hw). exact Hs.
Qed.

Lemma LD_Vx_I_multi_Undef op e u :
  instr_LD_Vx_I_multi op e = Undef u -> escapes e u 15.
Proof.
  unfold instr_LD_Vx_I_multi. intros H. pose proof (op_x_range op) as Rx.
  destruct (for_loop _ 0 _ e) as [e1 | u1] eqn:E; simpl in H; [discriminate H |].
  injection H as <-.
  apply (for_loop_Undef (fun s => I (cpu s) = I (cpu e))) in E; [| | reflexivity].
  - destruct E as (k & s0 & Hk & Hs0 & Hr).
    destruct (mem_read (I (cpu s0) + k) s0) as [b | u2] eqn:Eb; simpl in Hr;
      [discriminate Hr |].
    injection Hr as <-. apply mem_read_Undef in Eb. destruct Eb as [-> Hout].
    exists (I (cpu s0) + k). split; [left; reflexivity |]. split; [lia | exact Hout].
  - intros k s s' Hs Hr.
    apply bind_Ret_inv in Hr. destruct Hr as (b & _ & Hr).
    injection Hr as <-. exact Hs.
Qed.

Lemma draw_pixel_I x y i j s s' :
  draw_pixel x y i j s = Ret s' -> I (cpu s'.1) = I (cpu s.1).
Proof.
  unfold draw_pixel. intros H.
  apply bind_Ret_inv in H. destruct H as (b & _ & H).
  injection H as <-. reflexivity.
Qed.

Lemma DRW_Vx_Vy_n_Undef op e u :
  instr_DRW_Vx_Vy_n op e = Undef u -> escapes e u 15.
Proof.
  unfold instr_DRW_Vx_Vy_n. cbv zeta. intros H.
  pose proof (land_15_range op) as Rn.
  destruct (for_loop _ 0 _ (e, 0)) as [s1 | u1] eqn:E; simpl in H; [discriminate H |].
  injection H as <-.
  assert (Hrow : forall i s s',
            I (cpu s.1) = I (cpu e) ->
            for_loop 8 0 (draw_pixel (Vr e (op_x op)) (Vr e (op_y op)) i) s = Ret s' ->
            I (cpu s'.1) = I (cpu e)).
  { intros i s s' Hs Hr.
    apply (for_loop_inv (fun s => I (cpu s.1) = I (cpu e))) in Hr; [exact Hr | | exact Hs].
    intros j s2 s3 Hs2 Hp. rewrite (draw_pixel_I _ _ _ _ _ _ Hp). exact Hs2. }
  apply (for_loop_Undef (fun s => I (cpu s.1) = I (cpu e))) in E;
    [| exact Hrow | reflexivity].
  destruct E as (i & s0 & Hi & Hs0 & Hr).
  apply (for_loop_Undef (fun s => I (cpu s.1) = I (cpu e))) in Hr; [| | exact Hs0].
  - destruct Hr as (j & s2 & _ & Hs2 & Hp). unfold draw_pixel in Hp.
    destruct (mem_read (I (cpu s2.1) + i) s2.1) as [b | u2] eqn:Eb; simpl in Hp;
      [discriminate Hp |].
    injection Hp as <-. apply mem_read_Undef in Eb. destruct Eb as [-> Hout].
    exists (I (cpu s2.1) + i). split; [left; reflexivity |]. split; [lia | exact Hout].
  - intros j s2 s3 Hs2 Hp. rewrite (draw_pixel_I _ _ _ _ _ _ Hp). exact Hs2.
Qed.

Lemma keypad_is_pressed_Undef e k u :
  keypad_is_pressed e k = Undef u -> u = ShiftCount k /\ 31 <= k.
Proof.
  unfold keypad_is_pressed. destruct (Z.ltb_spec k 31) as [Hk | Hk];
    intros Hp; [discriminate Hp |].
  injection Hp as <-. split; [reflexivity | lia].
Qed.

Lemma SKP_Vx_Undef op e u :
  instr_SKP_Vx op e = Undef u ->
  u = ShiftCount (Vr e (op_x op)) /\ 31 <= Vr e (op_x op).
Proof.
  unfold instr_SKP_Vx. intros H.
  destruct (keypad_is_pressed e _) as [p | u1] eqn:E; simpl in H; [discriminate H |].
  injection H as <-. exact (keypad_is_pressed_Undef _ _ _ E).
Qed.

Lemma SKNP_Vx_Undef op e u :
  instr_SKNP_Vx op e = Undef u ->
  u = ShiftCount (Vr e (op_x op)) /\ 31 <= Vr e (op_x op).
Proof.
  unfold instr_SKNP_Vx. intros H.
  destruct (keypad_is_pressed e _) as [p | u1] eqn:E; simpl in H; [discriminate H |].
  injection H as <-. exact (keypad_is_pressed_Undef _ _ _ E).
Qed.

(** The handlers made of assignments always return. *)
Ltac returns H :=
  exfalso;
  cbv beta delta
    [instr_CLS instr_RET instr_JP_nnn instr_CALL_nnn instr_SE_Vx_kk
     instr_SNE_Vx_kk instr_SE_Vx_Vy instr_LD_Vx_kk instr_ADD_Vx_kk
     instr_LD_Vx_Vy instr_OR_Vx_Vy instr_AND_Vx_Vy instr_XOR_Vx_Vy
     instr_ADD_Vx_Vy instr_SUB_Vx_Vy instr_SHR_Vx__Vy instr_SUBN_Vx_Vy
     instr_SHL_Vx_Vy instr_SNE_Vx_Vy instr_LD_I_nnn instr_JP_V0_nnn
     instr_RND_Vx_kk instr_LD_Vx_DT instr_LD_Vx_K instr_LD_DT_Vx
     instr_LD_ST_Vx instr_ADD_I_Vx instr_LD_F_Vx] in H;
  cbv zeta in H;
  repeat match type of H with
         | context [if ?c then _ else _] => destruct c
         end;
  discriminate H.

Ltac escape_cases H :=
  repeat match type of H with
         | context [if ?c then _ else _] => destruct c
         end;
  first [ left; exact (DRW_Vx_Vy_n_Undef _ _ _ H)
        | left; exact (LD_I_Vx_multi_Undef _ _ _ H)
        | left; exact (LD_Vx_I_multi_Undef _ _ _ H)
        | left; destruct (LD_B_Vx_Undef _ _ _ H) as (a & Ha & Hr & Ho);
          exists a; (split; [exact Ha |]); (split; [lia | exact Ho])
        | right; exact (SKP_Vx_Undef _ _ _ H)
        | right; exact (SKNP_Vx_Undef _ _ _ H)
        | returns H ].

Lemma dispatch_Undef rnd op e u :
  dispatch rnd op e = Undef u -> handler_escape op e u.
Proof.
  intros H.
  unfold dispatch, case_0x0, case_0x1, case_0x8, case_0x9, case_0xE, case_0xF in H.
  cbv zeta in H. escape_cases H.
Qed.

(** X3.  What a cycle can run into.  On a well-formed emulator a call of
    [emulator_cycle] that does not return has fetched its opcode (the fetch
    itself never leaves the memory) and then either accessed memory[a] at an
    address a with 4096 <= a and I <= a <= I + 15 (Dxyn, Fx33, Fx55 and Fx65
    index the memory from I), or shifted 1 by the value k >= 31 of the
    register Vx (Ex9E and ExA1 test the key Vx).  Nothing else in the cycle is
    undefined. *)
Theorem cycle_undefined_cases (rnd : Z) (e : emulator) (u : undefined) :
  well_formed e ->
  emulator_cycle rnd e = Undef u ->
  key_waiting e = false /\ PC (cpu e) + 1 < MEM_SIZE /\
  exists op, fetch e = Ret op /\
    ((exists a, (u = OutOfBoundsRead a \/ u = OutOfBoundsWrite a) /\
        MEM_SIZE <= a /\ I (cpu e) <= a <= I (cpu e) + 15) \/
     (u = ShiftCount (Vr e (op_x op)) /\ 31 <= Vr e (op_x op))).
Proof.
  intros Hwf H.
  pose proof (wf_PC e Hwf) as HPC. pose proof (wf_I e Hwf) as HI.
  unfold word in HPC, HI.
  unfold emulator_cycle in H.
  destruct (key_waiting e) eqn:Hk; [discriminate H |].
  destruct (Z.geb_spec (PC (cpu e) + 1) MEM_SIZE) as [Hge | Hlt]; [discriminate H |].
  split; [reflexivity |]. split; [exact Hlt |].
  pose proof (fetch_value e Hwf Hlt) as Hf.
  eexists. split; [exact Hf |].
  rewrite Hf in H. simpl in H.
  destruct (dispatch rnd _ _) as [r | u1] eqn:Hd; simpl in H; [discriminate H |].
  injection H as <-.
  apply dispatch_Undef in Hd. destruct Hd as [(a & Ha & Hr & Ho) | Hs].
  - left. exists a. split; [exact Ha |]. simpl in Hr. split; lia.
  - right. exact Hs.
Qed.

(** At I = 0xFFF and the BCD store F033. *)
Lemma cycle_undefined_cases_witness :
  exists a,
    emulator_cycle 0 (upd (set_I 0xFFF) (boot [0xF0; 0x33]))
      = Undef (OutOfBoundsWrite a) /\
    4096 <= a <= 0xFFF + 15.
Proof.
  destruct (cycle_undefined_cases 0 (upd (set_I 0xFFF) (boot [0xF0; 0x33]))
              (OutOfBoundsWrite 0x1000))
    as (_ & _ & op & _ & [(a & Ha & Hlo & Hhi) | (Hs & _)]).
  - apply wf_set_I; [| unfold word; lia].
    apply boot_well_formed. repeat constructor; discriminate.
  - vm_compute. reflexivity.
  - exists 0x1000. split; [vm_compute; reflexivity |]. lia.
  - discriminate Hs.
Defined.

(** X4.  A PC at the end of the memory.  Once the PC is 4095 or more, every
    cycle returns [EML_PC_OVERFL] and changes nothing, whatever the breakpoint
    is: the guard comes before the fetch and before the breakpoint test.  So
    does any number of cycles. *)
Theorem pc_overflow_is_sticky (rnd : Z) (n : nat) (e : emulator) :
  key_waiting e = false ->
  MEM_SIZE <= PC (cpu e) + 1 ->
  run rnd n e = Ret (replicate n EML_PC_OVERFL, e).
Proof.
  intros Hk Hpc.
  assert (H1 : emulator_cycle rnd e = Ret (EML_PC_OVERFL, e)).
  { unfold emulator_cycle. rewrite Hk.
    destruct (Z.geb_spec (PC (cpu e) + 1) MEM_SIZE); [reflexivity | lia]. }
  induction n as [|k IH]; [reflexivity |].
  simpl run. rewrite H1. simpl. rewrite IH. reflexivity.
Qed.

(** At PC = 0xFFF, with a breakpoint at 0xFFF. *)
Lemma pc_overflow_is_sticky_witness :
  run 0 3 (set_breakpoint true 0xFFF (upd (set_PC 0xFFF) emulator_init))
  = Ret ([EML_PC_OVERFL; EML_PC_OVERFL; EML_PC_OVERFL],
         set_breakpoint true 0xFFF (upd (set_PC 0xFFF) emulator_init)).
Proof.
  apply (pc_overflow_is_sticky 0 3); [reflexivity |].
  change (4096 <= 0xFFF + 1). lia.
Defined.

(** ** The invariant, from the freshly loaded program on *)

Lemma run_rands_well_formed (rnds : list Z) : forall e sts e',
  well_formed e -> run_rands rnds e = Ret (sts, e') -> well_formed e'.
Proof.
  induction rnds as [| rnd rest IH]; intros e sts e' Hwf H; simpl in H.
  - injection H as _ <-. exact Hwf.
  - apply bind_Ret_inv in H. destruct H as ([st1 e1] & H1 & H).
    apply bind_Ret_inv in H. destruct H as ([sts2 e2] & H2 & H).
    injection H as _ <-. simpl in H2.
    apply (IH e1 sts2 e2); [| exact H2].
    exact (emulator_cycle_well_formed rnd e st1 e1 Hwf H1).
Qed.

(** X5.  The engine keeps its data in shape.  Start the emulator, load any
    program of bytes (one that does not fit is not loaded) and run any number
    of cycles, whatever [rand()] returns in each of them: if they all return,
    the emulator is well formed, that is the memory has 4096 bytes, the
    display 2048 cells that are 0 or 1, there are 16 registers and 16 stack
    slots, the registers and timers are bytes, PC, I and the stack slots are
    16-bit values and SP is between 0 and 16. *)
Theorem loaded_program_stays_well_formed
    (rnds : list Z) (prog : list Z) (sts : list eml_stat) (e' : emulator) :
  Forall byte prog ->
  run_rands rnds (boot prog) = Ret (sts, e') ->
  well_formed e'.
Proof.
  intros Hprog Hrun.
  apply (run_rands_well_formed rnds (boot prog) sts e'); [| exact Hrun].
  apply boot_well_formed. exact Hprog.
Qed.

(** At the program [C0 FF; C1 FF], with 0x12 and 0x34 from [rand()]: two
    cycles that leave different values in V0 and V1. *)
Lemma loaded_program_stays_well_formed_witness :
  exists sts e',
    run_rands [0x12; 0x34] (boot [0xC0; 0xFF; 0xC1; 0xFF]) = Ret (sts, e') /\
    Vr e' 0 = 0x12 /\ Vr e' 1 = 0x34 /\ well_formed e'.
Proof.
  destruct (run_rands [0x12; 0x34] (boot [0xC0; 0xFF; 0xC1; 0xFF]))
    as [[sts e'] | u] eqn:Hrun; [| vm_compute in Hrun; discriminate Hrun].
  exists sts, e'. split; [reflexivity |].
  assert (Hwf : well_formed e').
  { apply (loaded_program_stays_well_formed
             [0x12; 0x34] [0xC0; 0xFF; 0xC1; 0xFF] sts e'); [| exact Hrun].
    repeat constructor; unfold byte; lia. }
  vm_compute in Hrun. injection Hrun as _ <-.
  split; [reflexivity |]. split; [reflexivity | exact Hwf].
Defined.

(** ** Register instructions *)

Lemma with_regs_well_formed vs : forall e,
  well_formed e -> Forall (fun p => byte p.2) vs -> well_formed (with_regs vs e).
Proof.
  induction vs as [|p vs IH]; intros e Hwf Hvs; [exact Hwf |].
  apply Forall_cons in Hvs. destruct Hvs as [Hp Hvs].
  unfold with_regs. simpl. apply IH; [| exact Hvs].
  apply wf_set_Vr; assumption.
Qed.

Lemma length_V_with_regs vs : forall e,
  length (V (cpu (with_regs vs e))) = length (V (cpu e)).
Proof.
  induction vs as [|p vs IH]; intros e; [reflexivity |].
  unfold with_regs. simpl. fold (with_regs vs (set_Vr p.1 p.2 e)).
  rewrite IH. apply length_V_set_Vr.
Qed.

Ltac concrete_regs :=
  repeat (constructor; [unfold byte; simpl; lia |]); constructor.

Lemma set_Vr_only e x v :
  length (V (cpu e)) = 16%nat -> 0 <= x < 16 ->
  same_but_V e (set_Vr x v e) /\
  Vr (set_Vr x v e) x = v /\
  (forall i, 0 <= i -> i <> x -> Vr (set_Vr x v e) i = Vr e i).
Proof.
  intros HV Hx. split; [reflexivity |]. split.
  - apply Vr_set_eq. rewrite HV. lia.
  - intros i Hi Hne. apply Vr_set_ne; lia.
Qed.

(** X6.  The instructions that assign one register and nothing else: 6xkk,
    7xkk, 8xy0 to 8xy3 and Cxkk return [EML_OK] and leave an emulator that
    differs from the one they found in Vx only. 7xkk adds modulo 256 and sets
    no carry; the logical operations leave VF alone (unless Vx is VF). *)
Theorem register_ops_change_only_Vx (rnd op v : Z) (e : emulator) :
  length (V (cpu e)) = 16%nat ->
  (Z.shiftr (Z.land op 0xF000) 12 = 6 /\ v = op_kk op) \/
  (Z.shiftr (Z.land op 0xF000) 12 = 7 /\
   v = (Vr e (op_x op) + op_kk op) mod 256) \/
  (Z.shiftr (Z.land op 0xF000) 12 = 8 /\ Z.land op 0xF = 0 /\
   v = Vr e (op_y op)) \/
  (Z.shiftr (Z.land op 0xF000) 12 = 8 /\ Z.land op 0xF = 1 /\
   v = Z.lor (Vr e (op_x op)) (Vr e (op_y op))) \/
  (Z.shiftr (Z.land op 0xF000) 12 = 8 /\ Z.land op 0xF = 2 /\
   v = Z.land (Vr e (op_x op)) (Vr e (op_y op))) \/
  (Z.shiftr (Z.land op 0xF000) 12 = 8 /\ Z.land op 0xF = 3 /\
   v = Z.lxor (Vr e (op_x op)) (Vr e (op_y op))) \/
  (Z.shiftr (Z.land op 0xF000) 12 = 0xC /\ v = Z.land rnd (op_kk op)) ->
  exists e',
    dispatch rnd op e = Ret (EML_OK, e') /\
    same_but_V e e' /\
    Vr e' (op_x op) = v /\
    (forall i, 0 <= i -> i <> op_x op -> Vr e' i = Vr e i).
Proof.
  intros HV Hop.
  assert (Hrun : dispatch rnd op e = Ret (EML_OK, set_Vr (op_x op) v e)).
  { destruct Hop as [(Hf & ->) | [(Hf & ->) | [(Hf & Hn & ->) | [(Hf & Hn & ->)
      | [(Hf & Hn & ->) | [(Hf & Hn & ->) | (Hf & ->)]]]]]];
      first [ rewrite (dispatch_0x8 rnd op e Hf); unfold case_0x8; rewrite Hn;
              reflexivity
            | unfold dispatch; rewrite Hf; reflexivity ]. }
  exists (set_Vr (op_x op) v e). split; [exact Hrun |].
  apply set_Vr_only; [exact HV | apply op_x_range].
Qed.

(** At V3 = 250 and ADD V3, 0x0A (730A): V3 = 4 and VF still 0. *)
Lemma register_ops_change_only_Vx_witness :
  exists e',
    dispatch 0 0x730A (with_regs [(3, 250)] emulator_init) = Ret (EML_OK, e') /\
    Vr e' 3 = 4 /\ Vr e' 0xF = 0.
Proof.
  destruct (register_ops_change_only_Vx 0 0x730A 4 (with_regs [(3, 250)] emulator_init))
    as (e' & Hrun & _ & Hx & Hrest).
  - reflexivity.
  - right. left. split; reflexivity.
  - exists e'. split; [exact Hrun |]. split; [exact Hx |].
    rewrite (Hrest 0xF); [reflexivity | lia | ].
    change (15 <> 3). lia.
Defined.

Lemma land_1_mod (z : Z) : Z.land z 1 = z mod 2.
Proof. change 1 with (Z.ones 1). rewrite Z.land_ones by lia. reflexivity. Qed.

(** X7.  The shifts and SUBN with a destination other than VF. 8xy6 leaves the
    low bit of Vx in VF and Vx / 2 in Vx; 8xyE leaves the high bit of Vx in VF
    and 2 * Vx modulo 256 in Vx; neither reads Vy. 8xy7 leaves 1 in VF exactly
    when Vx < Vy (0 when they are equal) and Vy - Vx modulo 256 in Vx, when Vy
    is not VF either.  The registers other than Vx and VF keep their values. *)
Theorem shift_subn_distinct_registers (rnd op : Z) (e : emulator) :
  length (V (cpu e)) = 16%nat ->
  Z.shiftr (Z.land op 0xF000) 12 = 8 ->
  0 <= Vr e (op_x op) < 256 ->
  op_x op <> 0xF ->
  (Z.land op 0xF = 6 ->
   exists e', dispatch rnd op e = Ret (EML_OK, e') /\
     Vr e' 0xF = Vr e (op_x op) mod 2 /\
     Vr e' (op_x op) = Vr e (op_x op) / 2 /\
     (forall i, 0 <= i -> i <> op_x op -> i <> 0xF -> Vr e' i = Vr e i)) /\
  (Z.land op 0xF = 0xE ->
   exists e', dispatch rnd op e = Ret (EML_OK, e') /\
     Vr e' 0xF = Vr e (op_x op) / 128 /\
     Vr e' (op_x op) = (2 * Vr e (op_x op)) mod 256 /\
     (forall i, 0 <= i -> i <> op_x op -> i <> 0xF -> Vr e' i = Vr e i)) /\
  (Z.land op 0xF = 7 -> op_y op <> 0xF ->
   exists e', dispatch rnd op e = Ret (EML_OK, e') /\
     Vr e' 0xF = (if Vr e (op_x op) <? Vr e (op_y op) then 1 else 0) /\
     Vr e' (op_x op) = (Vr e (op_y op) - Vr e (op_x op)) mod 256 /\
     (forall i, 0 <= i -> i <> op_x op -> i <> 0xF -> Vr e' i = Vr e i)).
Proof.
  intros HV H8 Ha Hx.
  pose proof (op_x_range op) as Rx. pose proof (op_y_range op) as Ry.
  assert (Hout : forall v w i, 0 <= i -> i <> op_x op -> i <> 0xF ->
            Vr (set_Vr (op_x op) v (set_Vr 0xF w e)) i = Vr e i).
  { intros v w i Hi H1 H2. rewrite !Vr_set_ne by lia. reflexivity. }
  assert (HF : forall v w, Vr (set_Vr (op_x op) v (set_Vr 0xF w e)) 0xF = w).
  { intros v w. rewrite Vr_set_ne by lia. apply Vr_set_eq. rewrite HV. lia. }
  assert (HX : forall v w, Vr (set_Vr (op_x op) v (set_Vr 0xF w e)) (op_x op) = v).
  { intros v w. apply Vr_set_eq. rewrite length_V_set_Vr, HV. lia. }
  split; [| split].
  - intros H6. rewrite (dispatch_8xy6 rnd op e H8 H6).
    unfold instr_SHR_Vx__Vy. eexists. split; [reflexivity |].
    rewrite HF, HX. rewrite (Vr_set_ne e 0xF) by lia.
    split; [apply land_1_mod |]. split; [| apply Hout].
    rewrite Z.shiftr_div_pow2 by lia. reflexivity.
  - intros HE. rewrite (dispatch_8xyE rnd op e H8 HE).
    unfold instr_SHL_Vx_Vy. eexists. split; [reflexivity |].
    rewrite HF, HX. rewrite (Vr_set_ne e 0xF) by lia.
    split; [apply high_bit; exact Ha |]. split; [| apply Hout].
    rewrite Z.shiftl_mul_pow2 by lia. unfold u8. f_equal. lia.
  - intros H7 Hy. rewrite (dispatch_8xy7 rnd op e H8 H7).
    unfold instr_SUBN_Vx_Vy. eexists. split; [reflexivity |].
    rewrite HF, HX. rewrite !(Vr_set_ne e 0xF) by lia.
    split; [reflexivity |]. split; [reflexivity | apply Hout].
Qed.

(** At V2 = 0x85: SHR V2 (8206) and SHL V2 (820E). *)
Lemma shift_subn_distinct_registers_witness :
  (exists e', dispatch 0 0x8206 (with_regs [(2, 0x85)] emulator_init) = Ret (EML_OK, e') /\
     Vr e' 0xF = 1 /\ Vr e' 2 = 0x42) /\
  (exists e', dispatch 0 0x820E (with_regs [(2, 0x85)] emulator_init) = Ret (EML_OK, e') /\
     Vr e' 0xF = 1 /\ Vr e' 2 = 0x0A).
Proof.
  split.
  - destruct (shift_subn_distinct_registers 0 0x8206 (with_regs [(2, 0x85)] emulator_init))
      as (Hshr & _ & _).
    + reflexivity.
    + reflexivity.
    + change (0 <= 0x85 < 256). lia.
    + change (2 <> 15). lia.
    + destruct Hshr as (e' & Hrun & HF & Hx & _); [reflexivity |].
      exists e'. split; [exact Hrun |]. split; [exact HF | exact Hx].
  - destruct (shift_subn_distinct_registers 0 0x820E (with_regs [(2, 0x85)] emulator_init))
      as (_ & Hshl & _).
    + reflexivity.
    + reflexivity.
    + change (0 <= 0x85 < 256). lia.
    + change (2 <> 15). lia.
    + destruct Hshl as (e' & Hrun & HF & Hx & _); [reflexivity |].
      exists e'. split; [exact Hrun |]. split; [exact HF | exact Hx].
Defined.

(** The value that [rand()] returns matters to Cxkk only. *)
Lemma rand_only_in_Cxkk (rnd rnd' op : Z) (e : emulator) :
  Z.shiftr (Z.land op 0xF000) 12 <> 0xC ->
  dispatch rnd op e = dispatch rnd' op e.
Proof.
  intros HC. unfold dispatch. cbv zeta.
  destruct (Z.eqb_spec (Z.shiftr (Z.land op 0xF000) 12) 0xC) as [Heq | _];
    [contradiction | reflexivity].
Qed.

(** ** The BCD store *)

Lemma dispatch_Fx33 rnd op e :
  Z.shiftr (Z.land op 0xF000) 12 = 0xF -> Z.land op 0xFF = 0x33 ->
  dispatch rnd op e = instr_LD_B_Vx op e.
Proof.
  intros HF H33. rewrite dispatch_0xF by exact HF.
  unfold case_0xF. rewrite H33. reflexivity.
Qed.

Lemma decimal_digits v :
  byte v ->
  of_digits (v / 100) ((v / 10) mod 10) (v mod 10) = v /\
  0 <= v / 100 <= 2 /\ 0 <= (v / 10) mod 10 <= 9 /\ 0 <= v mod 10 <= 9.
Proof.
  intros Hv. unfold byte in Hv. unfold of_digits.
  pose proof (Z.div_mod v 10 ltac:(lia)) as E1.
  pose proof (Z.div_mod (v / 10) 10 ltac:(lia)) as E2.
  rewrite Z.div_div in E2 by lia. change (10 * 10) with 100 in E2.
  pose proof (Z.mod_pos_bound v 10 ltac:(lia)).
  pose proof (Z.mod_pos_bound (v / 10) 10 ltac:(lia)).
  assert (0 <= v / 100 <= 2).
  { split; [apply Z.div_pos; lia |].
    apply Z.lt_succ_r. apply Z.div_lt_upper_bound; lia. }
  lia.
Qed.

(** X8.  Fx33 and the decimal digits.  With memory[I ..  I+2] inside the
    memory of a well-formed emulator, Fx33 returns [EML_OK] and changes the
    memory only: memory[I], memory[I+1], memory[I+2] hold the hundreds, tens
    and units digit of Vx (so 100 * memory[I] + 10 * memory[I+1] + memory[I+2]
    is Vx, the first digit at most 2, the others at most 9), and every other
    byte is as it was. *)
Theorem BCD_round_trip (rnd op : Z) (e : emulator) :
  well_formed e ->
  Z.shiftr (Z.land op 0xF000) 12 = 0xF ->
  Z.land op 0xFF = 0x33 ->
  I (cpu e) + 2 < MEM_SIZE ->
  exists e',
    dispatch rnd op e = Ret (EML_OK, e') /\
    same_but_memory e e' /\
    of_digits (get (memory (cpu e')) (I (cpu e)))
              (get (memory (cpu e')) (I (cpu e) + 1))
              (get (memory (cpu e')) (I (cpu e) + 2)) = Vr e (op_x op) /\
    0 <= get (memory (cpu e')) (I (cpu e)) <= 2 /\
    0 <= get (memory (cpu e')) (I (cpu e) + 1) <= 9 /\
    0 <= get (memory (cpu e')) (I (cpu e) + 2) <= 9 /\
    (forall a, 0 <= a -> ~ (I (cpu e) <= a <= I (cpu e) + 2) ->
       get (memory (cpu e')) a = get (memory (cpu e)) a).
Proof.
  intros Hwf HF H33 Hend.
  pose proof (wf_I e Hwf) as HI. unfold word in HI.
  pose proof (wf_memory_length e Hwf) as Hlen.
  pose proof (byte_Vr e (op_x op) Hwf) as Hv.
  destruct (decimal_digits _ Hv) as (Hdig & Hh & Ht & Hu).
  set (v := Vr e (op_x op)) in *.
  set (m := memory (cpu e)) in *.
  set (i := I (cpu e)) in *.
  set (m3 := set (set (set m i (v / 100)) (i + 1) ((v / 10) mod 10)) (i + 2) (v mod 10)).
  assert (Hrun : dispatch rnd op e = Ret (EML_OK, upd (set_memory m3) e)).
  { rewrite dispatch_Fx33 by assumption. unfold instr_LD_B_Vx. cbv zeta.
    rewrite mem_write_in_bounds by (fold i; lia). simpl.
    rewrite mem_write_in_bounds by (simpl; fold i; lia). simpl.
    rewrite mem_write_in_bounds by (simpl; fold i; lia). simpl.
    reflexivity. }
  assert (Hl : Z.of_nat (length m) = 4096).
  { rewrite Hlen. reflexivity. }
  assert (G0 : get m3 i = v / 100).
  { unfold m3. rewrite !get_set_ne by lia. apply get_set_eq. lia. }
  assert (G1 : get m3 (i + 1) = (v / 10) mod 10).
  { unfold m3. rewrite get_set_ne by lia. apply get_set_eq.
    rewrite length_set. unfold MEM_SIZE in Hend. lia. }
  assert (G2 : get m3 (i + 2) = v mod 10).
  { unfold m3. apply get_set_eq. rewrite !length_set. unfold MEM_SIZE in Hend. lia. }
  exists (upd (set_memory m3) e). split; [exact Hrun |].
  split; [reflexivity |].
  change (memory (cpu (upd (set_memory m3) e))) with m3.
  rewrite G0, G1, G2.
  split; [exact Hdig |]. split; [exact Hh |]. split; [exact Ht |].
  split; [exact Hu |].
  intros a Ha Hout. unfold m3. rewrite !get_set_ne by lia. reflexivity.
Qed.

(** At V4 = 207 and I = 0x300 (F433): the digits 2, 0, 7. *)
Lemma BCD_round_trip_witness :
  exists e',
    dispatch 0 0xF433 (upd (set_I 0x300) (with_regs [(4, 207)] emulator_init))
      = Ret (EML_OK, e') /\
    of_digits (get (memory (cpu e')) 0x300) (get (memory (cpu e')) 0x301)
              (get (memory (cpu e')) 0x302) = 207.
Proof.
  destruct (BCD_round_trip 0 0xF433
              (upd (set_I 0x300) (with_regs [(4, 207)] emulator_init)))
    as (e' & Hrun & _ & Hdig & _).
  - apply wf_set_I; [| unfold word; lia].
    apply with_regs_well_formed; [apply emulator_init_well_formed | concrete_regs].
  - reflexivity.
  - reflexivity.
  - change (0x300 + 2 < 4096). lia.
  - exists e'. split; [exact Hrun | exact Hdig].
Defined.

(** ** Register dump, then load *)

(** X9.  Fx55 followed by Fx65.  Let Fx55 dump V0 ..  Vx at I, with memory[I
    ..  I+x] inside the memory.  Whatever happens to the registers afterwards,
    as long as the memory and I are those the dump left, an Fy65 with y <= x
    returns [EML_OK] and gives V0 ..  Vy the values they had at the dump. *)
Theorem dump_then_load_round_trip (rnd op55 op65 : Z) (e e1 e2 : emulator) :
  length (memory (cpu e)) = Z.to_nat MEM_SIZE ->
  0 <= I (cpu e) ->
  I (cpu e) + op_x op55 < MEM_SIZE ->
  Z.shiftr (Z.land op55 0xF000) 12 = 0xF -> Z.land op55 0xFF = 0x55 ->
  Z.shiftr (Z.land op65 0xF000) 12 = 0xF -> Z.land op65 0xFF = 0x65 ->
  op_x op65 <= op_x op55 ->
  dispatch rnd op55 e = Ret (EML_OK, e1) ->
  memory (cpu e2) = memory (cpu e1) ->
  I (cpu e2) = I (cpu e) ->
  length (V (cpu e2)) = 16%nat ->
  exists e3,
    dispatch rnd op65 e2 = Ret (EML_OK, e3) /\
    (forall i, 0 <= i <= op_x op65 -> Vr e3 i = Vr e i) /\
    (forall i, op_x op65 < i -> Vr e3 i = Vr e2 i) /\
    memory (cpu e3) = memory (cpu e1).
Proof.
  intros Hlen HI Hend HF5 H55 HF6 H65 Hxy Hrun1 Hm2 HI2 HV2.
  pose proof (op_x_range op55) as R5. pose proof (op_x_range op65) as R6.
  rewrite (dispatch_Fx55 rnd op55 e HF5 H55) in Hrun1.
  unfold instr_LD_I_Vx_multi in Hrun1.
  destruct (store_loop (Z.to_nat (op_x op55 + 1)) 0 e) as (m & Hs & Hm & Hin & _);
    try lia; try assumption.
  rewrite Hs in Hrun1. simpl in Hrun1. injection Hrun1 as <-.
  simpl in Hm2.
  rewrite (dispatch_Fx65 rnd op65 e2 HF6 H65).
  unfold instr_LD_Vx_I_multi.
  destruct (load_loop (Z.to_nat (op_x op65 + 1)) 0 e2) as (v & Hl & Hv & Hvin & Hvout);
    try lia; try assumption.
  rewrite Hl. simpl. eexists. split; [reflexivity |].
  unfold Vr. simpl. split; [| split; [| exact Hm2]].
  - intros i Hi. rewrite Hvin by lia. rewrite Hm2, HI2. apply Hin. lia.
  - intros i Hi. apply Hvout; lia.
Qed.

(** V0..V2 = 7, 8, 9 dumped at 0x300 (F255), the registers cleared, then
    loaded again (F265). *)
Lemma dump_then_load_round_trip_witness :
  exists e1 e3,
    dispatch 0 0xF255 (upd (set_I 0x300) (with_regs [(0, 7); (1, 8); (2, 9)] emulator_init))
      = Ret (EML_OK, e1) /\
    dispatch 0 0xF265 (with_regs [(0, 0); (1, 0); (2, 0)] e1) = Ret (EML_OK, e3) /\
    Vr e3 0 = 7 /\ Vr e3 1 = 8 /\ Vr e3 2 = 9.
Proof.
  destruct (dispatch 0 0xF255
              (upd (set_I 0x300) (with_regs [(0, 7); (1, 8); (2, 9)] emulator_init)))
    as [[st e1] | u] eqn:Hrun; [| vm_compute in Hrun; discriminate Hrun].
  assert (Hst : st = EML_OK /\ I (cpu e1) = 0x300 /\ length (V (cpu e1)) = 16%nat).
  { vm_compute in Hrun. injection Hrun as <- <-. repeat split. }
  destruct Hst as (-> & HI1 & HV1).
  destruct (dump_then_load_round_trip 0 0xF255 0xF265
              (upd (set_I 0x300) (with_regs [(0, 7); (1, 8); (2, 9)] emulator_init))
              e1 (with_regs [(0, 0); (1, 0); (2, 0)] e1))
    as (e3 & Hrun3 & Hin & _).
  - reflexivity.
  - change (0 <= 0x300). lia.
  - change (0x300 + 2 < 4096). lia.
  - reflexivity.
  - reflexivity.
  - reflexivity.
  - reflexivity.
  - change (2 <= 2). lia.
  - exact Hrun.
  - reflexivity.
  - exact HI1.
  - rewrite length_V_with_regs. exact HV1.
  - exists e1, e3. split; [reflexivity |]. split; [exact Hrun3 |].
    split; [exact (Hin 0 ltac:(change (0 <= 0 <= 2); lia)) |].
    split; [exact (Hin 1 ltac:(change (0 <= 1 <= 2); lia)) |].
    exact (Hin 2 ltac:(change (0 <= 2 <= 2); lia)).
Defined.

(** ** The program image *)

Lemma image_get (m bytes : list Z) a :
  length m = Z.to_nat MEM_SIZE ->
  Z.of_nat (length bytes) <= MEM_SIZE - RESERVED_MEM ->
  0 <= a ->
  get (take (Z.to_nat RESERVED_MEM) m ++ bytes ++
       drop (Z.to_nat RESERVED_MEM + length bytes) m) a
  = if a <? RESERVED_MEM then get m a
    else if a <? RESERVED_MEM + Z.of_nat (length bytes)
         then get bytes (a - RESERVED_MEM)
         else get m a.
Proof.
  intros Hlen Hfit Ha. unfold MEM_SIZE, RESERVED_MEM in *. unfold get.
  assert (Ht : length (take (Z.to_nat 512) m) = Z.to_nat 512).
  { rewrite length_take. lia. }
  destruct (Z.ltb_spec a 512) as [H1 | H1].
  - rewrite lookup_app_l by lia. rewrite lookup_take_lt by lia. reflexivity.
  - rewrite lookup_app_r by lia. rewrite Ht.
    destruct (Z.ltb_spec a (512 + Z.of_nat (length bytes))) as [H2 | H2].
    + rewrite lookup_app_l by lia.
      replace (Z.to_nat a - Z.to_nat 512)%nat with (Z.to_nat (a - 512)) by lia.
      reflexivity.
    + rewrite lookup_app_r by lia. rewrite lookup_drop.
      replace (Z.to_nat 512 + length bytes
               + (Z.to_nat a - Z.to_nat 512 - length bytes))%nat
        with (Z.to_nat a) by lia.
      reflexivity.
Qed.

(** X10.  Loading a program that fits.  A file of at most 3584 bytes (the
    empty file included) is accepted:  [emulator_load_program] returns true
    and changes the memory only, memory[512 + k] being byte k of the file; the
    512 bytes below and every byte above the image keep their values. *)
Theorem load_program_image (bytes : list Z) (e : emulator) :
  length (memory (cpu e)) = Z.to_nat MEM_SIZE ->
  Z.of_nat (length bytes) <= MEM_SIZE - RESERVED_MEM ->
  exists e',
    emulator_load_program (Some bytes) e = (true, e') /\
    same_but_memory e e' /\
    length (memory (cpu e')) = Z.to_nat MEM_SIZE /\
    (forall k, 0 <= k < Z.of_nat (length bytes) ->
       get (memory (cpu e')) (RESERVED_MEM + k) = get bytes k) /\
    (forall a, 0 <= a ->
       ~ (RESERVED_MEM <= a < RESERVED_MEM + Z.of_nat (length bytes)) ->
       get (memory (cpu e')) a = get (memory (cpu e)) a).
Proof.
  intros Hlen Hfit.
  unfold emulator_load_program. cbv zeta.
  destruct (Z.gtb_spec (Z.of_nat (length bytes)) (MEM_SIZE - RESERVED_MEM))
    as [Hbig | _]; [lia |].
  eexists. split; [reflexivity |]. split; [reflexivity |].
  cbn [cpu upd set_cpu memory set_memory].
  split; [| split].
  - rewrite !length_app, length_take, length_drop.
    unfold MEM_SIZE, RESERVED_MEM in *. lia.
  - intros k Hk. rewrite image_get by (unfold RESERVED_MEM; lia || assumption).
    destruct (Z.ltb_spec (RESERVED_MEM + k) RESERVED_MEM) as [H1 | H1]; [lia |].
    destruct (Z.ltb_spec (RESERVED_MEM + k) (RESERVED_MEM + Z.of_nat (length bytes)))
      as [H2 | H2]; [| lia].
    f_equal. lia.
  - intros a Ha Hout. rewrite image_get by assumption.
    destruct (Z.ltb_spec a RESERVED_MEM) as [H1 | H1]; [reflexivity |].
    destruct (Z.ltb_spec a (RESERVED_MEM + Z.of_nat (length bytes)))
      as [H2 | H2]; [lia | reflexivity].
Qed.

(** At the program [6A 2A; 6B 07] on the initial emulator. *)
Lemma load_program_image_witness :
  exists e',
    emulator_load_program (Some [0x6A; 0x2A; 0x6B; 0x07]) emulator_init = (true, e') /\
    get (memory (cpu e')) 0x200 = 0x6A /\ get (memory (cpu e')) 0x203 = 0x07 /\
    get (memory (cpu e')) 0 = 0xF0.
Proof.
  destruct (load_program_image [0x6A; 0x2A; 0x6B; 0x07] emulator_init)
    as (e' & Hrun & _ & _ & Hin & Hout).
  - reflexivity.
  - change (4 <= 4096 - 512). lia.
  - exists e'. split; [exact Hrun |].
    split; [exact (Hin 0 ltac:(change (0 <= 0 < 4); lia)) |].
    split; [exact (Hin 3 ltac:(change (0 <= 3 < 4); lia)) |].
    apply (Hout 0); [lia |]. change (~ (512 <= 0 < 512 + 4)). lia.
Defined.

(** X11.  Loading a program that does not fit, or no program.
    [emulator_load_program] returns false exactly when the file cannot be
    opened or holds more than 3584 bytes, and then it leaves the emulator as
    it was: nothing of a file that is too large is loaded. *)
Theorem load_program_failure (file : option (list Z)) (e : emulator) :
  ((emulator_load_program file e).1 = false <->
   file = None \/
   exists bytes, file = Some bytes /\
     MEM_SIZE - RESERVED_MEM < Z.of_nat (length bytes)) /\
  ((emulator_load_program file e).1 = false ->
   (emulator_load_program file e).2 = e).
Proof.
  unfold emulator_load_program. destruct file as [bytes |]; cbv zeta.
  - destruct (Z.gtb_spec (Z.of_nat (length bytes)) (MEM_SIZE - RESERVED_MEM))
      as [Hbig | Hfit]; simpl.
    + split; [| reflexivity]. split; [| reflexivity].
      intros _. right. exists bytes. split; [reflexivity | lia].
    + split; [| discriminate]. split; [discriminate |].
      intros [Hn | (b & Hb & Hlen)]; [discriminate Hn |].
      injection Hb as <-. lia.
  - simpl. split; [| reflexivity]. split; [| reflexivity]. intros _. left. reflexivity.
Qed.

(** At a file that cannot be opened. *)
Lemma load_program_failure_witness :
  (emulator_load_program None emulator_init).1 = false /\
  (emulator_load_program None emulator_init).2 = emulator_init.
Proof.
  destruct (load_program_failure None emulator_init) as [Hiff Hsame].
  assert (H : (emulator_load_program None emulator_init).1 = false).
  { apply Hiff. left. reflexivity. }
  split; [exact H | exact (Hsame H)].
Defined.

(** ** The font *)

Lemma init_memory_length : length (memory (cpu emulator_init)) = Z.to_nat MEM_SIZE.
Proof. apply (wf_memory_length _ emulator_init_well_formed). Qed.

Lemma init_font a :
  0 <= a < 80 -> get (memory (cpu emulator_init)) a = get chip8_fontset a.
Proof.
  intros Ha. unfold emulator_init, get. cbn [cpu memory].
  rewrite lookup_app_l; [reflexivity |].
  change (length chip8_fontset) with 80%nat. lia.
Qed.

Lemma boot_font prog a :
  0 <= a < 80 -> get (memory (cpu (boot prog))) a = get chip8_fontset a.
Proof.
  intros Ha. rewrite <- init_font by exact Ha.
  unfold boot, emulator_load_program. cbv zeta.
  destruct (Z.gtb_spec (Z.of_nat (length prog)) (MEM_SIZE - RESERVED_MEM))
    as [Hbig | Hfit]; [reflexivity |].
  cbn [snd cpu upd set_cpu memory set_memory].
  rewrite image_get by (apply init_memory_length || lia).
  destruct (Z.ltb_spec a RESERVED_MEM) as [H1 | H1]; [reflexivity |].
  unfold RESERVED_MEM in H1. lia.
Qed.

Lemma dispatch_Fx29 rnd op e :
  Z.shiftr (Z.land op 0xF000) 12 = 0xF -> Z.land op 0xFF = 0x29 ->
  dispatch rnd op e = instr_LD_F_Vx op e.
Proof.
  intros HF H29. rewrite dispatch_0xF by exact HF.
  unfold case_0xF. rewrite H29. reflexivity.
Qed.

(** X12.  The digit sprites.  Whatever program was loaded at start (the image
    begins at 512 and the font ends at 80), as long as the first 80 bytes of
    the memory are those of the start, Fx29 with a digit d <= 15 in Vx leaves
    I = 5 * d, and the five bytes at I are the rows 5 * d .. 5 * d + 4 of
    [chip8_fontset]. *)
Theorem font_glyph_lookup (rnd op d : Z) (prog : list Z) (e : emulator) :
  (forall a, 0 <= a < 80 ->
     get (memory (cpu e)) a = get (memory (cpu (boot prog))) a) ->
  Z.shiftr (Z.land op 0xF000) 12 = 0xF ->
  Z.land op 0xFF = 0x29 ->
  Vr e (op_x op) = d ->
  0 <= d < 16 ->
  exists e',
    dispatch rnd op e = Ret (EML_OK, e') /\
    I (cpu e') = 5 * d /\
    I (cpu e') + 5 <= 80 /\
    (forall r, 0 <= r < 5 ->
       get (memory (cpu e')) (I (cpu e') + r) = get chip8_fontset (5 * d + r)).
Proof.
  intros Hfont HF H29 Hd Rd.
  rewrite (dispatch_Fx29 rnd op e HF H29). unfold instr_LD_F_Vx.
  rewrite Hd. rewrite u16_small by lia.
  eexists. split; [reflexivity |].
  cbn [cpu upd set_cpu I set_I memory].
  split; [lia |]. split; [lia |].
  intros r Hr. replace (d * 5 + r) with (5 * d + r) by lia.
  rewrite Hfont by lia. apply boot_font. lia.
Qed.

(** At the digit 0xA after the program [6A 2A; 6B 07] was loaded: the
    glyph of A is F0 90 F0 90 90. *)
Lemma font_glyph_lookup_witness :
  exists e',
    dispatch 0 0xF329 (with_regs [(3, 0xA)] (boot [0x6A; 0x2A; 0x6B; 0x07]))
      = Ret (EML_OK, e') /\
    I (cpu e') = 50 /\
    get (memory (cpu e')) (I (cpu e') + 0) = 0xF0 /\
    get (memory (cpu e')) (I (cpu e') + 1) = 0x90 /\
    get (memory (cpu e')) (I (cpu e') + 4) = 0x90.
Proof.
  destruct (font_glyph_lookup 0 0xF329 0xA [0x6A; 0x2A; 0x6B; 0x07]
              (with_regs [(3, 0xA)] (boot [0x6A; 0x2A; 0x6B; 0x07])))
    as (e' & Hrun & HI & _ & Hrows).
  - intros a _. reflexivity.
  - reflexivity.
  - reflexivity.
  - reflexivity.
  - lia.
  - exists e'. split; [exact Hrun |]. split; [exact HI |].
    split; [exact (Hrows 0 ltac:(lia)) |].
    split; [exact (Hrows 1 ltac:(lia)) | exact (Hrows 4 ltac:(lia))].
Defined.

(** X13.  Drawing after Fx29.  On a well-formed emulator Fx29 leaves I = 5 *
    Vx, at most 1275 whatever Vx is (the value is not reduced to a digit), so
    that a Dxyn executed next always returns: its n <= 15 rows are inside the
    memory. *)
Theorem digit_sprite_draw_defined (rnd opF opD : Z) (e : emulator) :
  well_formed e ->
  Z.shiftr (Z.land opF 0xF000) 12 = 0xF ->
  Z.land opF 0xFF = 0x29 ->
  Z.shiftr (Z.land opD 0xF000) 12 = 0xD ->
  exists e1 e2,
    dispatch rnd opF e = Ret (EML_OK, e1) /\
    I (cpu e1) = 5 * Vr e (op_x opF) /\
    I (cpu e1) + 15 <= 1290 /\
    dispatch rnd opD e1 = Ret (EML_REDRAW, e2).
Proof.
  intros Hwf HF H29 HD.
  pose proof (byte_Vr e (op_x opF) Hwf) as Hv. unfold byte in Hv.
  pose proof (land_15_range opD) as Rn.
  rewrite (dispatch_Fx29 rnd opF e HF H29). unfold instr_LD_F_Vx.
  rewrite u16_small by lia.
  eexists. eexists. split; [reflexivity |].
  cbn [cpu upd set_cpu I set_I].
  split; [lia |]. split; [lia |].
  rewrite dispatch_Dxyn by exact HD.
  apply DRW_plot; cbn [cpu upd set_cpu I set_I]; unfold MEM_SIZE; lia.
Qed.

(** At V3 = 255: I = 1275, and D125 returns. *)
Lemma digit_sprite_draw_defined_witness :
  exists e1 e2,
    dispatch 0 0xF329 (with_regs [(3, 255)] emulator_init) = Ret (EML_OK, e1) /\
    I (cpu e1) = 1275 /\
    dispatch 0 0xD125 e1 = Ret (EML_REDRAW, e2).
Proof.
  destruct (digit_sprite_draw_defined 0 0xF329 0xD125
              (with_regs [(3, 255)] emulator_init))
    as (e1 & e2 & Hrun1 & HI & _ & Hrun2).
  - apply with_regs_well_formed; [apply emulator_init_well_formed | concrete_regs].
  - reflexivity.
  - reflexivity.
  - reflexivity.
  - exists e1, e2. split; [exact Hrun1 |]. split; [exact HI | exact Hrun2].
Defined.

(** ** The timers *)

Lemma timer_dec_step e :
  byte (DT (cpu e)) -> byte (ST (cpu e)) ->
  emulator_timer_dec e
  = upd (set_DT (Z.max 0 (DT (cpu e) - 1)))
      (upd (set_ST (Z.max 0 (ST (cpu e) - 1))) e).
Proof.
  unfold byte. intros HD HS. unfold emulator_timer_dec.
  destruct e as [[m d v sp dt st pc i stk] o pp kp lk bp cs kw dbg bps pa].
  cbn [cpu ST DT] in *.
  destruct (Z.gtb_spec st 0) as [H1 | H1];
    unfold upd, set_cpu, set_ST, set_DT;
    cbn [cpu ST DT memory display V SP PC I stack
         opcode prev_PC keypad last_key brk_point clock_speed key_waiting
         dbg_output brk_point_set paused];
    destruct (Z.gtb_spec dt 0) as [H2 | H2];
    cbn [cpu ST DT memory display V SP PC I stack
         opcode prev_PC keypad last_key brk_point clock_speed key_waiting
         dbg_output brk_point_set paused];
    unfold u8; rewrite ?Z.mod_small by lia;
    repeat f_equal; lia.
Qed.

(** X14.  The timers count down to 0 and stay there.  On an emulator whose
    timers are bytes, [n] calls of [emulator_timer_dec] leave the delay timer
    at max (0, DT - n) and the sound timer at max (0, ST - n), and change
    nothing else. *)
Theorem timers_count_down (n : nat) (e : emulator) :
  byte (DT (cpu e)) ->
  byte (ST (cpu e)) ->
  Nat.iter n emulator_timer_dec e
  = upd (set_DT (Z.max 0 (DT (cpu e) - Z.of_nat n)))
      (upd (set_ST (Z.max 0 (ST (cpu e) - Z.of_nat n))) e).
Proof.
  unfold byte. intros HD HS. induction n as [|k IH].
  - simpl. destruct e as [[m d v sp dt st pc i stk] o pp kp lk bp cs kw dbg bps pa].
    cbn [cpu ST DT] in *. unfold upd, set_cpu, set_DT, set_ST. simpl.
    repeat f_equal; lia.
  - rewrite Nat.iter_succ, IH. rewrite timer_dec_step.
    + unfold upd, set_cpu, set_DT, set_ST.
      cbn [cpu ST DT memory display V SP PC I stack
           opcode prev_PC keypad last_key brk_point clock_speed key_waiting
           dbg_output brk_point_set paused].
      f_equal. f_equal; lia.
    + cbn [cpu upd set_cpu set_ST set_DT ST DT]. unfold byte. lia.
    + cbn [cpu upd set_cpu set_ST set_DT ST DT]. unfold byte. lia.
Qed.

(** At DT = 3 and ST = 1, five ticks. *)
Lemma timers_count_down_witness :
  DT (cpu (Nat.iter 5 emulator_timer_dec
             (upd (set_DT 3) (upd (set_ST 1) emulator_init)))) = 0 /\
  ST (cpu (Nat.iter 5 emulator_timer_dec
             (upd (set_DT 3) (upd (set_ST 1) emulator_init)))) = 0 /\
  DT (cpu (Nat.iter 2 emulator_timer_dec
             (upd (set_DT 3) (upd (set_ST 1) emulator_init)))) = 1.
Proof.
  rewrite (timers_count_down 5), (timers_count_down 2);
    try (change (byte 3); unfold byte; lia);
    try (change (byte 1); unfold byte; lia).
  repeat split.
Defined.

(** ** The keypad *)

Lemma land_bit a k :
  0 <= k -> (Z.land a (Z.shiftl 1 k) =? 0) = negb (Z.testbit a k).
Proof.
  intros Hk. rewrite Z.shiftl_1_l.
  destruct (Z.testbit a k) eqn:E; simpl.
  - apply Z.eqb_neq. intros H0.
    assert (T : Z.testbit (Z.land a (2 ^ k)) k = true).
    { rewrite Z.land_spec, E, Z.pow2_bits_true by lia. reflexivity. }
    rewrite H0, Z.bits_0 in T. discriminate T.
  - apply Z.eqb_eq. apply Z.bits_inj'. intros n Hn.
    rewrite Z.land_spec, Z.bits_0, Z.pow2_bits_eqb by lia.
    destruct (Z.eqb_spec k n) as [<- | _]; [rewrite E; reflexivity | apply andb_false_r].
Qed.

Lemma is_pressed_bit e k :
  0 <= k < 31 -> keypad_is_pressed e k = Ret (key_bit e k).
Proof.
  intros Hk. unfold keypad_is_pressed, key_bit.
  destruct (Z.ltb_spec k 31) as [_ | H]; [| lia].
  rewrite land_bit by lia. rewrite negb_involutive. reflexivity.
Qed.

Lemma sdlk_to_c8k_range key : 0 <= sdlk_to_c8k key < 16.
Proof. destruct key; simpl; lia. Qed.

Lemma u16_bit z i : 0 <= i < 16 -> Z.testbit (u16 z) i = Z.testbit z i.
Proof.
  intros Hi. unfold u16. change 65536 with (2 ^ 16).
  apply Z.mod_pow2_bits_low. lia.
Qed.

Lemma keypad_of_pressed key e :
  keypad (keypad_pressed key e)
  = u16 (Z.lor (keypad e) (Z.shiftl 1 (sdlk_to_c8k key))).
Proof. unfold keypad_pressed. destruct (key_waiting _); reflexivity. Qed.

Lemma pressed_bit key e i :
  0 <= i < 16 ->
  key_bit (keypad_pressed key e) i = key_bit e i || (sdlk_to_c8k key =? i).
Proof.
  intros Hi. pose proof (sdlk_to_c8k_range key) as Hc.
  unfold key_bit. rewrite keypad_of_pressed, u16_bit by exact Hi.
  rewrite Z.lor_spec, Z.shiftl_1_l, Z.pow2_bits_eqb by lia. reflexivity.
Qed.

Lemma released_bit key e i :
  0 <= i < 16 ->
  key_bit (keypad_released key e) i = xorb (key_bit e i) (sdlk_to_c8k key =? i).
Proof.
  intros Hi. pose proof (sdlk_to_c8k_range key) as Hc.
  unfold key_bit, keypad_released. cbn [keypad set_keypad].
  rewrite u16_bit by exact Hi.
  rewrite Z.lxor_spec, Z.shiftl_1_l, Z.pow2_bits_eqb by lia. reflexivity.
Qed.

(** X15.  The key map.  [sdlk_to_c8k] maps the sixteen key codes it names onto
    the sixteen keys 0 .. F, no two to the same key; every other key code
    gets the value of the key X, which is 0. *)
Theorem sdlk_to_c8k_bijective :
  (forall k1 k2, In k1 keypad_keys -> In k2 keypad_keys ->
     sdlk_to_c8k k1 = sdlk_to_c8k k2 -> k1 = k2) /\
  (forall c, 0 <= c < 16 -> exists k, In k keypad_keys /\ sdlk_to_c8k k = c) /\
  (forall k, In k keypad_keys \/ k = SDLK_other) /\
  sdlk_to_c8k SDLK_other = sdlk_to_c8k SDLK_x /\
  sdlk_to_c8k SDLK_x = 0.
Proof.
  split; [| split; [| split; [| split]]].
  - intros k1 k2 H1 H2. unfold keypad_keys in H1, H2.
    destruct k1, k2; simpl; intros H;
      first [ reflexivity | discriminate H
            | exfalso; simpl in H1, H2; intuition discriminate ].
  - intros c Hc.
    assert (Hcases : c = 0 \/ c = 1 \/ c = 2 \/ c = 3 \/ c = 4 \/ c = 5 \/ c = 6 \/
                     c = 7 \/ c = 8 \/ c = 9 \/ c = 10 \/ c = 11 \/ c = 12 \/
                     c = 13 \/ c = 14 \/ c = 15) by lia.
    unfold keypad_keys.
    repeat (destruct Hcases as [-> | Hcases]);
      [exists SDLK_x | exists SDLK_1 | exists SDLK_2 | exists SDLK_3
      | exists SDLK_q | exists SDLK_w | exists SDLK_e | exists SDLK_a
      | exists SDLK_s | exists SDLK_d | exists SDLK_y | exists SDLK_c
      | exists SDLK_4 | exists SDLK_r | exists SDLK_f
      | subst c; exists SDLK_v];
      (split; [simpl; tauto | reflexivity]).
  - intros k. unfold keypad_keys. destruct k; simpl; tauto.
  - reflexivity.
  - reflexivity.
Qed.

(** The key A has a key code. *)
Lemma sdlk_to_c8k_bijective_witness :
  exists k, In k keypad_keys /\ sdlk_to_c8k k = 0xA.
Proof.
  destruct sdlk_to_c8k_bijective as (_ & Honto & _).
  apply (Honto 0xA). lia.
Defined.

(** X16.  Key down, key up.  After the key-down event of a keypad key the key
    reads as pressed, and every other key of the keypad reads as before; the
    machine state is not touched.  After the key-up event that follows, the
    key reads as not pressed. *)
Theorem pressed_key_reads_pressed (key : SDL_Keycode) (e : emulator) :
  keypad_is_pressed (keypad_pressed key e) (sdlk_to_c8k key) = Ret true /\
  (forall k, 0 <= k < 16 -> k <> sdlk_to_c8k key ->
     keypad_is_pressed (keypad_pressed key e) k = keypad_is_pressed e k) /\
  cpu (keypad_pressed key e) = cpu e /\
  keypad_is_pressed (keypad_released key (keypad_pressed key e)) (sdlk_to_c8k key)
    = Ret false /\
  (forall k, 0 <= k < 16 -> k <> sdlk_to_c8k key ->
     keypad_is_pressed (keypad_released key (keypad_pressed key e)) k
     = keypad_is_pressed e k).
Proof.
  pose proof (sdlk_to_c8k_range key) as Hc.
  split; [| split; [| split; [| split]]].
  - rewrite is_pressed_bit by lia. rewrite pressed_bit by lia.
    rewrite Z.eqb_refl, orb_true_r. reflexivity.
  - intros k Hk Hne. rewrite !is_pressed_bit by lia. rewrite pressed_bit by lia.
    destruct (Z.eqb_spec (sdlk_to_c8k key) k) as [Heq | _]; [congruence |].
    rewrite orb_false_r. reflexivity.
  - unfold keypad_pressed. destruct (key_waiting _); reflexivity.
  - rewrite is_pressed_bit by lia. rewrite released_bit, pressed_bit by lia.
    rewrite Z.eqb_refl, orb_true_r. reflexivity.
  - intros k Hk Hne. rewrite !is_pressed_bit by lia.
    rewrite released_bit, pressed_bit by lia.
    destruct (Z.eqb_spec (sdlk_to_c8k key) k) as [Heq | _]; [congruence |].
    rewrite orb_false_r, xorb_false_r. reflexivity.
Qed.

(** At the key W (the key 5) and the key 3, from the start. *)
Lemma pressed_key_reads_pressed_witness :
  keypad_is_pressed (keypad_pressed SDLK_w emulator_init) 5 = Ret true /\
  keypad_is_pressed (keypad_pressed SDLK_w emulator_init) 3
  = keypad_is_pressed emulator_init 3.
Proof.
  destruct (pressed_key_reads_pressed SDLK_w emulator_init)
    as (Hdown & Hothers & _).
  split; [exact Hdown |].
  apply Hothers; [lia |]. change (3 <> 5). lia.
Defined.

(** X17.  Key up toggles.  [keypad_released] flips the bit of the key: a key
    that reads as not pressed (its key-down event was not seen) reads as
    pressed after its key-up event, and two key-up events in a row give the
    keypad back as it was on the sixteen keys. *)
Theorem key_up_toggles (key : SDL_Keycode) (e : emulator) :
  keypad_is_pressed e (sdlk_to_c8k key) = Ret (key_bit e (sdlk_to_c8k key)) /\
  keypad_is_pressed (keypad_released key e) (sdlk_to_c8k key)
    = Ret (negb (key_bit e (sdlk_to_c8k key))) /\
  (forall k, 0 <= k < 16 ->
     keypad_is_pressed (keypad_released key (keypad_released key e)) k
     = keypad_is_pressed e k).
Proof.
  pose proof (sdlk_to_c8k_range key) as Hc.
  split; [| split].
  - apply is_pressed_bit. lia.
  - rewrite is_pressed_bit by lia. rewrite released_bit by lia.
    rewrite Z.eqb_refl, xorb_true_r. reflexivity.
  - intros k Hk. rewrite !is_pressed_bit by lia. rewrite !released_bit by lia.
    rewrite xorb_assoc, xorb_nilpotent, xorb_false_r. reflexivity.
Qed.

(** At the key W (the key 5), from the start. *)
Lemma key_up_toggles_witness :
  keypad_is_pressed
    (keypad_released SDLK_w (keypad_released SDLK_w emulator_init)) 5
  = keypad_is_pressed emulator_init 5.
Proof.
  destruct (key_up_toggles SDLK_w emulator_init) as (_ & _ & Htwice).
  apply Htwice. lia.
Defined.

Lemma dispatch_Ex9E rnd op e :
  Z.shiftr (Z.land op 0xF000) 12 = 0xE -> Z.land op 0xFF = 0x9E ->
  dispatch rnd op e = instr_SKP_Vx op e.
Proof.
  intros HE H9E. unfold dispatch. rewrite HE. simpl.
  unfold case_0xE. rewrite H9E. reflexivity.
Qed.

Lemma dispatch_ExA1 rnd op e :
  Z.shiftr (Z.land op 0xF000) 12 = 0xE -> Z.land op 0xFF = 0xA1 ->
  dispatch rnd op e = instr_SKNP_Vx op e.
Proof.
  intros HE HA1. unfold dispatch. rewrite HE. simpl.
  unfold case_0xE. rewrite HA1. reflexivity.
Qed.

(** X18.  The key tests.  With a register value Vx below 31, Ex9E skips the
    next instruction exactly when bit Vx of the keypad bitmap is set and ExA1
    exactly when it is not; nothing but the PC changes.  The bitmap has 16
    bits, so for 16 <= Vx <= 30 the key reads as not pressed:  Ex9E never
    skips and ExA1 always does. *)
Theorem key_skips_test_keypad_bit (rnd op : Z) (e : emulator) :
  well_formed e ->
  Z.shiftr (Z.land op 0xF000) 12 = 0xE ->
  Vr e (op_x op) < 31 ->
  (Z.land op 0xFF = 0x9E ->
   dispatch rnd op e = Ret (EML_OK, skip_if (key_bit e (Vr e (op_x op))) e)) /\
  (Z.land op 0xFF = 0xA1 ->
   dispatch rnd op e = Ret (EML_OK, skip_if (negb (key_bit e (Vr e (op_x op)))) e)) /\
  (16 <= Vr e (op_x op) -> key_bit e (Vr e (op_x op)) = false).
Proof.
  intros Hwf HE Hv.
  pose proof (byte_Vr e (op_x op) Hwf) as Hb. unfold byte in Hb.
  split; [| split].
  - intros H9E. rewrite (dispatch_Ex9E rnd op e HE H9E). unfold instr_SKP_Vx.
    rewrite is_pressed_bit by lia. reflexivity.
  - intros HA1. rewrite (dispatch_ExA1 rnd op e HE HA1). unfold instr_SKNP_Vx.
    rewrite is_pressed_bit by lia. reflexivity.
  - intros H16. unfold key_bit.
    pose proof (wf_keypad e Hwf) as Hk. unfold word in Hk.
    rewrite <- (Z.mod_small (keypad e) (2 ^ 16)) by (change (2 ^ 16) with 65536; lia).
    apply Z.mod_pow2_bits_high. lia.
Qed.

(** With the key W (5) down: SKP on V1 = 5 skips, on V1 = 21 it does not. *)
Lemma key_skips_test_keypad_bit_witness :
  dispatch 0 0xE19E (with_regs [(1, 5)] (keypad_pressed SDLK_w emulator_init))
    = Ret (EML_OK,
           upd (set_PC 0x202) (with_regs [(1, 5)] (keypad_pressed SDLK_w emulator_init))) /\
  dispatch 0 0xE19E (with_regs [(1, 21)] (keypad_pressed SDLK_w emulator_init))
    = Ret (EML_OK, with_regs [(1, 21)] (keypad_pressed SDLK_w emulator_init)).
Proof.
  assert (Hwf : forall v, byte v ->
            well_formed (with_regs [(1, v)] (keypad_pressed SDLK_w emulator_init))).
  { intros v Hv. apply with_regs_well_formed.
    - apply keypad_pressed_well_formed. apply emulator_init_well_formed.
    - constructor; [exact Hv | constructor]. }
  split.
  - destruct (key_skips_test_keypad_bit 0 0xE19E
                (with_regs [(1, 5)] (keypad_pressed SDLK_w emulator_init)))
      as (Hskp & _ & _).
    + apply Hwf. unfold byte. lia.
    + reflexivity.
    + change (5 < 31). lia.
    + rewrite Hskp by reflexivity. reflexivity.
  - destruct (key_skips_test_keypad_bit 0 0xE19E
                (with_regs [(1, 21)] (keypad_pressed SDLK_w emulator_init)))
      as (Hskp & _ & Hhigh).
    + apply Hwf. unfold byte. lia.
    + reflexivity.
    + change (21 < 31). lia.
    + rewrite Hskp by reflexivity. rewrite Hhigh; [reflexivity |].
      change (16 <= 21). lia.
Defined.

(** * The single-file engine ([src/chip8.c]) next to the other *)

(** ** Handlers do not look at the recorded address *)

Ltac prev_PC_handler :=
  intros ? ? ?;
  cbv beta delta [skip_if res_map keep_status Vr set_Vr upd];
  cbn [cpu set_prev_PC set_cpu last_key keypad fst snd];
  repeat match goal with
         | |- context [if ?c then _ else _] => destruct c
         end;
  reflexivity.

Lemma prev_CLS : prev_PC_blind instr_CLS.
Proof. unfold instr_CLS. prev_PC_handler. Qed.
Lemma prev_RET : prev_PC_blind instr_RET.
Proof. unfold instr_RET. prev_PC_handler. Qed.
Lemma prev_JP_nnn : prev_PC_blind instr_JP_nnn.
Proof. unfold instr_JP_nnn. prev_PC_handler. Qed.
Lemma prev_CALL_nnn : prev_PC_blind instr_CALL_nnn.
Proof. unfold instr_CALL_nnn. prev_PC_handler. Qed.
Lemma prev_SE_Vx_kk : prev_PC_blind instr_SE_Vx_kk.
Proof. unfold instr_SE_Vx_kk. prev_PC_handler. Qed.
Lemma prev_SNE_Vx_kk : prev_PC_blind instr_SNE_Vx_kk.
Proof. unfold instr_SNE_Vx_kk. prev_PC_handler. Qed.
Lemma prev_SE_Vx_Vy : prev_PC_blind instr_SE_Vx_Vy.
Proof. unfold instr_SE_Vx_Vy. prev_PC_handler. Qed.
Lemma prev_LD_Vx_kk : prev_PC_blind instr_LD_Vx_kk.
Proof. unfold instr_LD_Vx_kk. prev_PC_handler. Qed.
Lemma prev_ADD_Vx_kk : prev_PC_blind instr_ADD_Vx_kk.
Proof. unfold instr_ADD_Vx_kk. prev_PC_handler. Qed.
Lemma prev_LD_Vx_Vy : prev_PC_blind instr_LD_Vx_Vy.
Proof. unfold instr_LD_Vx_Vy. prev_PC_handler. Qed.
Lemma prev_OR_Vx_Vy : prev_PC_blind instr_OR_Vx_Vy.
Proof. unfold instr_OR_Vx_Vy. prev_PC_handler. Qed.
Lemma prev_AND_Vx_Vy : prev_PC_blind instr_AND_Vx_Vy.
Proof. unfold instr_AND_Vx_Vy. prev_PC_handler. Qed.
Lemma prev_XOR_Vx_Vy : prev_PC_blind instr_XOR_Vx_Vy.
Proof. unfold instr_XOR_Vx_Vy. prev_PC_handler. Qed.
Lemma prev_ADD_Vx_Vy : prev_PC_blind instr_ADD_Vx_Vy.
Proof. unfold instr_ADD_Vx_Vy. prev_PC_handler. Qed.
Lemma prev_SUB_Vx_Vy : prev_PC_blind instr_SUB_Vx_Vy.
Proof. unfold instr_SUB_Vx_Vy. prev_PC_handler. Qed.
Lemma prev_SHR_Vx__Vy : prev_PC_blind instr_SHR_Vx__Vy.
Proof. unfold instr_SHR_Vx__Vy. prev_PC_handler. Qed.
Lemma prev_SUBN_Vx_Vy : prev_PC_blind instr_SUBN_Vx_Vy.
Proof. unfold instr_SUBN_Vx_Vy. prev_PC_handler. Qed.
Lemma prev_SHL_Vx_Vy : prev_PC_blind instr_SHL_Vx_Vy.
Proof. unfold instr_SHL_Vx_Vy. prev_PC_handler. Qed.
Lemma prev_SNE_Vx_Vy : prev_PC_blind instr_SNE_Vx_Vy.
Proof. unfold instr_SNE_Vx_Vy. prev_PC_handler. Qed.
Lemma prev_LD_I_nnn : prev_PC_blind instr_LD_I_nnn.
Proof. unfold instr_LD_I_nnn. prev_PC_handler. Qed.
Lemma prev_JP_V0_nnn : prev_PC_blind instr_JP_V0_nnn.
Proof. unfold instr_JP_V0_nnn. prev_PC_handler. Qed.
Lemma prev_RND_Vx_kk rnd : prev_PC_blind (instr_RND_Vx_kk rnd).
Proof. unfold instr_RND_Vx_kk. prev_PC_handler. Qed.
Lemma prev_LD_Vx_DT : prev_PC_blind instr_LD_Vx_DT.
Proof. unfold instr_LD_Vx_DT. prev_PC_handler. Qed.
Lemma prev_LD_Vx_K : prev_PC_blind instr_LD_Vx_K.
Proof. unfold instr_LD_Vx_K. prev_PC_handler. Qed.
Lemma prev_LD_DT_Vx : prev_PC_blind instr_LD_DT_Vx.
Proof. unfold instr_LD_DT_Vx. prev_PC_handler. Qed.
Lemma prev_LD_ST_Vx : prev_PC_blind instr_LD_ST_Vx.
Proof. unfold instr_LD_ST_Vx. prev_PC_handler. Qed.
Lemma prev_ADD_I_Vx : prev_PC_blind instr_ADD_I_Vx.
Proof. unfold instr_ADD_I_Vx. prev_PC_handler. Qed.
Lemma prev_LD_F_Vx : prev_PC_blind instr_LD_F_Vx.
Proof. unfold instr_LD_F_Vx. prev_PC_handler. Qed.

Lemma prev_SKP_Vx : prev_PC_blind instr_SKP_Vx.
Proof.
  unfold instr_SKP_Vx, keypad_is_pressed. intros p op e.
  change (Vr (set_prev_PC p e)) with (Vr e).
  change (keypad (set_prev_PC p e)) with (keypad e).
  destruct (Vr e (op_x op) <? 31); [| reflexivity].
  simpl. destruct (negb _); reflexivity.
Qed.

Lemma prev_SKNP_Vx : prev_PC_blind instr_SKNP_Vx.
Proof.
  unfold instr_SKNP_Vx, keypad_is_pressed. intros p op e.
  change (Vr (set_prev_PC p e)) with (Vr e).
  change (keypad (set_prev_PC p e)) with (keypad e).
  destruct (Vr e (op_x op) <? 31); [| reflexivity].
  simpl. destruct (negb _); reflexivity.
Qed.

Lemma mem_write_set_prev_PC p adr v e :
  mem_write adr v (set_prev_PC p e) = res_map (set_prev_PC p) (mem_write adr v e).
Proof. unfold mem_write. destruct (_ && _); reflexivity. Qed.

Lemma mem_read_set_prev_PC p adr e :
  mem_read adr (set_prev_PC p e) = mem_read adr e.
Proof. reflexivity. Qed.

Lemma prev_LD_B_Vx : prev_PC_blind instr_LD_B_Vx.
Proof.
  unfold instr_LD_B_Vx. intros p op e.
  change (Vr (set_prev_PC p e)) with (Vr e).
  rewrite mem_write_set_prev_PC.
  change (I (cpu (set_prev_PC p e))) with (I (cpu e)).
  destruct (mem_write (I (cpu e)) _ e) as [e1 | u]; [simpl | reflexivity].
  rewrite mem_write_set_prev_PC.
  change (I (cpu (set_prev_PC p e1))) with (I (cpu e1)).
  destruct (mem_write (I (cpu e1) + 1) _ e1) as [e2 | u]; [simpl | reflexivity].
  rewrite mem_write_set_prev_PC.
  change (I (cpu (set_prev_PC p e2))) with (I (cpu e2)).
  destruct (mem_write (I (cpu e2) + 2) _ e2) as [e3 | u]; reflexivity.
Qed.

Lemma prev_LD_I_Vx_multi : prev_PC_blind instr_LD_I_Vx_multi.
Proof.
  unfold instr_LD_I_Vx_multi. intros p op e.
  rewrite (for_loop_commute (set_prev_PC p)).
  - destruct (for_loop _ _ _ e) as [e1 | u]; reflexivity.
  - intros i s. apply mem_write_set_prev_PC.
Qed.

Lemma prev_LD_Vx_I_multi : prev_PC_blind instr_LD_Vx_I_multi.
Proof.
  unfold instr_LD_Vx_I_multi. intros p op e.
  rewrite (for_loop_commute (set_prev_PC p)).
  - destruct (for_loop _ _ _ e) as [e1 | u]; reflexivity.
  - intros i s. rewrite mem_read_set_prev_PC.
    destruct (mem_read _ s) as [b | u]; reflexivity.
Qed.

Lemma prev_DRW_Vx_Vy_n : prev_PC_blind instr_DRW_Vx_Vy_n.
Proof.
  unfold instr_DRW_Vx_Vy_n. intros p op e.
  change (Vr (set_prev_PC p e)) with (Vr e).
  change (set_prev_PC p e, 0) with (set_prev_PC_loop p (e, 0)).
  rewrite (for_loop_commute (set_prev_PC_loop p)).
  - destruct (for_loop _ _ _ (e, 0)) as [s | u]; reflexivity.
  - intros i s. apply for_loop_commute. intros j s0.
    unfold draw_pixel, set_prev_PC_loop. simpl.
    rewrite mem_read_set_prev_PC.
    destruct (mem_read _ s0.1) as [b | u]; reflexivity.
Qed.

Lemma prev_case_0xF : prev_PC_blind case_0xF.
Proof.
  intros p op e. unfold case_0xF. cbv zeta.
  repeat match goal with
         | |- context [if ?c then _ else _] => destruct c
         end;
    first [ apply prev_LD_Vx_DT | apply prev_LD_Vx_K | apply prev_LD_DT_Vx
          | apply prev_LD_ST_Vx | apply prev_ADD_I_Vx | apply prev_LD_F_Vx
          | apply prev_LD_B_Vx | apply prev_LD_I_Vx_multi
          | apply prev_LD_Vx_I_multi | reflexivity ].
Qed.

Lemma prev_case_0xE : prev_PC_blind case_0xE.
Proof.
  intros p op e. unfold case_0xE. cbv zeta.
  repeat match goal with
         | |- context [if ?c then _ else _] => destruct c
         end;
    first [ apply prev_SKP_Vx | apply prev_SKNP_Vx | apply prev_case_0xF ].
Qed.

Lemma prev_case_0x8 : prev_PC_blind case_0x8.
Proof.
  intros p op e. unfold case_0x8, case_0x9. cbv zeta.
  repeat match goal with
         | |- context [if ?c then _ else _] => destruct c
         end;
    first [ apply prev_LD_Vx_Vy | apply prev_OR_Vx_Vy | apply prev_AND_Vx_Vy
          | apply prev_XOR_Vx_Vy | apply prev_ADD_Vx_Vy | apply prev_SUB_Vx_Vy
          | apply prev_SHR_Vx__Vy | apply prev_SUBN_Vx_Vy
          | apply prev_SHL_Vx_Vy | apply prev_SNE_Vx_Vy ].
Qed.

Lemma prev_case_0x0 : prev_PC_blind case_0x0.
Proof.
  intros p op e. unfold case_0x0, case_0x1. cbv zeta.
  repeat match goal with
         | |- context [if ?c then _ else _] => destruct c
         end;
    first [ apply prev_CLS | apply prev_RET | apply prev_JP_nnn ].
Qed.

Lemma prev_dispatch rnd : prev_PC_blind (dispatch rnd).
Proof.
  intros p op e. unfold dispatch, case_0x1, case_0x9. cbv zeta.
  repeat match goal with
         | |- context [if ?c then _ else _] => destruct c
         end;
    first [ apply prev_case_0x0 | apply prev_JP_nnn | apply prev_CALL_nnn
          | apply prev_SE_Vx_kk | apply prev_SNE_Vx_kk | apply prev_SE_Vx_Vy
          | apply prev_LD_Vx_kk | apply prev_ADD_Vx_kk | apply prev_case_0x8
          | apply prev_SNE_Vx_Vy | apply prev_LD_I_nnn | apply prev_JP_V0_nnn
          | apply prev_RND_Vx_kk | apply prev_DRW_Vx_Vy_n | apply prev_case_0xE
          | apply prev_case_0xF | reflexivity ].
Qed.

(** ** The same instructions in both engines *)

Lemma dispatch_family rnd op e k :
  Z.shiftr (Z.land op 0xF000) 12 = k ->
  dispatch rnd op e =
    (if k =? 0x0 then case_0x0 op e
     else if k =? 0x1 then case_0x1 op e
     else if k =? 0x2 then instr_CALL_nnn op e
     else if k =? 0x3 then instr_SE_Vx_kk op e
     else if k =? 0x4 then instr_SNE_Vx_kk op e
     else if k =? 0x5 then instr_SE_Vx_Vy op e
     else if k =? 0x6 then instr_LD_Vx_kk op e
     else if k =? 0x7 then instr_ADD_Vx_kk op e
     else if k =? 0x8 then case_0x8 op e
     else if k =? 0x9 then case_0x9 op e
     else if k =? 0xA then instr_LD_I_nnn op e
     else if k =? 0xB then instr_JP_V0_nnn op e
     else if k =? 0xC then instr_RND_Vx_kk rnd op e
     else if k =? 0xD then instr_DRW_Vx_Vy_n op e
     else if k =? 0xE then case_0xE op e
     else if k =? 0xF then case_0xF op e
     else Ret (EML_UNK_OPC, e)).
Proof. intros <-. reflexivity. Qed.

(** Closing the comparison of two handler bodies that are the same
    statements. *)
Ltac same_body :=
  repeat match goal with
         | |- context [if ?c then _ else _] => destruct c
         | |- context [for_loop ?n ?i ?b ?s] => destruct (for_loop n i b s)
         | |- context [mem_write ?a ?v ?s] => destruct (mem_write a v s)
         | |- context [keypad_is_pressed ?s ?k] => destruct (keypad_is_pressed s k)
         end;
  try reflexivity.

Lemma flat_handlers_agree rnd e :
  same_instruction (opcode e) = true ->
  exists h,
    Flat.j_tbl1 rnd !! Z.to_nat (Z.shiftr (Z.land (opcode e) 0xF000) 12) = Some h /\
    res_map read_status (h e) = dispatch rnd (opcode e) e.
Proof.
  intros Hsame.
  pose proof (family_range (opcode e)) as Hr.
  pose proof (land_15_range (opcode e)) as Hn.
  unfold same_instruction in Hsame. cbv zeta in Hsame.
  assert (Hc : exists k, Z.shiftr (Z.land (opcode e) 0xF000) 12 = k /\
                 In k [0; 1; 2; 3; 4; 5; 6; 7; 8; 9; 10; 11; 12; 13; 14; 15]).
  { eexists. split; [reflexivity |]. simpl. lia. }
  destruct Hc as (k & Hk & Hin).
  rewrite (dispatch_family rnd (opcode e) e k Hk). rewrite Hk in Hsame |- *.
  simpl in Hin.
  repeat (destruct Hin as [<- | Hin]); [.. | contradiction];
    (eexists; split; [reflexivity |]);
    cbn [Z.eqb Pos.eqb] in Hsame |- *.
  all: unfold read_status, flat_status, res_map.
  all: cbv beta delta
         [Flat._b0 Flat._b1 Flat._b2 Flat._b3 Flat._b4 Flat._b5 Flat._b6 Flat._b7
          Flat._b8 Flat._b9 Flat._bA Flat._bB Flat._bC Flat._bD Flat._bE Flat._bF
          case_0x0 case_0x1 case_0x8 case_0x9 case_0xE case_0xF
          instr_CLS instr_RET instr_JP_nnn instr_CALL_nnn instr_SE_Vx_kk
          instr_SNE_Vx_kk instr_SE_Vx_Vy instr_LD_Vx_kk instr_ADD_Vx_kk
          instr_LD_Vx_Vy instr_OR_Vx_Vy instr_AND_Vx_Vy instr_XOR_Vx_Vy
          instr_ADD_Vx_Vy instr_SUB_Vx_Vy instr_SHR_Vx__Vy instr_SUBN_Vx_Vy
          instr_SHL_Vx_Vy instr_SNE_Vx_Vy instr_LD_I_nnn instr_JP_V0_nnn
          instr_RND_Vx_kk instr_DRW_Vx_Vy_n instr_SKP_Vx instr_SKNP_Vx
          instr_LD_Vx_DT instr_LD_Vx_K instr_LD_DT_Vx instr_LD_ST_Vx
          instr_ADD_I_Vx instr_LD_F_Vx instr_LD_B_Vx instr_LD_I_Vx_multi
          instr_LD_Vx_I_multi]; cbv zeta.
  all: revert Hsame.
  all: repeat match goal with
              | |- context [if ?a =? ?b then _ else _] => destruct (Z.eqb_spec a b)
              | |- context [for_loop ?n ?i ?b ?s] => destruct (for_loop n i b s)
              | |- context [mem_write ?a ?v ?s] => destruct (mem_write a v s)
              | |- context [keypad_is_pressed ?s ?k] =>
                  destruct (keypad_is_pressed s k)
              | _ => progress cbn [mbind res_bind]
              end.
  all: intros Hsame; try reflexivity; try discriminate Hsame.
  exfalso. rewrite orb_false_r in Hsame. apply Z.leb_le in Hsame. lia.
Qed.

Lemma flat_cycle_running rnd e op :
  key_waiting e = false -> PC (cpu e) + 1 < MEM_SIZE -> fetch e = Ret op ->
  Flat.chip8_cycle rnd e =
    match Flat.j_tbl1 rnd !! Z.to_nat (Z.shiftr (Z.land op 0xF000) 12) with
    | Some h =>
        r ← h (set_prev_PC (u16 (PC (cpu e) + 2)) (advance op e));
        Ret (Flat.brk_check r.1 r.2, r.2)
    | None => Undef (OutOfBoundsRead (Z.shiftr (Z.land op 0xF000) 12))
    end.
Proof.
  intros Hk Hpc Hf. unfold Flat.chip8_cycle. rewrite Hk.
  destruct (Z.geb_spec (PC (cpu e) + 1) MEM_SIZE) as [Hge | _]; [lia |].
  rewrite Hf. reflexivity.
Qed.

Lemma set_prev_PC_id e : set_prev_PC (prev_PC e) e = e.
Proof. destruct e. reflexivity. Qed.

(** X19.  The two engines execute the same instructions.  On a cycle that
    fetches (no key wait, PC inside the memory), with no breakpoint set and an
    opcode on which the two sources have the same statements, what
    [emulator_cycle] returns is what [chip8_cycle] returns, with
    [EML_WAIT_KEY] read as [EML_OK] and with [prev_PC] holding the address of
    the instruction instead of the address after it.  The opcodes left out are
    Fx55 and Fx65 and the opcodes that no [case] label of the families 0, 8
    and E matches. *)
Theorem flat_cycle_agrees (rnd op : Z) (e : emulator) :
  key_waiting e = false ->
  PC (cpu e) + 1 < MEM_SIZE ->
  brk_point_set e = false ->
  fetch e = Ret op ->
  same_instruction op = true ->
  emulator_cycle rnd e
  = res_map (read_result (PC (cpu e))) (Flat.chip8_cycle rnd e).
Proof.
  intros Hk Hpc Hbrk Hf Hsame.
  rewrite (flat_cycle_running rnd e op Hk Hpc Hf).
  rewrite emulator_cycle_running by assumption. rewrite Hf. cbn [mbind res_bind].
  set (p' := u16 (PC (cpu e) + 2)).
  set (ef := set_prev_PC p' (advance op e)).
  destruct (flat_handlers_agree rnd ef) as (h & Hh & Hag); [exact Hsame |].
  change (opcode ef) with op in Hh, Hag. rewrite Hh.
  assert (Hdisp : dispatch rnd op ef
                  = res_map (keep_status (set_prev_PC p')) (dispatch rnd op (advance op e)))
    by apply prev_dispatch.
  rewrite Hdisp in Hag. clear Hdisp.
  destruct (dispatch rnd op (advance op e)) as [[st e'] | u] eqn:Hd.
  - destruct (benign_dispatch rnd op (advance op e) st e' Hd)
      as [_ (_ & Hprev & _ & Hset)].
    assert (Hp : prev_PC e' = PC (cpu e)) by exact Hprev.
    assert (Hoff : brk_point_set e' = false) by (rewrite Hset; exact Hbrk).
    destruct (h ef) as [[fs ef'] | u] eqn:Hh2; [| discriminate Hag].
    cbn [res_map read_status keep_status fst snd] in Hag.
    injection Hag as Hst He. subst ef'.
    cbn [mbind res_bind res_map read_result fst snd].
    rewrite (brk_check_off st e' Hoff).
    unfold Flat.brk_check. cbn [brk_point_set set_prev_PC].
    rewrite Hoff. cbn [andb].
    unfold read_result. cbn [fst snd]. rewrite Hst. f_equal. f_equal.
    change (set_prev_PC (PC (cpu e)) (set_prev_PC p' e'))
      with (set_prev_PC (PC (cpu e)) e').
    rewrite <- Hp. symmetry. apply set_prev_PC_id.
  - destruct (h ef) as [r | u'] eqn:Hh2; [discriminate Hag |].
    cbn [res_map] in Hag. injection Hag as ->. reflexivity.
Qed.

(** At the program [6A 2A; 6B 07]. *)
Lemma flat_cycle_agrees_witness :
  emulator_cycle 0 (boot [0x6A; 0x2A; 0x6B; 0x07])
  = res_map (read_result 0x200) (Flat.chip8_cycle 0 (boot [0x6A; 0x2A; 0x6B; 0x07])).
Proof.
  apply (flat_cycle_agrees 0 0x6A2A (boot [0x6A; 0x2A; 0x6B; 0x07])).
  - reflexivity.
  - reflexivity.
  - reflexivity.
  - vm_compute. reflexivity.
  - reflexivity.
Defined.

(** ** Where [src/chip8.c] moves I *)

Lemma store_loop_I cnt i e e' :
  for_loop cnt i (fun i e => mem_write (I (cpu e) + i) (Vr e i) e) e = Ret e' ->
  I (cpu e') = I (cpu e).
Proof.
  intros H.
  apply (for_loop_inv (fun s => I (cpu s) = I (cpu e))) in H; [exact H | | reflexivity].
  intros k s s' Hs Hw. rewrite (mem_write_I _ _ _ _ Hw). exact Hs.
Qed.

Lemma load_loop_I cnt i e e' :
  for_loop cnt i (fun i e => b ← mem_read (I (cpu e) + i) e; Ret (set_Vr i b e)) e
    = Ret e' ->
  I (cpu e') = I (cpu e).
Proof.
  intros H.
  apply (for_loop_inv (fun s => I (cpu s) = I (cpu e))) in H; [exact H | | reflexivity].
  intros k s s' Hs Hr.
  apply bind_Ret_inv in Hr. destruct Hr as (b & _ & Hr).
  injection Hr as <-. exact Hs.
Qed.

Lemma flat_dump_load (e : emulator) :
  (Z.land (opcode e) 0xFF = 0x55 ->
   Flat._bF e
   = res_map (move_I (u16 (I (cpu e) + (op_x (opcode e) + 1))))
       (instr_LD_I_Vx_multi (opcode e) e)) /\
  (Z.land (opcode e) 0xFF = 0x65 ->
   Flat._bF e
   = res_map (move_I (u16 (I (cpu e) + (op_x (opcode e) + 1))))
       (instr_LD_Vx_I_multi (opcode e) e)).
Proof.
  split; intros Hlo; unfold Flat._bF; cbv zeta; rewrite Hlo;
    cbn [Z.eqb Pos.eqb].
  - unfold instr_LD_I_Vx_multi.
    destruct (for_loop _ 0 _ e) as [e1 | u] eqn:E; [| reflexivity].
    cbn [mbind res_bind res_map move_I fst snd].
    rewrite (store_loop_I _ _ _ _ E). reflexivity.
  - unfold instr_LD_Vx_I_multi.
    destruct (for_loop _ 0 _ e) as [e1 | u] eqn:E; [| reflexivity].
    cbn [mbind res_bind res_map move_I fst snd].
    rewrite (load_loop_I _ _ _ _ E). reflexivity.
Qed.

(** X20.  Fx55 and Fx65 in [src/chip8.c].  [_bF] does what the handlers of
    [src/emulator/chip8.c] do, the accesses outside the memory included, and
    then adds x + 1 to I (modulo 65536). *)
Theorem flat_register_dump_advances_I (e : emulator) :
  (Z.land (opcode e) 0xFF = 0x55 ->
   Flat._bF e
   = res_map (move_I (u16 (I (cpu e) + (op_x (opcode e) + 1))))
       (instr_LD_I_Vx_multi (opcode e) e)) /\
  (Z.land (opcode e) 0xFF = 0x65 ->
   Flat._bF e
   = res_map (move_I (u16 (I (cpu e) + (op_x (opcode e) + 1))))
       (instr_LD_Vx_I_multi (opcode e) e)).
Proof. exact (flat_dump_load e). Qed.

(** At V0..V2 = 7, 8, 9 and I = 0x300, LD [I], V2 (F255). *)
Lemma flat_register_dump_advances_I_witness :
  res_map (fun r => (r.1, I (cpu r.2), get (memory (cpu r.2)) 0x302))
    (Flat._bF (set_opcode 0xF255
                 (upd (set_I 0x300) (with_regs [(0, 7); (1, 8); (2, 9)] emulator_init))))
  = Ret (Flat.EML_OK, 0x303, 9).
Proof.
  destruct (flat_register_dump_advances_I
              (set_opcode 0xF255
                 (upd (set_I 0x300) (with_regs [(0, 7); (1, 8); (2, 9)] emulator_init))))
    as [H55 _].
  rewrite H55 by reflexivity. vm_compute. reflexivity.
Defined.

(** ** The breakpoint of [src/chip8.c] *)

Lemma flat_family_E_unknown e :
  Z.land (opcode e) 0xFF <> 0x9E -> Z.land (opcode e) 0xFF <> 0xA1 ->
  Flat._bE e = Ret (Flat.EML_UNK_OPC, e).
Proof.
  intros H9E HA1. unfold Flat._bE. cbv zeta.
  destruct (Z.eqb_spec (Z.land (opcode e) 0xFF) 0x9E) as [H | _]; [contradiction |].
  destruct (Z.eqb_spec (Z.land (opcode e) 0xFF) 0xA1) as [H | _]; [contradiction |].
  reflexivity.
Qed.

Lemma frame_set_I e e' i : frame e e' -> frame e (upd (set_I i) e').
Proof. intros H. exact H. Qed.

(** No handler of [j_tbl1] reports a breakpoint or touches what the cycle
    recorded and the breakpoint configuration. *)
Lemma flat_handler_frame rnd e h fs e' :
  Flat.j_tbl1 rnd !! Z.to_nat (Z.shiftr (Z.land (opcode e) 0xF000) 12) = Some h ->
  h e = Ret (fs, e') ->
  fs <> Flat.EML_BRK_REACHED /\ frame e e'.
Proof.
  intros Hh Hrun.
  destruct (same_instruction (opcode e)) eqn:Hsame.
  - destruct (flat_handlers_agree rnd e Hsame) as (h' & Hh' & Hag).
    rewrite Hh in Hh'. injection Hh' as <-.
    rewrite Hrun in Hag. cbn [res_map read_status fst snd] in Hag.
    symmetry in Hag.
    destruct (benign_dispatch rnd (opcode e) e _ _ Hag) as [Hst Hfr].
    split; [| exact Hfr].
    intros ->. cbn [flat_status] in Hst.
    destruct Hst as [[Hst | Hst] | [Hst _]]; discriminate Hst.
  - pose proof (family_range (opcode e)) as Hr.
    pose proof (land_15_range (opcode e)) as Hn.
    unfold same_instruction in Hsame. cbv zeta in Hsame.
    destruct (Z.eqb_spec (Z.shiftr (Z.land (opcode e) 0xF000) 12) 0) as [H0 | _].
    { rewrite H0 in Hh. injection Hh as <-.
      apply orb_false_iff in Hsame. destruct Hsame as [A B].
      apply Z.eqb_neq in A, B.
      rewrite (flat_family_0_unknown e A B) in Hrun. injection Hrun as <- <-.
      split; [discriminate | apply frame_refl]. }
    destruct (Z.eqb_spec (Z.shiftr (Z.land (opcode e) 0xF000) 12) 8) as [H8 | _].
    { rewrite H8 in Hh. injection Hh as <-.
      apply orb_false_iff in Hsame. destruct Hsame as [A B].
      apply Z.leb_gt in A. apply Z.eqb_neq in B.
      rewrite (flat_family_8_unknown e A B) in Hrun. injection Hrun as <- <-.
      split; [discriminate | apply frame_refl]. }
    destruct (Z.eqb_spec (Z.shiftr (Z.land (opcode e) 0xF000) 12) 0xE) as [HE | _].
    { rewrite HE in Hh. injection Hh as <-.
      apply orb_false_iff in Hsame. destruct Hsame as [A B].
      apply Z.eqb_neq in A, B.
      rewrite (flat_family_E_unknown e A B) in Hrun. injection Hrun as <- <-.
      split; [discriminate | apply frame_refl]. }
    destruct (Z.eqb_spec (Z.shiftr (Z.land (opcode e) 0xF000) 12) 0xF) as [HF | _];
      [| discriminate Hsame].
    rewrite HF in Hh. injection Hh as <-.
    apply negb_false_iff in Hsame. apply orb_true_iff in Hsame.
    destruct (flat_dump_load e) as [H55 H65].
    destruct Hsame as [A | A]; apply Z.eqb_eq in A.
    + rewrite (H55 A) in Hrun.
      destruct (instr_LD_I_Vx_multi (opcode e) e) as [[st0 e0] | u] eqn:E;
        [| discriminate Hrun].
      cbn [res_map move_I fst snd] in Hrun. injection Hrun as <- <-.
      destruct (benign_LD_I_Vx_multi (opcode e) e st0 e0 E) as [_ Hfr].
      split; [discriminate | exact Hfr].
    + rewrite (H65 A) in Hrun.
      destruct (instr_LD_Vx_I_multi (opcode e) e) as [[st0 e0] | u] eqn:E;
        [| discriminate Hrun].
      cbn [res_map move_I fst snd] in Hrun. injection Hrun as <- <-.
      destruct (benign_LD_Vx_I_multi (opcode e) e st0 e0 E) as [_ Hfr].
      split; [discriminate | exact Hfr].
Qed.

(** X21.  The breakpoint of [chip8_cycle].  A cycle of [src/chip8.c] that
    fetches and returns has recorded in [prev_PC] the address after the
    instruction, and it reports [EML_BRK_REACHED] exactly when a breakpoint is
    set at that address: the breakpoint at address a halts the engine when the
    instruction at a - 2 has been executed, and the instruction at a has not. *)
Theorem flat_breakpoint_on_advanced_PC
    (rnd : Z) (e e' : emulator) (fs : Flat.eml_stat) :
  key_waiting e = false ->
  PC (cpu e) + 1 < MEM_SIZE ->
  Flat.chip8_cycle rnd e = Ret (fs, e') ->
  prev_PC e' = PC (cpu e) + 2 /\
  (fs = Flat.EML_BRK_REACHED <->
   brk_point_set e = true /\ brk_point e = PC (cpu e) + 2).
Proof.
  intros Hk Hpc Hrun.
  destruct (fetch e) as [op | u] eqn:Hf.
  2:{ unfold Flat.chip8_cycle in Hrun. rewrite Hk in Hrun.
      destruct (Z.geb_spec (PC (cpu e) + 1) MEM_SIZE) as [Hge | _]; [lia |].
      rewrite Hf in Hrun. discriminate Hrun. }
  pose proof (fetch_PC_nonneg e op Hf) as Hp0.
  rewrite (flat_cycle_running rnd e op Hk Hpc Hf) in Hrun.
  rewrite (u16_small (PC (cpu e) + 2)) in Hrun by (unfold MEM_SIZE in Hpc; lia).
  set (ef := set_prev_PC (PC (cpu e) + 2) (advance op e)) in *.
  destruct (Flat.j_tbl1 rnd !! _) as [h |] eqn:Hh; [| discriminate Hrun].
  apply bind_Ret_inv in Hrun. destruct Hrun as ([fs0 e0] & Hh2 & Hrun).
  cbn [fst snd] in Hrun. injection Hrun as <- <-.
  destruct (flat_handler_frame rnd ef h fs0 e0 Hh Hh2)
    as [Hnb (_ & Hprev & Hbp & Hset)].
  change (prev_PC ef) with (PC (cpu e) + 2) in Hprev.
  assert (Hbp' : brk_point e0 = brk_point e) by exact Hbp.
  assert (Hset' : brk_point_set e0 = brk_point_set e) by exact Hset.
  split; [exact Hprev |].
  unfold Flat.brk_check. rewrite Hprev, Hbp', Hset'.
  destruct (brk_point_set e); cbn [andb].
  - destruct (Z.eqb_spec (PC (cpu e) + 2) (brk_point e)) as [Heq | Hne].
    + split; [intros _; split; [reflexivity | congruence] | reflexivity].
    + split; [intros H; contradiction | intros [_ H]; congruence].
  - split; [intros H; contradiction | intros [H _]; discriminate H].
Qed.

(** At the program [6A 2A; 6B 07] with the breakpoint at 0x202: the first
    cycle halts, VA is loaded, VB is not. *)
Lemma flat_breakpoint_on_advanced_PC_witness :
  exists e',
    Flat.chip8_cycle 0 (set_breakpoint true 0x202 (boot [0x6A; 0x2A; 0x6B; 0x07]))
      = Ret (Flat.EML_BRK_REACHED, e') /\
    prev_PC e' = 0x202 /\ Vr e' 0xA = 0x2A /\ Vr e' 0xB = 0.
Proof.
  destruct (Flat.chip8_cycle 0 (set_breakpoint true 0x202 (boot [0x6A; 0x2A; 0x6B; 0x07])))
    as [[fs e'] | u] eqn:Hrun; [| vm_compute in Hrun; discriminate Hrun].
  destruct (flat_breakpoint_on_advanced_PC 0
              (set_breakpoint true 0x202 (boot [0x6A; 0x2A; 0x6B; 0x07])) e' fs)
    as [Hprev Hiff].
  - reflexivity.
  - reflexivity.
  - exact Hrun.
  - assert (Hfs : fs = Flat.EML_BRK_REACHED).
    { apply Hiff. split; reflexivity. }
    subst fs. exists e'. split; [reflexivity |]. split; [exact Hprev |].
    vm_compute in Hrun. injection Hrun as <-. split; reflexivity.
Defined.

(** * The front end ([src/emulator/main.c]) *)

(** ** Events *)

Lemma untouched_refl e : untouched e e.
Proof. repeat split. Qed.

Lemma untouched_trans e1 e2 e3 : untouched e1 e2 -> untouched e2 e3 -> untouched e1 e3.
Proof.
  unfold untouched. intros (A1 & A2 & A3 & A4 & A5) (B1 & B2 & B3 & B4 & B5).
  repeat split; congruence.
Qed.

Lemma keypad_pressed_untouched key e : untouched e (keypad_pressed key e).
Proof. unfold keypad_pressed. destruct (key_waiting _); repeat split. Qed.

Lemma keypad_pressed_clock key e :
  clock_speed (keypad_pressed key e) = clock_speed e.
Proof. unfold keypad_pressed. destruct (key_waiting _); reflexivity. Qed.

Lemma event_handler_inv ev g b g' :
  event_handler ev g = Done (b, g') ->
  b = asks_to_quit ev /\
  untouched (eml g) (eml g') /\
  (b = true -> g' = g) /\
  (whole_cycles (clock_speed (eml g)) -> whole_cycles (clock_speed (eml g'))).
Proof.
  intros H.
  destruct ev as [id | | sym | sym |];
    [ destruct id
    | | destruct sym as [| | | | | key]; [.. | destruct key]
    | destruct sym as [| | | | | key]; [.. | destruct key] | ];
    cbn [event_handler] in H; cbv zeta in H;
    repeat match type of H with
           | context [if ?c then _ else _] => destruct c eqn:?
           end;
    try discriminate H; injection H as <- <-;
    (split; [reflexivity |]);
    (split; [first [apply untouched_refl | apply keypad_pressed_untouched
                   | repeat split] |]);
    (split; [first [reflexivity | discriminate] |]);
    unfold whole_cycles;
    cbn [eml display_redraw update_overlay called with_eml set_overlay_enabled
         clock_speed set_clock_speed set_paused keypad_released set_keypad];
    rewrite ?keypad_pressed_clock;
    try (intros Hc; exact Hc).
  all: intros [Hc1 Hc2];
    repeat match goal with
           | E : (_ >? _) = _ |- _ => revert E
           end;
    repeat match goal with
           | |- (?a >? ?b) = _ -> _ => destruct (Z.gtb_spec a b); intros ?
           end;
    try discriminate;
    Z.to_euclidean_division_equations; lia.
Qed.

Lemma poll_events_app l1 l2 : forall s,
  poll_events (l1 ++ l2) s = (r ← poll_events l1 s; poll_events l2 r).
Proof.
  induction l1 as [|ev l1 IH]; intros s; [reflexivity |].
  cbn [app poll_events].
  destruct (event_handler ev s.2) as [r | u | v]; cbn [mbind outcome_bind];
    [apply IH | reflexivity | reflexivity].
Qed.

Lemma poll_events_inv events : forall t g t' g',
  poll_events events (t, g) = Done (t', g') ->
  untouched (eml g) (eml g') /\
  (whole_cycles (clock_speed (eml g)) -> whole_cycles (clock_speed (eml g'))).
Proof.
  induction events as [|ev events IH]; intros t g t' g' H; cbn [poll_events] in H.
  - injection H as <- <-. split; [apply untouched_refl | auto].
  - cbn [snd] in H.
    destruct (event_handler ev g) as [[b g1] | u | v] eqn:E;
      cbn [mbind outcome_bind] in H; try discriminate H.
    destruct (event_handler_inv ev g b g1 E) as (_ & Hu & _ & Hc).
    destruct (IH b g1 t' g' H) as [Hu' Hc'].
    split; [exact (untouched_trans _ _ _ Hu Hu') | auto].
Qed.

(** X22.  Input never reaches the machine.  Whatever events are handled, the
    machine state (memory, display, registers, timers, PC, I, stack), what the
    last cycle recorded and the breakpoint are those from before: events
    change the keypad, the key latch, the clock speed and the pause only. *)
Theorem events_leave_machine_alone
    (events : list SDL_Event) (t t' : bool) (g g' : frontend) :
  poll_events events (t, g) = Done (t', g') ->
  cpu (eml g') = cpu (eml g) /\
  opcode (eml g') = opcode (eml g) /\
  prev_PC (eml g') = prev_PC (eml g) /\
  brk_point (eml g') = brk_point (eml g) /\
  brk_point_set (eml g') = brk_point_set (eml g).
Proof. intros H. exact (proj1 (poll_events_inv events t g t' g' H)). Qed.

(** The fixtures of the front end: the initial emulator, no overlay, no
    call made. *)
Lemma events_leave_machine_alone_witness :
  exists t' g',
    poll_events [SDL_KEYDOWN (SDLK SDLK_w); SDL_KEYUP SDLK_i; SDL_KEYUP SDLK_p]
      (false, mk_frontend emulator_init false []) = Done (t', g') /\
    cpu (eml g') = cpu emulator_init.
Proof.
  destruct (poll_events
              [SDL_KEYDOWN (SDLK SDLK_w); SDL_KEYUP SDLK_i; SDL_KEYUP SDLK_p]
              (false, mk_frontend emulator_init false []))
    as [[t' g'] | u | v] eqn:H; try (vm_compute in H; discriminate H).
  exists t', g'. split; [reflexivity |].
  exact (proj1 (events_leave_machine_alone _ false t'
                  (mk_frontend emulator_init false []) g' H)).
Defined.

(** X23.  The clock keys.  From a clock speed that is a positive multiple of
    60 (the default 1080 is one), the keys I and U and every other event leave
    a positive multiple of 60: the main loop goes on running at least one
    cycle, and so polling events, in each round. *)
Theorem clock_speed_stays_whole
    (events : list SDL_Event) (t t' : bool) (g g' : frontend) :
  60 <= clock_speed (eml g) ->
  clock_speed (eml g) mod 60 = 0 ->
  poll_events events (t, g) = Done (t', g') ->
  60 <= clock_speed (eml g') /\
  clock_speed (eml g') mod 60 = 0 /\
  1 <= Z.quot (clock_speed (eml g')) 60.
Proof.
  intros H60 Hmod H.
  destruct (proj2 (poll_events_inv events t g t' g' H) (conj H60 Hmod)) as [A B].
  split; [exact A |]. split; [exact B |].
  Z.to_euclidean_division_equations. lia.
Qed.

(** Seventeen times U from 1080 Hz, then once more: 60 Hz both times. *)
Lemma clock_speed_stays_whole_witness :
  exists t' g',
    poll_events (replicate 18 (SDL_KEYUP SDLK_u))
      (false, mk_frontend emulator_init false []) = Done (t', g') /\
    clock_speed (eml g') = 60 /\ 1 <= Z.quot (clock_speed (eml g')) 60.
Proof.
  destruct (poll_events (replicate 18 (SDL_KEYUP SDLK_u))
              (false, mk_frontend emulator_init false []))
    as [[t' g'] | u | v] eqn:H; try (vm_compute in H; discriminate H).
  exists t', g'. split; [reflexivity |].
  destruct (clock_speed_stays_whole (replicate 18 (SDL_KEYUP SDLK_u))
              false t' (mk_frontend emulator_init false []) g')
    as (_ & _ & Hq).
  - change (60 <= 1080). lia.
  - reflexivity.
  - exact H.
  - split; [| exact Hq]. vm_compute in H. injection H as _ <-. reflexivity.
Defined.

(** X24.  The last event decides.  [terminate] is assigned at every event, so
    after a poll that handled at least one event it is true exactly when the
    last event handled asks to quit (the window was closed or Escape went
    down): a request to quit that is followed by another event in the same
    poll is dropped. *)
Theorem last_event_decides
    (events : list SDL_Event) (ev : SDL_Event) (t t' : bool) (g g' : frontend) :
  poll_events (events ++ [ev]) (t, g) = Done (t', g') ->
  t' = asks_to_quit ev.
Proof.
  intros H. rewrite poll_events_app in H.
  destruct (poll_events events (t, g)) as [[t1 g1] | u | v];
    cbn [mbind outcome_bind] in H; try discriminate H.
  cbn [poll_events snd] in H.
  destruct (event_handler ev g1) as [[b g2] | u | v] eqn:E;
    cbn [mbind outcome_bind] in H; try discriminate H.
  injection H as <- <-.
  exact (proj1 (event_handler_inv ev g1 b g2 E)).
Qed.

(** The window is closed, then the key W comes up, in one poll. *)
Lemma last_event_decides_witness :
  exists g',
    poll_events ([SDL_QUIT] ++ [SDL_KEYUP (SDLK SDLK_w)])
      (false, mk_frontend emulator_init false []) = Done (false, g').
Proof.
  destruct (poll_events ([SDL_QUIT] ++ [SDL_KEYUP (SDLK SDLK_w)])
              (false, mk_frontend emulator_init false []))
    as [[t' g'] | u | v] eqn:H; try (vm_compute in H; discriminate H).
  exists g'.
  rewrite (last_event_decides [SDL_QUIT] (SDL_KEYUP (SDLK SDLK_w)) false t'
             (mk_frontend emulator_init false []) g' H).
  reflexivity.
Defined.

(** ** The main loop *)

Lemma main_loop_eta s :
  mk_main_loop (terminate s) (redraw s) (fault s) (front s) = s.
Proof. destruct s. reflexivity. Qed.

Lemma with_eml_same g : with_eml (fun _ => eml g) g = g.
Proof. destruct g. reflexivity. Qed.

Lemma cycles_fault cnt polls rnds s :
  fault s = true -> cycles cnt polls rnds s = Done s.
Proof. intros H. destruct cnt; cbn [cycles]; [| rewrite H]; reflexivity. Qed.

Lemma cycles_paused cnt rnds s :
  paused (eml (front s)) = true -> cycles cnt [] rnds s = Done s.
Proof.
  intros H. destruct cnt; cbn [cycles]; [reflexivity |].
  destruct (fault s) eqn:Hf; [reflexivity |].
  cbn [hd poll_events mbind outcome_bind fst snd front].
  rewrite H, <- Hf. rewrite main_loop_eta. reflexivity.
Qed.

Lemma cycles_stuck cnt : forall rnds s st,
  paused (eml (front s)) = false ->
  (forall rnd, emulator_cycle rnd (eml (front s)) = Ret (st, eml (front s))) ->
  st = EML_OK \/ st = EML_PC_OVERFL ->
  cycles cnt [] rnds s = Done s.
Proof.
  induction cnt as [|c IH]; intros rnds s st Hp Hcyc Hst; cbn [cycles];
    [reflexivity |].
  destruct (fault s) eqn:Hf; [reflexivity |].
  cbn [hd tl poll_events mbind outcome_bind fst snd front].
  rewrite Hp, Hcyc. cbn [of_res mbind outcome_bind fst snd front redraw terminate fault].
  rewrite with_eml_same, <- Hf, main_loop_eta.
  assert (Hs : cycle_status st s = s) by (destruct Hst as [-> | ->]; reflexivity).
  rewrite Hs. apply (IH _ s st); assumption.
Qed.

(** X25.  A round with nothing to do.  When the emulator is paused, or waits
    for a key, or has its PC at the end of the memory, and no event arrives, a
    round of the main loop leaves [terminate] false and changes nothing but
    the two timers, which it decrements as in every round: the timers run on
    while the emulator is paused, and the main loop does not stop on
    [EML_PC_OVERFL]. *)
Theorem idle_round (rnds : list Z) (g : frontend) :
  paused (eml g) = true \/ key_waiting (eml g) = true \/
  MEM_SIZE <= PC (cpu (eml g)) + 1 ->
  main_loop_round [] rnds g = Done (false, with_eml emulator_timer_dec g).
Proof.
  intros Hidle. unfold main_loop_round. cbv zeta.
  set (s0 := mk_main_loop false false false g).
  assert (H : cycles (Z.to_nat (Z.quot (clock_speed (eml g)) 60)) [] rnds s0 = Done s0).
  { destruct (paused (eml g)) eqn:Hp; [apply cycles_paused; exact Hp |].
    destruct Hidle as [Hp' | [Hk | Hpc]]; [discriminate Hp' | |].
    - apply (cycles_stuck _ rnds s0 EML_OK); [exact Hp | | left; reflexivity].
      intros rnd. unfold emulator_cycle. cbn [front s0]. rewrite Hk. reflexivity.
    - destruct (key_waiting (eml g)) eqn:Hk.
      + apply (cycles_stuck _ rnds s0 EML_OK); [exact Hp | | left; reflexivity].
        intros rnd. unfold emulator_cycle. cbn [front s0]. rewrite Hk. reflexivity.
      + apply (cycles_stuck _ rnds s0 EML_PC_OVERFL); [exact Hp | | right; reflexivity].
        intros rnd. unfold emulator_cycle. cbn [front s0]. rewrite Hk.
        destruct (Z.geb_spec (PC (cpu (eml g)) + 1) MEM_SIZE); [reflexivity | lia]. }
  rewrite H. reflexivity.
Qed.

(** Paused with DT = 3, one round. *)
Lemma idle_round_witness :
  exists g',
    main_loop_round [] []
      (mk_frontend (set_paused true (upd (set_DT 3) emulator_init)) true [])
      = Done (false, g') /\
    DT (cpu (eml g')) = 2 /\ PC (cpu (eml g')) = 0x200.
Proof.
  eexists. split.
  - apply idle_round. left. reflexivity.
  - split; reflexivity.
Defined.

(** X26.  A clock below 60 Hz.  With a clock speed under 60 (the option -c can
    set one) the number of cycles of a round is 0, and the events are polled
    inside the cycle loop only: whatever events are queued, a round handles
    none of them, runs no cycle and decrements the timers. *)
Theorem slow_clock_round
    (polls : list (list SDL_Event)) (rnds : list Z) (g : frontend) :
  clock_speed (eml g) < 60 ->
  main_loop_round polls rnds g = Done (false, with_eml emulator_timer_dec g).
Proof.
  intros Hc. unfold main_loop_round. cbv zeta.
  assert (H0 : Z.to_nat (Z.quot (clock_speed (eml g)) 60) = 0%nat).
  { Z.to_euclidean_division_equations. lia. }
  rewrite H0. reflexivity.
Qed.

(** At 59 Hz, with the window closed. *)
Lemma slow_clock_round_witness :
  main_loop_round [[SDL_QUIT]] []
    (mk_frontend (set_clock_speed 59 emulator_init) false [])
  = Done (false,
          with_eml emulator_timer_dec
            (mk_frontend (set_clock_speed 59 emulator_init) false [])).
Proof. apply slow_clock_round. change (59 < 60). lia. Defined.

(** X27.  The main loop gives up on a fault.  In a round that runs cycles
    (clock speed 60 or more), let the first cycle, after its poll left the
    emulator not paused, report an unknown opcode, a stack overflow, a stack
    underflow or the breakpoint.  Then the round is over: no further event is
    polled and no further cycle is run, whatever is queued; no redraw is made;
    the timers are decremented; [terminate] is true whatever the events said.
    On the breakpoint the emulator is dumped first. *)
Theorem fault_ends_the_round
    (evs : list SDL_Event) (polls : list (list SDL_Event)) (rnd : Z)
    (rnds : list Z) (g g1 : frontend) (t1 : bool) (st : eml_stat) (e' : emulator) :
  60 <= clock_speed (eml g) ->
  poll_events evs (false, g) = Done (t1, g1) ->
  paused (eml g1) = false ->
  emulator_cycle rnd (eml g1) = Ret (st, e') ->
  gives_up st = true ->
  main_loop_round (evs :: polls) (rnd :: rnds) g
  = Done (true,
          with_eml emulator_timer_dec
            (if is_fault st then with_eml (fun _ => e') g1
             else called Call_emulator_dump (with_eml (fun _ => e') g1))).
Proof.
  intros Hc Hpoll Hp Hcyc Hst. unfold main_loop_round. cbv zeta.
  assert (Hn : exists c, Z.to_nat (Z.quot (clock_speed (eml g)) 60) = S c).
  { exists (Nat.pred (Z.to_nat (Z.quot (clock_speed (eml g)) 60))).
    Z.to_euclidean_division_equations. lia. }
  destruct Hn as [c ->].
  cbn [cycles fault hd tl terminate front redraw].
  rewrite Hpoll. cbn [mbind outcome_bind fst snd front].
  rewrite Hp, Hcyc. cbn [of_res mbind outcome_bind fst snd front redraw terminate fault].
  destruct st; try discriminate Hst;
    (rewrite cycles_fault by reflexivity);
    reflexivity.
Qed.

(** At the unknown opcode F0FF: the key I that is queued for the second
    poll is never handled. *)
Lemma fault_ends_the_round_witness :
  exists g',
    main_loop_round [[]; [SDL_KEYUP SDLK_i]] [0; 0]
      (mk_frontend (boot [0xF0; 0xFF]) false [])
      = Done (true, g') /\
    PC (cpu (eml g')) = 0x202 /\ clock_speed (eml g') = 1080 /\ calls g' = [].
Proof.
  destruct (emulator_cycle 0 (boot [0xF0; 0xFF])) as [[st e'] | u] eqn:Hrun;
    [| vm_compute in Hrun; discriminate Hrun].
  assert (Hst : st = EML_UNK_OPC /\ PC (cpu (emulator_timer_dec e')) = 0x202 /\
                clock_speed (emulator_timer_dec e') = 1080).
  { vm_compute in Hrun. injection Hrun as <- <-. repeat split. }
  destruct Hst as (-> & HPC & Hclk).
  eexists. split.
  - apply (fault_ends_the_round [] [[SDL_KEYUP SDLK_i]] 0 [0]
             (mk_frontend (boot [0xF0; 0xFF]) false [])
             (mk_frontend (boot [0xF0; 0xFF]) false []) false EML_UNK_OPC e').
    + change (60 <= 1080). lia.
    + reflexivity.
    + reflexivity.
    + exact Hrun.
    + reflexivity.
  - cbn [is_fault with_eml eml calls]. split; [exact HPC |].
    split; [exact Hclk | reflexivity].
Defined.

(** * Nested subroutine calls *)

Lemma returns_app (n m : nat) : forall e l1 e1 l2 e2,
  nested_returns n e = Some (l1, e1) -> nested_returns m e1 = Some (l2, e2) ->
  nested_returns (n + m) e = Some (l1 ++ l2, e2).
Proof.
  induction n as [|k IH]; intros e l1 e1 l2 e2 H1 H2; cbn [nested_returns Nat.add] in *.
  - injection H1 as <- <-. exact H2.
  - destruct (instr_RET 0 e) as [[[] e'] | u]; try discriminate H1.
    destruct (nested_returns k e') as [[l e1'] |] eqn:E; [| discriminate H1].
    cbn [fst snd] in H1. injection H1 as <- <-.
    rewrite (IH e' l e1' l2 e2 E H2). reflexivity.
Qed.

(** X28.  Returns come in the reverse order of the calls.  From a stack with
    room for them, any number of CALLs in a row succeed, and as many RETs
    after them succeed and restore the PC to the return addresses of the
    CALLs, the last one first; the stack pointer is back where it was and the
    stack below it was not touched. *)
Theorem calls_return_in_reverse (cs : list (Z * Z)) : forall e : emulator,
  length (stack (cpu e)) = Z.to_nat STACK_SIZE ->
  0 <= SP (cpu e) ->
  SP (cpu e) + Z.of_nat (length cs) <= STACK_SIZE ->
  exists e1 e2,
    nested_calls cs e = Some e1 /\
    SP (cpu e1) = SP (cpu e) + Z.of_nat (length cs) /\
    nested_returns (length cs) e1 = Some (rev (map fst cs), e2) /\
    SP (cpu e2) = SP (cpu e) /\
    (forall i, 0 <= i < SP (cpu e) ->
       get (stack (cpu e2)) i = get (stack (cpu e)) i).
Proof.
  induction cs as [|[r op] cs IH]; intros e Hlen HSP Hroom.
  - exists e, e. cbn [length] in *. repeat split; try reflexivity. lia.
  - cbn [length] in Hroom. rewrite Nat2Z.inj_succ in Hroom.
    cbn [nested_calls fst snd].
    rewrite CALL_pushes by (cbn [cpu upd set_cpu SP set_PC]; lia).
    cbn [cpu upd set_cpu SP stack PC set_PC set_SP set_stack].
    set (e' := upd (set_PC (op_nnn op)) _).
    destruct (IH e') as (e1 & e2 & Hc & HSP1 & Hr & HSP2 & Hst).
    + unfold e'. cbn [cpu upd set_cpu stack set_PC set_SP set_stack].
      rewrite length_set. exact Hlen.
    + unfold e'. cbn [cpu upd set_cpu SP set_PC set_SP set_stack]. lia.
    + unfold e'. cbn [cpu upd set_cpu SP set_PC set_SP set_stack]. lia.
    + assert (HSPe' : SP (cpu e') = SP (cpu e) + 1) by reflexivity.
      assert (Hstk : stack (cpu e') = set (stack (cpu e)) (SP (cpu e)) r)
        by reflexivity.
      assert (Htop : get (stack (cpu e2)) (SP (cpu e)) = r).
      { rewrite Hst by lia. rewrite Hstk. apply get_set_eq.
        rewrite Hlen. unfold STACK_SIZE in *. lia. }
      exists e1. eexists. split; [exact Hc |].
      split; [cbn [length]; lia |].
      split; [| split].
      * cbn [length map rev fst].
        replace (S (length cs)) with (length cs + 1)%nat by lia.
        apply (returns_app _ 1 e1 _ e2 [r]); [exact Hr |].
        cbn [nested_returns].
        rewrite RET_pops by (unfold STACK_SIZE in *; lia).
        cbn [cpu upd set_cpu PC stack SP set_PC set_SP fst snd].
        rewrite HSP2, HSPe'.
        replace (SP (cpu e) + 1 - 1) with (SP (cpu e)) by lia.
        rewrite Htop. reflexivity.
      * cbn [cpu upd set_cpu SP set_PC set_SP]. lia.
      * intros i Hi. cbn [cpu upd set_cpu stack set_PC set_SP].
        rewrite Hst by lia. rewrite Hstk. apply get_set_ne; lia.
Qed.

(** Three nested calls from 0x202, 0x312 and 0x422. *)
Lemma calls_return_in_reverse_witness :
  exists e1 e2,
    nested_calls [(0x202, 0x2310); (0x312, 0x2420); (0x422, 0x2530)] emulator_init = Some e1 /\
    SP (cpu e1) = 3 /\
    nested_returns 3 e1 = Some ([0x422; 0x312; 0x202], e2) /\
    SP (cpu e2) = 0.
Proof.
  destruct (calls_return_in_reverse
              [(0x202, 0x2310); (0x312, 0x2420); (0x422, 0x2530)] emulator_init)
    as (e1 & e2 & Hc & HSP1 & Hr & HSP2 & _).
  - reflexivity.
  - change (0 <= 0). lia.
  - change (0 + 3 <= 16). lia.
  - exists e1, e2. split; [exact Hc |]. split; [exact HSP1 |].
    split; [exact Hr | exact HSP2].
Defined.

Lemma event_filter_drops_unhandled ev g :
  event_filter ev = 0 -> event_handler ev g = Done (false, g).
Proof. destruct ev; cbn [event_filter]; intros H; try discriminate H. reflexivity. Qed.
